(** * The plugin manager of the server core

    A shallow embedding of
    [packages/core/server/src/plugin-manager/plugin-manager.ts]
    (class [PluginManager]) and of [types.ts] (interface [PluginData]).

    The manager keeps an in-memory registry of plugin instances (a JS
    [Map], iterated in insertion order), drives a persistent table of
    plugin records through a repository, and calls hooks on the instances.
    All of its methods are [async]: they are embedded as terms of a small
    resumption monad [Async] in which every [await] of the source is an
    explicit suspension point, so that one call can be run on its own
    ([run]) or interleaved with other pending calls ([exec]). State that
    outlives a thrown error is kept: a failing call returns the world it
    has reached. *)

From Stdlib Require Import List String Bool Arith Lia.
Import ListNotations.
Local Open Scope string_scope.
Local Open Scope list_scope.

(* ------------------------------------------------------------------ *)
(** ** JavaScript values *)

(** [!!x] for an optional boolean: [undefined] is falsy. *)
Definition truthy (b : option bool) : bool :=
  match b with Some true => true | _ => false end.

(** [!!s] for an optional string: [undefined] and the empty string are
    falsy. *)
Definition truthy_str (s : option string) : bool :=
  match s with
  | Some s' => negb (String.eqb s' "")
  | None => false
  end.

(* ------------------------------------------------------------------ *)
(** ** [types.ts]: [PluginData] *)

Module PluginData.
(** Every field of the interface is optional. The field [options?: any]
    is always written as [{}] and never read by the manager; it is left
    out. *)
Record t : Type := mk {
  name : option string;
  version : option string;
  appName : option string;
  registry : option string;
  clientUrl : option string;
  zipUrl : option string;
  enabled : option bool;
  isOfficial : option bool;
  installed : option bool;
  builtIn : option bool
}.
End PluginData.

(* ------------------------------------------------------------------ *)
(** ** Plugin instances *)

Module Plugin.
(** Modelled from the spec: the class [Plugin] (imported from
    [../plugin]) is not among the sources. An instance is bound at
    construction time to the [name], [enabled] and [builtIn] it was
    given ([new PluginClass(app, {name, enabled, builtIn})]); [cls]
    names the class it was constructed from (the package that
    [require] resolved). The manager never assigns to these fields. *)
Record t : Type := mk {
  cls : string;
  name : option string;
  enabled : option bool;
  builtIn : option bool
}.
End Plugin.

(** The hooks of the plugin capability set that the manager calls. *)
Inductive Hook : Type :=
| HAfterAdd | HBeforeLoad | HLoad | HInstall
| HAfterEnable | HAfterDisable | HRemove.

(** What a resolved package exports: a class, or something that is not a
    function. *)
Inductive Export : Type :=
| Class (c : string)
| NotAFunction.

(* ------------------------------------------------------------------ *)
(** ** The registry: [Map<string | typeof Plugin, Plugin>] *)

Inductive Key : Type :=
| KName (s : string)
| KClass (c : string).

Definition key_eqb (a b : Key) : bool :=
  match a, b with
  | KName x, KName y => String.eqb x y
  | KClass x, KClass y => String.eqb x y
  | _, _ => false
  end.

Module JsMap.
(** A JS [Map] as an association list in insertion order: [set] on a
    present key replaces the value in place, on an absent key appends. *)
Definition t : Type := list (Key * Plugin.t).

Fixpoint get (k : Key) (m : t) : option Plugin.t :=
  match m with
  | [] => None
  | (k', v) :: r => if key_eqb k k' then Some v else get k r
  end.

Definition has (k : Key) (m : t) : bool :=
  match get k m with Some _ => true | None => false end.

Fixpoint set (k : Key) (v : Plugin.t) (m : t) : t :=
  match m with
  | [] => [(k, v)]
  | (k', v') :: r =>
      if key_eqb k k' then (k, v) :: r else (k', v') :: set k v r
  end.

Fixpoint delete (k : Key) (m : t) : t :=
  match m with
  | [] => []
  | (k', v') :: r =>
      if key_eqb k k' then r else (k', v') :: delete k r
  end.

Definition values (m : t) : list Plugin.t := map snd m.
End JsMap.

(* ------------------------------------------------------------------ *)
(** ** The record store *)

(** The [filter] objects the manager passes: [{name, appName}], with
    [builtIn: false] added by [disable] and [remove]. *)
Record Filter : Type := mkFilter {
  f_name : string;
  f_appName : string;
  f_builtIn : option bool
}.

(** The [values] objects the manager passes to [update]. [None] is a
    key that is absent or whose value is [undefined]: nothing is written
    for it. *)
Record Values : Type := mkValues {
  v_version : option string;
  v_clientUrl : option string;
  v_installed : option bool;
  v_enabled : option bool
}.

Inductive StoreOp : Type :=
| Create (values : PluginData.t)
| Update (f : Filter) (v : Values)
| Destroy (f : Filter).

(* ------------------------------------------------------------------ *)
(** ** Events observed on a run *)

(** [app.emitAsync(event, ...)]: the application events of the manager.
    The [options] argument that [load] forwards is not modelled. *)
Inductive AppEvent : Type :=
| AfterEnablePlugin (name : string)
| AfterDisablePlugin (name : string)
| BeforeLoadPlugin (p : Plugin.t)
| AfterLoadPlugin (p : Plugin.t).

Inductive Event : Type :=
| EvStore (op : StoreOp)
| EvHook (p : Plugin.t) (h : Hook)
| EvEmit (ev : AppEvent)
| EvNpm (name : string) (registry version : option string)
| EvRemovePackage (name : string)
| EvSync
| EvGenerate (name : string)
| EvLocalPackage (path : string).

(* ------------------------------------------------------------------ *)
(** ** Errors *)

(** One constructor per [throw] site of the manager, plus the errors that
    come from outside it. *)
Inductive Err : Type :=
| ErrNameAlreadyExists (name : string)      (* addByNpm *)
| ErrAlreadyExists (name : string)          (* addByLocalPath *)
| ErrMustExportClass (name : option string) (* setPluginInstance *)
| ErrNeedEnabled (name required : string)   (* enable *)
| ErrBuiltInDisable (name : string)         (* disable *)
| ErrBuiltInRemove (name : string)          (* remove *)
| ErrNotExists (name : string)              (* getPluginData *)
| ErrDoesNotExist (name : string)           (* getPluginInstance *)
| ErrCliNotExists (name : string)           (* addByCli *)
| TypeErrorUndefined (property : string)    (* property read on undefined *)
| TypeErrorNotAFunction (property : string) (* this[...] is not a function *)
| ErrRequire (name : option string)         (* require() fails *)
| ErrHook (p : Plugin.t) (h : Hook)         (* a hook throws *)
| ErrEvent (ev : AppEvent)                  (* an event handler throws *)
| ErrResolver (name : string)               (* package resolution fails *)
| ErrStore (op : StoreOp)                   (* the repository rejects *)
| ErrExtraInfo (name : option string)       (* getExtraPluginInfo fails *)
| ErrCheckPackage (name : option string)    (* checkPluginPackage fails *)
| ErrIteration.                             (* iteration bound exhausted *)

(** The messages of the source's [new Error(...)]. The text of an
    error that the engine or a collaborator raises is not the source's
    and is left empty. *)
Definition message (e : Err) : string :=
  match e with
  | ErrNameAlreadyExists n => "plugin name [" ++ n ++ "] already exists"
  | ErrAlreadyExists n => "plugin [" ++ n ++ "] already exists"
  | ErrMustExportClass n =>
      "plugin [" ++ match n with Some s => s | None => "undefined" end
        ++ "] must export a class"
  | ErrNeedEnabled n r => n ++ " plugin need " ++ r ++ " plugin enabled"
  | ErrBuiltInDisable n => n ++ " plugin is builtIn, can not disable"
  | ErrBuiltInRemove n => n ++ " plugin is builtIn, can not remove"
  | ErrNotExists n => "plugin [" ++ n ++ "] not exists"
  | ErrDoesNotExist n => n ++ " plugin does not exist"
  | ErrCliNotExists n =>
      "plugin [" ++ n ++ "] not exists, Please use 'yarn nocobase pm create "
        ++ n ++ "' to create first."
  | _ => ""
  end.

(** The error taxonomy of the specification. *)
Inductive ErrKind : Type :=
| DuplicatePlugin | PluginNotFound | RequiredPluginNotEnabled
| BuiltInProtected | InvalidPluginExport | PackageResolutionFailure
| OtherError.

Definition kind (e : Err) : ErrKind :=
  match e with
  | ErrNameAlreadyExists _ | ErrAlreadyExists _ => DuplicatePlugin
  | ErrNotExists _ | ErrDoesNotExist _ | ErrCliNotExists _ => PluginNotFound
  | ErrNeedEnabled _ _ => RequiredPluginNotEnabled
  | ErrBuiltInDisable _ | ErrBuiltInRemove _ => BuiltInProtected
  | ErrMustExportClass _ => InvalidPluginExport
  | ErrResolver _ | ErrRequire _ => PackageResolutionFailure
  | _ => OtherError
  end.

Inductive Outcome (A : Type) : Type :=
| Ok (a : A)
| Error (e : Err).
Arguments Ok {A} a.
Arguments Error {A} e.

(* ------------------------------------------------------------------ *)
(** ** The world a manager acts on *)

Record World : Type := mkWorld {
  plugins : JsMap.t;                 (* this.plugins *)
  store : list PluginData.t;         (* rows of applicationPlugins *)
  tableExists : bool;                (* collectionExistsInDb(...) *)
  trace : list Event                 (* what has happened, oldest first *)
}.

Definition setPlugins (m : JsMap.t) (w : World) : World :=
  mkWorld m (store w) (tableExists w) (trace w).
Definition setStore (s : list PluginData.t) (w : World) : World :=
  mkWorld (plugins w) s (tableExists w) (trace w).
Definition setTableExists (b : bool) (w : World) : World :=
  mkWorld (plugins w) (store w) b (trace w).
Definition record (e : Event) (w : World) : World :=
  mkWorld (plugins w) (store w) (tableExists w) (trace w ++ [e]).

(* ------------------------------------------------------------------ *)
(** ** Asynchronous computations *)

(** [Do m k] performs the synchronous action [m] and goes on with [k];
    [Await k] suspends the caller, which resumes with [k]; [Fork c k]
    calls the async function [c] without awaiting it: [c] runs up to its
    first suspension and [k] goes on at once. *)
Inductive Async (A : Type) : Type :=
| Ret (a : A)
| Throw (e : Err)
| Do (X : Type) (m : World -> X * World) (k : X -> Async A)
| Await (k : Async A)
| Fork (c : Async unit) (k : Async A).
Arguments Ret {A} a.
Arguments Throw {A} e.
Arguments Do {A X} m k.
Arguments Await {A} k.
Arguments Fork {A} c k.

Fixpoint bind {A B : Type} (m : Async A) (f : A -> Async B) : Async B :=
  match m with
  | Ret a => f a
  | Throw e => Throw e
  | Do op k => Do op (fun x => bind (k x) f)
  | Await k => Await (bind k f)
  | Fork c k => Fork c (bind k f)
  end.

Notation "x <- m ;; k" := (bind m (fun x => k))
  (at level 61, m at next level, right associativity).
Notation "m ;; k" := (bind m (fun _ => k))
  (at level 61, right associativity).

(** [await e]: evaluate [e], suspend, resume with its value. *)
Definition await {A : Type} (m : Async A) : Async A :=
  x <- m ;; Await (Ret x).

Definition gets {X : Type} (f : World -> X) : Async X :=
  Do (fun w => (f w, w)) (fun x => Ret x).
Definition modify (f : World -> World) : Async unit :=
  Do (fun w => (tt, f w)) (fun x => Ret x).
Definition emit (e : Event) : Async unit := modify (record e).

(** What a call has become when it stops running. *)
Inductive Susp (A : Type) : Type :=
| Finished (o : Outcome A)
| Suspended (k : Async A).
Arguments Finished {A} o.
Arguments Suspended {A} k.

Definition Task : Type := Async unit.

(** The continuation a stopped call leaves in the scheduler; the result
    of a call nobody awaits is dropped. *)
Definition residual (s : Susp unit) : Task :=
  match s with
  | Finished _ => Ret tt
  | Suspended k => k
  end.

Definition pending (s : Susp unit) : list Task :=
  match s with
  | Finished _ => []
  | Suspended k => [k]
  end.

(** Run a call up to its next suspension. Forked calls that are still
    pending are returned to be scheduled. *)
Fixpoint segment {A : Type} (t : Async A) (w : World)
  : Susp A * list Task * World :=
  match t with
  | Ret a => (Finished (Ok a), [], w)
  | Throw e => (Finished (Error e), [], w)
  | Do op k => let (x, w') := op w in segment (k x) w'
  | Await k => (Suspended k, [], w)
  | Fork c k =>
      let '(sc, cs, w1) := segment c w in
      let '(sk, ks, w2) := segment k w1 in
      (sk, pending sc ++ cs ++ ks, w2)
  end.

(** Run one call to completion, resumed as soon as it suspends and with
    nothing else scheduled in between. Of a forked call only the part up
    to its first suspension is run. *)
Fixpoint run {A : Type} (t : Async A) (w : World) : Outcome A * World :=
  match t with
  | Ret a => (Ok a, w)
  | Throw e => (Error e, w)
  | Do op k => let (x, w') := op w in run (k x) w'
  | Await k => run k w
  | Fork c k => let '(_, _, w1) := segment c w in run k w1
  end.

(** *** The scheduler *)

(** The pending calls of one process and the world they share. A call
    that has finished stays in its slot as [Ret tt]. *)
Record Pool : Type := mkPool {
  world : World;
  tasks : list Task
}.

Definition idle (w : World) : Pool := mkPool w [].

Fixpoint replace (i : nat) (t : Task) (l : list Task) : list Task :=
  match l, i with
  | [], _ => []
  | _ :: r, O => t :: r
  | x :: r, S j => x :: replace j t r
  end.

(** Call an async function: it runs up to its first suspension. *)
Definition spawn (t : Task) (P : Pool) : Pool :=
  let '(s, new, w') := segment t (world P) in
  mkPool w' (tasks P ++ [residual s] ++ new).

(** Resume the pending call in slot [i]. *)
Definition resume (i : nat) (P : Pool) : Pool :=
  match nth_error (tasks P) i with
  | None => P
  | Some t =>
      let '(s, new, w') := segment t (world P) in
      mkPool w' (replace i (residual s) (tasks P) ++ new)
  end.

(** A schedule names the slot to resume at each turn. *)
Definition exec (schedule : list nat) (P : Pool) : Pool :=
  fold_left (fun P i => resume i P) schedule P.

Definition finished (t : Task) : bool :=
  match t with Ret _ => true | _ => false end.

Definition quiescent (P : Pool) : bool := forallb finished (tasks P).

(* ------------------------------------------------------------------ *)
(** ** The collaborators of the manager *)

(** [getExtraPluginInfo] returns an object that [list] spreads over the
    record; its keys are taken to be disjoint from the record's. *)
Definition ExtraInfo : Type := list (string * string).

(** What the manager imports and does not define: the application, the
    plugin classes and the package utilities of [./utils]. An [option]
    result is [None] when the call throws; a [bool] result tells whether
    the call throws ([hookThrows], [emitThrows]) or succeeds (the
    others). *)
Record Env : Type := mkEnv {
  appName : string;                                (* this.app.name *)
  require_ : string -> option Export;              (* require(name) *)
  requiredPlugins : Plugin.t -> list string;       (* instance.requiredPlugins() *)
  hookThrows : Plugin.t -> Hook -> bool;
  emitThrows : AppEvent -> bool;
  addOrUpdatePluginByNpm :
    string -> option string -> option string -> option (option string);
  getNewVersion : PluginData.t -> option (option string);
  getPackageJsonByLocalPath : string -> option (string * option string);
  getClientStaticUrl : string -> string;
  getExtraPluginInfo : PluginData.t -> option ExtraInfo;
  checkPluginPackage : PluginData.t -> bool;
  removePluginPackage : string -> bool;
  getPluginPackagesPath : string;
  pathJoin : string -> string -> string;           (* path.join(a, b) *)
  existsSync : string -> bool;
  addByLocalPackage : string -> bool;
  generate : string -> bool                        (* PluginGenerator.run, yarn install *)
}.

(** [o === s] for a value that may be [undefined]. *)
Definition opt_eqb (o : option string) (s : string) : bool :=
  match o with Some x => String.eqb x s | None => false end.

(** *** The repository *)

(** [PluginManagerRepository] and the collection options are not among
    the sources. Section 4.1 of the specification gives the contract of
    the repository ([list], [findOne], [create], [update], [destroy]) and
    section 6 the unique constraint on [(name, appName)]; the definitions
    below follow them. Only the operations that change the table are
    recorded in the trace. *)

(** Modelled from the spec: a row meets a filter when it has the name
    and the application of the filter and, where the filter names
    [builtIn], that flag. *)
Definition matches (f : Filter) (r : PluginData.t) : bool :=
  opt_eqb (PluginData.name r) (f_name f)
  && opt_eqb (PluginData.appName r) (f_appName f)
  && match f_builtIn f with
     | None => true
     | Some b => Bool.eqb (truthy (PluginData.builtIn r)) b
     end.

(** A value that is given replaces the old one. *)
Definition orElse {X : Type} (v : option X) (old : option X) : option X :=
  match v with Some _ => v | None => old end.

(** Modelled from the spec: [update] writes the given values into a
    row. *)
Definition applyValues (v : Values) (r : PluginData.t) : PluginData.t :=
  PluginData.mk
    (PluginData.name r)
    (orElse (v_version v) (PluginData.version r))
    (PluginData.appName r)
    (PluginData.registry r)
    (orElse (v_clientUrl v) (PluginData.clientUrl r))
    (PluginData.zipUrl r)
    (orElse (v_enabled v) (PluginData.enabled r))
    (PluginData.isOfficial r)
    (orElse (v_installed v) (PluginData.installed r))
    (PluginData.builtIn r).

(** Modelled from the spec: [update] changes the rows that meet the
    filter. *)
Definition updateRows (f : Filter) (v : Values) (rows : list PluginData.t)
  : list PluginData.t :=
  map (fun r => if matches f r then applyValues v r else r) rows.

(** Modelled from the spec: [destroy] deletes the rows that meet the
    filter. *)
Definition destroyRows (f : Filter) (rows : list PluginData.t)
  : list PluginData.t :=
  filter (fun r => negb (matches f r)) rows.

(** Modelled from the spec: two rows with the same [(name, appName)]. *)
Definition sameKey (a b : PluginData.t) : bool :=
  match PluginData.name a, PluginData.appName a with
  | Some n, Some app =>
      opt_eqb (PluginData.name b) n && opt_eqb (PluginData.appName b) app
  | _, _ => false
  end.

(** Modelled from the spec: [create] appends the row and returns it; a
    second row for the same [(name, appName)] is rejected. *)
Definition repo_create (values : PluginData.t) : Async PluginData.t :=
  dup <- gets (fun w => existsb (sameKey values) (store w)) ;;
  if (dup : bool) then Throw (ErrStore (Create values))
  else
    modify (fun w => record (EvStore (Create values))
                       (setStore (store w ++ [values]) w)) ;;
    Ret values.

(** Modelled from the spec: [update(filter, values)]. *)
Definition repo_update (f : Filter) (v : Values) : Async unit :=
  modify (fun w => record (EvStore (Update f v))
                     (setStore (updateRows f v (store w)) w)).

(** Modelled from the spec: [destroy(filter)]. *)
Definition repo_destroy (f : Filter) : Async unit :=
  modify (fun w => record (EvStore (Destroy f))
                     (setStore (destroyRows f (store w)) w)).

(** Modelled from the spec: [findOne(filter)], the first row that meets
    the filter, if any. *)
Definition repo_findOne (f : Filter) : Async (option PluginData.t) :=
  gets (fun w => find (matches f) (store w)).

(** Modelled from the spec: [list(appName)], the rows of the
    application in the order of the table. *)
Definition repo_list (app : string) : Async (list PluginData.t) :=
  gets (fun w => filter (fun r => opt_eqb (PluginData.appName r) app) (store w)).

(* ------------------------------------------------------------------ *)
(** ** [class PluginManager] *)

Section Manager.

Variable E : Env.

(** A hook of the instance is called; it may throw. *)
Definition hook (p : Plugin.t) (h : Hook) : Async unit :=
  emit (EvHook p h) ;;
  if hookThrows E p h then Throw (ErrHook p h) else Ret tt.

(** [this.app.emitAsync(event, ...)]: the handlers run; one may throw. *)
Definition emitAsync (ev : AppEvent) : Async unit :=
  emit (EvEmit ev) ;;
  if emitThrows E ev then Throw (ErrEvent ev) else Ret tt.

(** [require(name)]; Node rejects a missing or empty module name. *)
Definition require (name : option string) : Async Export :=
  match name with
  | None => Throw (ErrRequire name)
  | Some s =>
      if String.eqb s "" then Throw (ErrRequire name)
      else match require_ E s with
           | Some x => Ret x
           | None => Throw (ErrRequire name)
           end
  end.

(** [{ name, enabled, builtIn }]. *)
Definition pick (name : option string) (enabled builtIn : option bool)
  : PluginData.t :=
  PluginData.mk name None None None None None enabled None None builtIn.

(** [name || PluginClass]. *)
Definition registryKey (name : option string) (c : string) : Key :=
  match name with
  | Some s => if truthy_str name then KName s else KClass c
  | None => KClass c
  end.

Definition setPluginInstance (PluginClass : Export) (options : PluginData.t)
  : Async Plugin.t :=
  match PluginClass with
  | NotAFunction => Throw (ErrMustExportClass (PluginData.name options))
  | Class c =>
      let instance :=
        Plugin.mk c (PluginData.name options)
          (PluginData.enabled options) (PluginData.builtIn options) in
      modify (fun w =>
        setPlugins
          (JsMap.set (registryKey (PluginData.name options) c) instance
             (plugins w)) w) ;;
      Ret instance
  end.

Definition setDatabasePlugin (pluginData : PluginData.t) : Async Plugin.t :=
  PluginClass <- require (PluginData.name pluginData) ;;
  pluginInstance <- setPluginInstance PluginClass pluginData ;;
  Ret pluginInstance.

(** [initStaticPlugins]: a class alone, or a class with its options. *)
Fixpoint initStaticPlugins (l : list (Export * option PluginData.t))
  : Async unit :=
  match l with
  | [] => Ret tt
  | (PluginClass, options) :: rest =>
      setPluginInstance PluginClass
        (match options with
         | Some o => o
         | None => pick None None None
         end) ;;
      initStaticPlugins rest
  end.

(** [for await (const x of array)]. *)
Fixpoint forAwaitOf {X : Type} (l : list X) (body : X -> Async unit)
  : Async unit :=
  match l with
  | [] => Await (Ret tt)
  | x :: rest => Await (body x ;; forAwaitOf rest body)
  end.

(** [for await (const plugin of this.plugins.values())]. The iterator
    of a [Map] is live: every [next()] reads the map as it is then, so
    the loop is not a recursion on a list fixed at its start. [bound]
    limits the number of [next()] calls. *)
Fixpoint forAwaitValues (bound i : nat) (body : Plugin.t -> Async unit)
  : Async unit :=
  match bound with
  | O => Throw ErrIteration
  | S b =>
      cur <- gets (fun w => nth_error (JsMap.values (plugins w)) i) ;;
      Await (match cur with
             | None => Ret tt
             | Some plugin => body plugin ;; forAwaitValues b (S i) body
             end)
  end.

(** [getPluginInstance] is synchronous. *)
Definition getPluginInstance (name : string) : Async Plugin.t :=
  pluginInstance <- gets (fun w => JsMap.get (KName name) (plugins w)) ;;
  match pluginInstance with
  | None => Throw (ErrDoesNotExist name)
  | Some p => Ret p
  end.

Definition getPluginData (name : string) : Async PluginData.t :=
  pluginData <- await (repo_findOne (mkFilter name (appName E) None)) ;;
  match pluginData with
  | None => Throw (ErrNotExists name)
  | Some d => Ret d
  end.

(** [load(pluginInstance, options = {})]; the [options] are only passed
    on to the event handlers. *)
Definition load (pluginInstance : Plugin.t) : Async unit :=
  if negb (truthy (Plugin.enabled pluginInstance)) then Ret tt
  else
    await (emitAsync (BeforeLoadPlugin pluginInstance)) ;;
    await (hook pluginInstance HLoad) ;;
    await (emitAsync (AfterLoadPlugin pluginInstance)).

(** The bound of the loop is one more than the number of instances at
    its start: [load] registers nothing, so the iterator is exhausted
    before the bound is. *)
Definition loadAll : Async unit :=
  n <- gets (fun w => List.length (plugins w)) ;;
  forAwaitValues (S n) 0 (fun pluginInstance => await (load pluginInstance)).

(** The loop of [enable] over [requiredPlugins]. *)
Fixpoint checkRequired (name : string) (requiredPlugins : list string)
  : Async unit :=
  match requiredPlugins with
  | [] => Ret tt
  | requiredPluginName :: rest =>
      requiredPlugin <-
        gets (fun w => JsMap.get (KName requiredPluginName) (plugins w)) ;;
      match requiredPlugin with
      | None => Throw (TypeErrorUndefined "enabled")
      | Some p =>
          if negb (truthy (Plugin.enabled p))
          then Throw (ErrNeedEnabled name requiredPluginName)
          else checkRequired name rest
      end
  end.

(** [{ enabled: true }] and [{ enabled: false }]. *)
Definition enableValues : Values := mkValues None None None (Some true).
Definition disableValues : Values := mkValues None None None (Some false).

Definition enable (name : string) : Async unit :=
  pluginInstance <- getPluginInstance name ;;
  checkRequired name (requiredPlugins E pluginInstance) ;;
  await (repo_update (mkFilter name (appName E) None) enableValues) ;;
  await (hook pluginInstance HInstall) ;;
  await (hook pluginInstance HAfterEnable) ;;
  await (emitAsync (AfterEnablePlugin name)) ;;
  await (load pluginInstance).

Definition disable (name : string) : Async unit :=
  pluginInstance <- getPluginInstance name ;;
  if truthy (Plugin.builtIn pluginInstance)
  then Throw (ErrBuiltInDisable name)
  else
    await (repo_update (mkFilter name (appName E) (Some false))
             disableValues) ;;
    await (hook pluginInstance HAfterDisable) ;;
    await (emitAsync (AfterDisablePlugin name)).

(** [removePluginPackage(name)]. *)
Definition removePackage (name : string) : Async unit :=
  emit (EvRemovePackage name) ;;
  if removePluginPackage E name then Ret tt else Throw (ErrResolver name).

Definition remove (name : string) : Async unit :=
  pluginInstance <- getPluginInstance name ;;
  if truthy (Plugin.builtIn pluginInstance)
  then Throw (ErrBuiltInRemove name)
  else
    await (hook pluginInstance HRemove) ;;
    await (repo_destroy (mkFilter name (appName E) (Some false))) ;;
    modify (fun w => setPlugins (JsMap.delete (KName name) (plugins w)) w) ;;
    await (removePackage name).

(** [addOrUpdatePluginByNpm({name, registry, version})] yields
    [{ version }]. *)
Definition npm (name : string) (registry version : option string)
  : Async (option string) :=
  emit (EvNpm name registry version) ;;
  match addOrUpdatePluginByNpm E name registry version with
  | Some v => Ret v
  | None => Throw (ErrResolver name)
  end.

(** The [data] of [addByNpm]: [{ name, registry, builtIn, isOfficial }]. *)
Record NpmData : Type := mkNpmData {
  n_name : string;
  n_registry : option string;
  n_builtIn : option bool;
  n_isOfficial : option bool
}.

Definition addByNpm (data : NpmData) : Async PluginData.t :=
  let name := n_name data in
  let builtIn := n_builtIn data in
  has <- gets (fun w => JsMap.has (KName name) (plugins w)) ;;
  if (has : bool) then Throw (ErrNameAlreadyExists name)
  else
    res <- await (repo_create
             (PluginData.mk (Some name) None (Some (appName E))
                (n_registry data) None None (Some false)
                (n_isOfficial data) (Some false) builtIn)) ;;
    version <- await (npm name (n_registry data) None) ;;
    await (repo_update (mkFilter name (appName E) None)
             (mkValues version (Some (getClientStaticUrl E name))
                (Some true) None)) ;;
    instance <- await (setDatabasePlugin (pick (Some name) (Some false) builtIn)) ;;
    await (hook instance HAfterAdd) ;;
    Ret res.

Definition upgradeByNpm (name : string) : Async unit :=
  pluginData <- await (getPluginData name) ;;
  latestVersion <-
    await (match getNewVersion E pluginData with
           | Some v => Ret v
           | None => Throw (ErrResolver name)
           end) ;;
  (if truthy_str latestVersion
   then await (npm name (PluginData.registry pluginData) latestVersion) ;;
        Ret tt
   else Ret tt) ;;
  await (repo_update (mkFilter name (appName E) None)
           (mkValues latestVersion None None None)) ;;
  instance <- await (setDatabasePlugin pluginData) ;;
  await (hook instance HAfterAdd) ;;
  if truthy (PluginData.enabled pluginData)
  then await (hook instance HLoad)
  else Ret tt.

(** The [data] of [addByLocalPath]: [{ zipUrl, builtIn, isOfficial }],
    the two flags defaulting to [false]. *)
Record LocalData : Type := mkLocalData {
  l_zipUrl : option string;
  l_builtIn : option bool;
  l_isOfficial : option bool
}.

Definition noLocalData : LocalData := mkLocalData None None None.

(** The default [= false] of a destructured flag. *)
Definition orFalse (b : option bool) : option bool :=
  match b with Some _ => b | None => Some false end.

Definition addByLocalPath (localPath : string) (data : LocalData)
  : Async PluginData.t :=
  let builtIn := orFalse (l_builtIn data) in
  let isOfficial := orFalse (l_isOfficial data) in
  match getPackageJsonByLocalPath E localPath with
  | None => Throw (ErrResolver localPath)
  | Some (name, version) =>
      has <- gets (fun w => JsMap.has (KName name) (plugins w)) ;;
      if (has : bool) then Throw (ErrAlreadyExists name)
      else
        res <- await (repo_create
                 (PluginData.mk (Some name) version (Some (appName E))
                    None (Some (getClientStaticUrl E name)) (l_zipUrl data)
                    (Some false) isOfficial (Some true) builtIn)) ;;
        instance <-
          await (setDatabasePlugin (pick (Some name) (Some false) builtIn)) ;;
        await (hook instance HAfterAdd) ;;
        Ret res
  end.

(** [Promise.all(items.map(getExtraPluginInfo))]: the calls do not act
    on the world; the result is an array of [{...item, ...extraInfo}]. *)
Fixpoint withExtraInfo (items : list PluginData.t)
  : Async (list (PluginData.t * ExtraInfo)) :=
  match items with
  | [] => Ret []
  | item :: rest =>
      match getExtraPluginInfo E item with
      | None => Throw (ErrExtraInfo (PluginData.name item))
      | Some extraInfo =>
          r <- withExtraInfo rest ;;
          Ret ((item, extraInfo) :: r)
      end
  end.

(** [list()]. *)
Definition list_ : Async (list (PluginData.t * ExtraInfo)) :=
  pluginData <- await (repo_list (appName E)) ;;
  await (withExtraInfo pluginData).


(** *** Bootstrap: the [beforeLoad] handler of the constructor *)

(** [checkPluginPackage(pluginData)]. *)
Definition checkPackage (pluginData : PluginData.t) : Async unit :=
  if checkPluginPackage E pluginData then Ret tt
  else Throw (ErrCheckPackage (PluginData.name pluginData)).

(** [this.setDatabasePlugin(pluginData)] is called without [await]: its
    promise is dropped, and the loop goes on to [checkPluginPackage]. *)
Definition initDatabasePlugins : Async unit :=
  pluginList <- await (repo_list (appName E)) ;;
  forAwaitOf pluginList (fun pluginData =>
    Fork (setDatabasePlugin pluginData ;; Ret tt)
      (await (checkPackage pluginData))).

(** The [options] of the [beforeLoad] event: [{ method, reload }]. *)
Record LoadOptions : Type := mkLoadOptions {
  o_method : option string;
  o_reload : bool
}.

(** [l.includes(s)]. *)
Definition includes (l : list string) (s : option string) : bool :=
  existsb (opt_eqb s) l.

(** [this.collection.sync()] creates the table when it is missing. *)
Definition collectionSync : Async unit :=
  modify (fun w => record EvSync (setTableExists true w)).

(** [this.initDatabasePlugins()] is called and its promise stored in
    [initDatabasePluginsPromise], not awaited; the handler goes on to
    the loop over [this.plugins.values()]. The bound of that loop counts
    the instances present and the rows that can still be registered. *)
Definition beforeLoadHandler (options : option LoadOptions) : Async unit :=
  let method := match options with Some o => o_method o | None => None end in
  let reload := match options with Some o => o_reload o | None => false end in
  (if truthy_str method && includes ["install"; "upgrade"] method
   then await collectionSync
   else Ret tt) ;;
  exists_ <- await (gets tableExists) ;;
  if negb exists_ then Ret tt
  else if negb (opt_eqb method "install") || reload then
    Fork initDatabasePlugins
      (n <- gets (fun w => List.length (plugins w) + List.length (store w)) ;;
       forAwaitValues (S n) 0 (fun plugin => await (hook plugin HBeforeLoad)))
  else Ret tt.

(** *** The command line and the control channel *)

(** [createByCli]: the plugin generator runs, then [yarn install]. *)
Definition createByCli (name : string) : Async unit :=
  emit (EvGenerate name) ;;
  if generate E name then Await (Await (Ret tt)) else Throw (ErrResolver name).

(** [addByCli]: [path.join(getPluginPackagesPath(), name)] must exist. *)
Definition addByCli (name : string) : Async PluginData.t :=
  let localPackage := pathJoin E (getPluginPackagesPath E) name in
  if negb (existsSync E localPackage) then Throw (ErrCliNotExists name)
  else
    await (emit (EvLocalPackage localPackage) ;;
           if addByLocalPackage E localPackage then Ret tt
           else Throw (ErrResolver localPackage)) ;;
    addByLocalPath localPackage noLocalData.

Definition removeByCli : string -> Async unit := remove.
Definition enableByCli : string -> Async unit := enable.
Definition disableByCli : string -> Async unit := disable.

(** [this[`${method}ByCli`]]: [None] when the manager has no such
    member. *)
Definition byCli (method : string) : option (string -> Task) :=
  if String.eqb method "create" then Some createByCli
  else if String.eqb method "add" then Some (fun n => addByCli n ;; Ret tt)
  else if String.eqb method "remove" then Some removeByCli
  else if String.eqb method "enable" then Some enableByCli
  else if String.eqb method "disable" then Some disableByCli
  else None.

(** [string | string[]]. *)
Inductive Names : Type :=
| One (name : string)
| Many (names : list string).

(** [Array.isArray(name) ? name : [name]]. *)
Definition pluginNames (name : Names) : list string :=
  match name with
  | One n => [n]
  | Many l => l
  end.

(** [Promise.all(pluginNames.map((name) => this[`${method}ByCli`](name)))]:
    every call is started, in order, before any of them is resumed; a
    call that rejects does not stop the others. The outcome is [Error]
    when the member is missing, which [map] finds out at the first name,
    and [Ok] when the calls have been started. *)
Definition doCliCommand (method : string) (name : Names) (P : Pool)
  : Outcome unit * Pool :=
  match pluginNames name with
  | [] => (Ok tt, P)
  | names =>
      match byCli method with
      | None => (Error (TypeErrorNotAFunction (method ++ "ByCli")%string), P)
      | Some f => (Ok tt, fold_left (fun P n => spawn (f n) P) names P)
      end
  end.

(** The control message [{ method, plugins }]. *)
Record Message : Type := mkMessage {
  method : string;
  plugins_ : Names
}.

#[local] Set Warnings "-register-all".
Inductive JSON : Type :=
| JString (s : string)
| JArray (l : list JSON)
| JObject (fields : list (string * JSON)).
#[local] Set Warnings "register-all".

(** [JSON.stringify(data)]; the text is carried as the value it
    denotes. *)
Definition stringify (data : Message) : JSON :=
  JObject
    [("method", JString (method data));
     ("plugins",
      match plugins_ data with
      | One n => JString n
      | Many l => JArray (map JString l)
      end)].

Fixpoint field (k : string) (fields : list (string * JSON)) : option JSON :=
  match fields with
  | [] => None
  | (k', v) :: r => if String.eqb k k' then Some v else field k r
  end.

Fixpoint strings (l : list JSON) : option (list string) :=
  match l with
  | [] => Some []
  | JString s :: r =>
      match strings r with Some r' => Some (s :: r') | None => None end
  | _ => None
  end.

(** [const { method, plugins } = JSON.parse(data.toString())], for the
    payloads that have the shape of a control message. *)
Definition parse (data : JSON) : option Message :=
  match data with
  | JObject fields =>
      match field "method" fields, field "plugins" fields with
      | Some (JString m), Some (JString n) => Some (mkMessage m (One n))
      | Some (JString m), Some (JArray l) =>
          match strings l with
          | Some names => Some (mkMessage m (Many names))
          | None => None
          end
      | _, _ => None
      end
  | _ => None
  end.

(** The socket of [clientWrite]: whether the [connect] callback fires
    and whether the ['error'] handler fires. *)
Record Socket : Type := mkSocket {
  connects : bool;
  errors : bool
}.

(** [clientWrite]: the pool of the calling process afterwards, and what
    was written to the socket. The [try]/[catch] around [doCliCommand]
    only logs. *)
Definition clientWrite (data : Message) (sock : Socket) (P : Pool)
  : Pool * list JSON :=
  if String.eqb (method data) "create"
  then (snd (doCliCommand (method data) (plugins_ data) P), [])
  else
    ((if errors sock
      then snd (doCliCommand (method data) (plugins_ data) P)
      else P),
     (if connects sock then [stringify data] else [])).

(** The ['data'] handler that [listen] installs on every connection. *)
Definition onData (data : JSON) (P : Pool) : Pool :=
  match parse data with
  | Some m => snd (doCliCommand (method m) (plugins_ m) P)
  | None => P
  end.

End Manager.

(* ------------------------------------------------------------------ *)
(** ** Vocabulary of the properties *)

(** Appending to the trace. *)
Definition extend (evs : list Event) (w : World) : World :=
  mkWorld (plugins w) (store w) (tableExists w) (trace w ++ evs).

(** ** Sequences of fallible steps *)

(** The hook calls and event emissions of a lifecycle method, as the
    table of transitions lists them: performed in order, the first one
    that throws ends the sequence. *)
Inductive Step : Type :=
| SHook (p : Plugin.t) (h : Hook)
| SEmit (ev : AppEvent).

Definition stepEvent (s : Step) : Event :=
  match s with
  | SHook p h => EvHook p h
  | SEmit ev => EvEmit ev
  end.

Definition stepError (s : Step) : Err :=
  match s with
  | SHook p h => ErrHook p h
  | SEmit ev => ErrEvent ev
  end.

Section Steps.

Variable E : Env.

Definition stepThrows (s : Step) : bool :=
  match s with
  | SHook p h => hookThrows E p h
  | SEmit ev => emitThrows E ev
  end.

(** The events of the steps that are reached. *)
Fixpoint performed (l : list Step) : list Event :=
  match l with
  | [] => []
  | s :: r => stepEvent s :: if stepThrows s then [] else performed r
  end.

(** The error of the first step that throws. *)
Fixpoint failure (l : list Step) : option Err :=
  match l with
  | [] => None
  | s :: r => if stepThrows s then Some (stepError s) else failure r
  end.

Definition outcomeOf (o : option Err) : Outcome unit :=
  match o with
  | None => Ok tt
  | Some e => Error e
  end.

Definition perform (s : Step) : Async unit :=
  match s with
  | SHook p h => hook E p h
  | SEmit ev => emitAsync E ev
  end.

End Steps.

(** The name maps to an instance whose [enabled] is truthy. *)
Definition mapsToEnabled (w : World) (r : string) : bool :=
  match JsMap.get (KName r) (plugins w) with
  | Some q => truthy (Plugin.enabled q)
  | None => false
  end.

(** What the loop over the required plugins decides, read off the
    registry. *)
Fixpoint requiredCheck (m : JsMap.t) (name : string) (l : list string)
  : Outcome unit :=
  match l with
  | [] => Ok tt
  | r :: rest =>
      match JsMap.get (KName r) m with
      | None => Error (TypeErrorUndefined "enabled")
      | Some p =>
          if truthy (Plugin.enabled p) then requiredCheck m name rest
          else Error (ErrNeedEnabled name r)
      end
  end.

(** The steps of [load] on an instance. *)
Definition loadSteps (p : Plugin.t) : list Step :=
  if truthy (Plugin.enabled p)
  then [SEmit (BeforeLoadPlugin p); SHook p HLoad; SEmit (AfterLoadPlugin p)]
  else [].

(** The steps of [enable] after the record is updated. *)
Definition enableSteps (name : string) (p : Plugin.t) : list Step :=
  [SHook p HInstall; SHook p HAfterEnable; SEmit (AfterEnablePlugin name)]
    ++ loadSteps p.

(** The steps of [upgradeByNpm] on the new instance, after the record
    is updated. *)
Definition upgradeSteps (pluginData : PluginData.t) (instance : Plugin.t)
  : list Step :=
  SHook instance HAfterAdd
    :: if truthy (PluginData.enabled pluginData)
       then [SHook instance HLoad]
       else [].

(** The row that [addByNpm] creates. *)
Definition createdByNpm (E : Env) (data : NpmData) : PluginData.t :=
  PluginData.mk (Some (n_name data)) None (Some (appName E))
    (n_registry data) None None (Some false) (n_isOfficial data)
    (Some false) (n_builtIn data).

(** The values that [addByNpm] writes once the package is there. *)
Definition installedValues (E : Env) (name : string) (version : option string)
  : Values :=
  mkValues version (Some (getClientStaticUrl E name)) (Some true) None.

(** The calls that a command starts in the pool of a process: the
    method once on each plugin name, in order. *)
Definition started (f : string -> Task) (names : Names) (P : Pool) : Pool :=
  fold_left (fun P n => spawn (f n) P) (pluginNames names) P.

(** The world of a server that received [{ method: m, plugins: name }]
    while idle and whose pending calls went on for [k] turns. *)
Definition served (E : Env) (m name : string) (w : World) (k : nat) : World :=
  world (exec (repeat 0 k)
           (onData E (stringify (mkMessage m (One name))) (idle w))).

(** The [options] of a start that is neither an install nor an upgrade. *)
Definition startOptions : option LoadOptions :=
  Some (mkLoadOptions (Some "start") false).

(** The handler has started: it waits for [collectionExistsInDb]. *)
Definition booting (E : Env) (w : World) : Pool :=
  spawn (beforeLoadHandler E startOptions) (idle w).

(** No [beforeLoad] hook is among the events. *)
Definition silent (evs : list Event) : Prop :=
  forall p, ~ In (EvHook p HBeforeLoad) evs.

(** A call that never records a [beforeLoad] hook, whatever it reads. *)
Fixpoint Silent {A : Type} (t : Async A) : Prop :=
  match t with
  | Ret _ => True
  | Throw _ => True
  | Do op k =>
      (forall w, silent (trace w) -> silent (trace (snd (op w))))
      /\ (forall x, Silent (k x))
  | Await k => Silent k
  | Fork c k => Silent c /\ Silent k
  end.

(** Every pending call is silent, and nothing was heard so far. *)
Definition SilentPool (P : Pool) : Prop :=
  silent (trace (world P)) /\ Forall (fun t => Silent t) (tasks P).

(* ------------------------------------------------------------------ *)
(** ** Scenarios *)

(** [path.join] of Node on a POSIX host, for two arguments: the
    non-empty arguments are joined with [/] and the result is
    normalised. Empty segments and [.] are dropped, [..] takes the
    segment before it away (and is kept in front of a relative path that
    has none left), a trailing [/] is kept, and an empty result is [.],
    or [/] for an absolute path. *)
Module Path.

Import Ascii.

Definition slash : ascii := "/"%char.

(** The segments between the slashes; [cur] is the segment being read. *)
Fixpoint segments (cur : string) (s : string) : list string :=
  match s with
  | EmptyString => [cur]
  | String c r =>
      if Ascii.eqb c slash then cur :: segments EmptyString r
      else segments (cur ++ String c EmptyString) r
  end.

(** One segment on the stack of the segments kept so far, last first. *)
Definition push (allowAboveRoot : bool) (stack : list string) (seg : string)
  : list string :=
  if String.eqb seg "" || String.eqb seg "." then stack
  else if String.eqb seg ".." then
    match stack with
    | top :: rest =>
        if String.eqb top ".."
        then (if allowAboveRoot then seg :: stack else stack)
        else rest
    | [] => if allowAboveRoot then [seg] else []
    end
  else seg :: stack.

Definition startsWithSlash (s : string) : bool :=
  match s with
  | String c _ => Ascii.eqb c slash
  | EmptyString => false
  end.

Fixpoint endsWithSlash (s : string) : bool :=
  match s with
  | EmptyString => false
  | String c r =>
      match r with
      | EmptyString => Ascii.eqb c slash
      | _ => endsWithSlash r
      end
  end.

Definition normalize (path : string) : string :=
  if String.eqb path "" then "."
  else
    let isAbsolute := startsWithSlash path in
    let trailingSeparator := endsWithSlash path in
    let body :=
      String.concat "/"
        (rev (fold_left (push (negb isAbsolute)) (segments "" path) [])) in
    if String.eqb body "" then
      if isAbsolute then "/" else if trailingSeparator then "./" else "."
    else
      ((if isAbsolute then "/" else "") ++ body
       ++ (if trailingSeparator then "/" else ""))%string.

Definition join (a b : string) : string :=
  if String.eqb a "" then (if String.eqb b "" then "." else normalize b)
  else if String.eqb b "" then normalize a
  else normalize (a ++ "/" ++ b)%string.

End Path.

(** The application ["main"]: every package exports a class named after
    it, every local path holds the package ["foo"], paths are joined as
    on a POSIX host, no event handler throws. What the instances
    require, which hooks throw and whether the registry download
    succeeds is left open. *)
Definition scenario (required : Plugin.t -> list string)
  (throws : Plugin.t -> Hook -> bool) (download : bool) : Env :=
  mkEnv "main" (fun s => Some (Class s)) required throws (fun _ => false)
    (fun _ _ _ => if download then Some (Some "1.0.0") else None)
    (fun _ => Some None)
    (fun _ => Some ("foo", Some "0.1.0"))
    (fun n => "/static/plugins/" ++ n)%string
    (fun _ => Some []) (fun _ => true) (fun _ => true) "/plugins" Path.join
    (fun _ => true) (fun _ => true) (fun _ => true).

(** Nothing is required and nothing fails. *)
Definition calm : Env := scenario (fun _ => []) (fun _ _ => false) true.

(** The registry is unreachable: [addOrUpdatePluginByNpm] throws. *)
Definition offline : Env := scenario (fun _ => []) (fun _ _ => false) false.

(** The class ["a"] requires the plugin ["ghost"]. *)
Definition needsGhost : Env :=
  scenario (fun p => if String.eqb (Plugin.cls p) "a" then ["ghost"] else [])
    (fun _ _ => false) true.

(** As [calm], with a newer version of every package in the registry. *)
Definition newerAvailable : Env :=
  mkEnv "main" (fun s => Some (Class s)) (fun _ => []) (fun _ _ => false)
    (fun _ => false) (fun _ _ v => Some v) (fun _ => Some (Some "2.0.0"))
    (fun _ => Some ("foo", Some "0.1.0"))
    (fun n => "/static/plugins/" ++ n)%string
    (fun _ => Some []) (fun _ => true) (fun _ => true) "/plugins" Path.join
    (fun _ => true) (fun _ => true) (fun _ => true).

(** A fresh application: no instance, no row, the table in place. *)
Definition emptyWorld : World := mkWorld [] [] true [].

(** An instance of the class [c] registered under its own name. *)
Definition instanceOf (c : string) (enabled builtIn : bool) : Plugin.t :=
  Plugin.mk c (Some c) (Some enabled) (Some builtIn).

(** A row of the application ["main"]. *)
Definition rowOf (n : string) (enabled builtIn : bool) : PluginData.t :=
  PluginData.mk (Some n) (Some "0.1.0") (Some "main") None None None
    (Some enabled) (Some false) (Some true) (Some builtIn).

(** Two descriptions of the same world differ at most in how the trace
    is bracketed. *)
Ltac same_world :=
  simpl; unfold extend, record, setStore, setPlugins; simpl;
  rewrite <- ?app_assoc; simpl; reflexivity.

(* ------------------------------------------------------------------ *)
(** ** Vocabulary of the further properties *)

(** The steps of [disable] after the record is updated. *)
Definition disableSteps (name : string) (p : Plugin.t) : list Step :=
  [SHook p HAfterDisable; SEmit (AfterDisablePlugin name)].

(** The filter of [disable] and [remove]: [{ name, builtIn: false, appName }]. *)
Definition notBuiltIn (E : Env) (name : string) : Filter :=
  mkFilter name (appName E) (Some false).

(** The instances whose [load] hook has been called, oldest first. *)
Definition loadedBy (evs : list Event) : list Plugin.t :=
  flat_map (fun e => match e with EvHook p HLoad => [p] | _ => [] end) evs.

(** The instances that [load] does not skip. *)
Definition enabledInstances (m : JsMap.t) : list Plugin.t :=
  filter (fun p => truthy (Plugin.enabled p)) (JsMap.values m).

(** The keys of a [Map] are pairwise distinct; a registry that was built
    by [set] and [delete] from the empty one has this shape. *)
Definition uniqueKeys (m : JsMap.t) : Prop := NoDup (map fst m).

(** The row that [addByLocalPath] creates. *)
Definition createdByLocalPath (E : Env) (name : string)
  (version : option string) (data : LocalData) : PluginData.t :=
  PluginData.mk (Some name) version (Some (appName E)) None
    (Some (getClientStaticUrl E name)) (l_zipUrl data) (Some false)
    (orFalse (l_isOfficial data)) (Some true) (orFalse (l_builtIn data)).

(** No package exports a class; otherwise as [calm]. *)
Definition noClass : Env :=
  mkEnv "main" (fun _ => Some NotAFunction) (fun _ => []) (fun _ _ => false)
    (fun _ => false) (fun _ _ _ => Some (Some "1.0.0")) (fun _ => Some None)
    (fun _ => Some ("foo", Some "0.1.0"))
    (fun n => "/static/plugins/" ++ n)%string
    (fun _ => Some []) (fun _ => true) (fun _ => true) "/plugins" Path.join
    (fun _ => true) (fun _ => true) (fun _ => true).

(** ** Invariants of the shared world *)

(** A call keeps [Inv] when every synchronous action it performs on a
    world in which [Inv] holds leaves a world in which [Inv] holds, and
    when the calls it forks do the same. Other calls may run while it is
    suspended: [Inv] is all it relies on when it goes on. *)
Fixpoint Keeps {A : Type} (Inv : World -> Prop) (t : Async A) : Prop :=
  match t with
  | Ret _ => True
  | Throw _ => True
  | Do op k =>
      forall w, Inv w -> Inv (snd (op w)) /\ Keeps Inv (k (fst (op w)))
  | Await k => Keeps Inv k
  | Fork c k => Keeps Inv c /\ Keeps Inv k
  end.

(** [Inv] holds now and every pending call keeps it. *)
Definition KeepsPool (Inv : World -> Prop) (P : Pool) : Prop :=
  Inv (world P) /\ Forall (fun t => Keeps Inv t) (tasks P).

(** Every instance sits under the key that [setPluginInstance] computes
    for it. *)
Definition keyed (m : JsMap.t) : Prop :=
  forall k p, In (k, p) m -> k = registryKey (Plugin.name p) (Plugin.cls p).

Definition wellKeyed (w : World) : Prop :=
  uniqueKeys (plugins w) /\ keyed (plugins w).

(** The store has a built-in row of the plugin. *)
Definition hasBuiltInRow (name : string) (w : World) : Prop :=
  exists x, In x (store w)
            /\ PluginData.name x = Some name
            /\ truthy (PluginData.builtIn x) = true.

(** What happens in the process that listens on the control socket: a
    payload arrives on a connection, or a pending call goes on. *)
Inductive Turn : Type :=
| Arrive (data : JSON)
| Resume (i : nat).

Definition turn (E : Env) (P : Pool) (t : Turn) : Pool :=
  match t with
  | Arrive data => onData E data P
  | Resume i => resume i P
  end.

Definition serve (E : Env) (turns : list Turn) (P : Pool) : Pool :=
  fold_left (turn E) turns P.

(** The [options] of a first installation. *)
Definition installOptions : option LoadOptions :=
  Some (mkLoadOptions (Some "install") false).

(** ** Registration from rows and from the configuration *)

(** The registry once [setDatabasePlugin] was called on a row: the
    instance is put under the name of the row when [require] finds a
    class for it; otherwise the call throws and nothing is registered. *)
Definition register (E : Env) (m : JsMap.t) (pd : PluginData.t) : JsMap.t :=
  match PluginData.name pd with
  | None => m
  | Some n =>
      if String.eqb n "" then m
      else match require_ E n with
           | Some (Class c) =>
               JsMap.set (KName n)
                 (Plugin.mk c (Some n) (PluginData.enabled pd)
                    (PluginData.builtIn pd)) m
           | _ => m
           end
  end.

(** The rows that the loop of [initDatabasePlugins] gets to: those up to
    and including the first one whose package check fails. *)
Fixpoint reached (E : Env) (l : list PluginData.t) : list PluginData.t :=
  match l with
  | [] => []
  | pd :: r => pd :: if checkPluginPackage E pd then reached E r else []
  end.

(** The rows of the application, as [list(appName)] returns them. *)
Definition rowsOf (E : Env) (w : World) : list PluginData.t :=
  filter (fun r => opt_eqb (PluginData.appName r) (appName E)) (store w).

(** Plugins that the configuration gives as bare classes. *)
Definition bare (classes : list string) : list (Export * option PluginData.t) :=
  map (fun c => (Class c, None)) classes.

(** The methods that have a [...ByCli] member. *)
Definition cliMethods : list string :=
  ["create"; "add"; "remove"; "enable"; "disable"].

(** The [beforeLoad] hooks of the instances, in the order of the
    registry. *)
Definition beforeLoadSteps (m : JsMap.t) : list Step :=
  map (fun p => SHook p HBeforeLoad) (JsMap.values m).

(* ------------------------------------------------------------------ *)
(** ** The plugin generator

    [createByCli] runs [PluginGenerator] of
    [@nocobase/cli/src/plugin-generator]. Its template context is
    computed from the plugin name by [camelize] and [capitalize]. The
    embedding is for names of ASCII characters: a character stands for
    the UTF-16 code unit of the same number, below 128. *)

Module PluginGenerator.

Import Ascii.

Definition asciiChar (c : ascii) : bool := (nat_of_ascii c <? 128)%nat.

(** [\s] of a regular expression, which is also what [trim] strips:
    tab, line feed, vertical tab, form feed, carriage return, space. *)
Definition isSpace (c : ascii) : bool :=
  let n := nat_of_ascii c in ((9 <=? n) && (n <=? 13) || (n =? 32))%nat.

(** The class [[-_\s]]. *)
Definition isSeparator (c : ascii) : bool :=
  Ascii.eqb c "-" || Ascii.eqb c "_" || isSpace c.

(** [c.toUpperCase()] on one character. *)
Definition toUpperCase (c : ascii) : ascii :=
  let n := nat_of_ascii c in
  if ((97 <=? n) && (n <=? 122))%nat then ascii_of_nat (n - 32) else c.

Fixpoint all (P : ascii -> bool) (s : string) : bool :=
  match s with
  | EmptyString => true
  | String c r => P c && all P r
  end.

Definition asciiOnly (s : string) : bool := all asciiChar s.
Definition noSeparator (s : string) : bool :=
  all (fun c => negb (isSeparator c)) s.

Fixpoint trimStart (s : string) : string :=
  match s with
  | EmptyString => EmptyString
  | String c r => if isSpace c then trimStart r else s
  end.

Fixpoint trimEnd (s : string) : string :=
  match s with
  | EmptyString => EmptyString
  | String c r =>
      match trimEnd r with
      | EmptyString => if isSpace c then EmptyString else String c EmptyString
      | r' => String c r'
      end
  end.

(** [str.trim()]. *)
Definition trim (s : string) : string := trimEnd (trimStart s).

(** [s.replace(/[-_\s]+(.)?/g, (match, c) => c.toUpperCase())], read
    from left to right. A match is a longest run of separators together
    with the character after it, and is replaced by that character in
    upper case. When the run ends the string the group [(.)?] matches
    nothing, [c] is [undefined] and the callback throws a [TypeError]:
    the result is [None]. [afterRun] tells that a run of separators has
    just been read. *)
Fixpoint replaceRuns (afterRun : bool) (s : string) : option string :=
  match s with
  | EmptyString => if afterRun then None else Some EmptyString
  | String c r =>
      if isSeparator c then replaceRuns true r
      else
        match replaceRuns false r with
        | Some r' => Some (String (if afterRun then toUpperCase c else c) r')
        | None => None
        end
  end.

Definition camelize (str : string) : option string :=
  replaceRuns false (trim str).

(** [string.charAt(0).toUpperCase() + string.slice(1)]. *)
Definition capitalize (s : string) : string :=
  match s with
  | EmptyString => EmptyString
  | String c r => String (toUpperCase c) r
  end.

(** The [pascalCaseName] of [getContext]: [capitalize(camelize(name))]. *)
Definition pascalCaseName (name : string) : option string :=
  match camelize name with
  | Some s => Some (capitalize s)
  | None => None
  end.

(** The string ends with a separator. *)
Fixpoint endsWithSeparator (s : string) : bool :=
  match s with
  | EmptyString => false
  | String c r =>
      match r with
      | EmptyString => isSeparator c
      | _ => endsWithSeparator r
      end
  end.

Definition dash : ascii := "-"%char.
Definition underscore : ascii := "_"%char.

(** The last character, if there is one. *)
Fixpoint lastChar (s : string) : option ascii :=
  match s with
  | EmptyString => None
  | String c r =>
      match r with
      | EmptyString => Some c
      | _ => lastChar r
      end
  end.

(** The first character is a lower-case letter. *)
Definition startsLower (s : string) : bool :=
  match s with
  | EmptyString => false
  | String c _ => let n := nat_of_ascii c in ((97 <=? n) && (n <=? 122))%nat
  end.

End PluginGenerator.

(* ================================================================== *)
(** * Properties *)

(** ** Running sequenced calls *)

Lemma run_bind {A B : Type} (m : Async A) (f : A -> Async B) (w : World) :
  run (x <- m ;; f x) w =
  match run m w with
  | (Ok a, w') => run (f a) w'
  | (Error e, w') => (Error e, w')
  end.
Proof.
  revert B f w.
  induction m as [A a | A e | A X op k IH | A k IH | A c _ k IH];
    intros B f w; simpl.
  - reflexivity.
  - reflexivity.
  - destruct (op w) as [x w']. apply IH.
  - apply IH.
  - destruct (segment c w) as [[sc cs] w1]. apply IH.
Qed.

Lemma run_ret {A : Type} (a : A) (w : World) : run (Ret a) w = (Ok a, w).
Proof. reflexivity. Qed.

Lemma run_await {A : Type} (m : Async A) (w : World) :
  run (await m) w = run m w.
Proof.
  unfold await. rewrite run_bind.
  destruct (run m w) as [[a | e] w']; reflexivity.
Qed.

Lemma extend_nil (w : World) : extend [] w = w.
Proof. destruct w; unfold extend; simpl. now rewrite app_nil_r. Qed.

Lemma extend_extend (a b : list Event) (w : World) :
  extend b (extend a w) = extend (a ++ b) w.
Proof. unfold extend; simpl. now rewrite app_assoc. Qed.

(** ** Sequences of fallible steps *)

Section StepProperties.

Variable E : Env.

Lemma run_perform (s : Step) (w : World) :
  run (perform E s) w =
  (if stepThrows E s then Error (stepError s) else Ok tt, extend [stepEvent s] w).
Proof.
  destruct s as [p h | ev]; simpl;
    [destruct (hookThrows E p h) | destruct (emitThrows E ev)]; reflexivity.
Qed.

(** Steps are performed in order, without gaps: what is performed is
    an initial part of the sequence. *)
Lemma performed_prefix (l : list Step) :
  exists n, performed E l = map stepEvent (firstn n l).
Proof.
  induction l as [| s r [n IH]].
  - exists 0. reflexivity.
  - simpl. destruct (stepThrows E s).
    + exists 1. reflexivity.
    + exists (S n). simpl. now rewrite IH.
Qed.

(** Without a failure every step is performed. *)
Lemma performed_all (l : list Step) :
  failure E l = None -> performed E l = map stepEvent l.
Proof.
  induction l as [| s r IH]; simpl; [reflexivity |].
  destruct (stepThrows E s); [discriminate |].
  intros H. now rewrite IH.
Qed.

(** After a step that throws nothing more is performed. *)
Lemma performed_stops (a b : list Step) (s : Step) :
  stepThrows E s = true -> failure E a = None ->
  performed E (a ++ s :: b) = map stepEvent a ++ [stepEvent s]
  /\ failure E (a ++ s :: b) = Some (stepError s).
Proof.
  intros Hs. induction a as [| x a IH]; simpl.
  - rewrite Hs. auto.
  - destruct (stepThrows E x); [discriminate |].
    intros H. destruct (IH H) as [-> ->]. auto.
Qed.

End StepProperties.

(** ** [enable] *)


Section EnableProperties.

Variable E : Env.

Lemma run_getPluginInstance (name : string) (w : World) :
  run (getPluginInstance name) w =
  (match JsMap.get (KName name) (plugins w) with
   | Some p => Ok p
   | None => Error (ErrDoesNotExist name)
   end, w).
Proof.
  unfold getPluginInstance. simpl.
  destruct (JsMap.get (KName name) (plugins w)); reflexivity.
Qed.

Lemma run_repo_update (f : Filter) (v : Values) (w : World) :
  run (repo_update f v) w =
  (Ok tt, record (EvStore (Update f v))
            (setStore (updateRows f v (store w)) w)).
Proof. reflexivity. Qed.

Lemma run_checkRequired (name : string) (l : list string) (w : World) :
  run (checkRequired name l) w = (requiredCheck (plugins w) name l, w).
Proof.
  induction l as [| r rest IH]; simpl; [reflexivity |].
  destruct (JsMap.get (KName r) (plugins w)) as [p |]; simpl; [| reflexivity].
  destruct (truthy (Plugin.enabled p)); simpl; [exact IH | reflexivity].
Qed.

Lemma requiredCheck_ok (w : World) (name : string) (l : list string) :
  forallb (mapsToEnabled w) l = true ->
  requiredCheck (plugins w) name l = Ok tt.
Proof.
  induction l as [| r rest IH]; simpl; [reflexivity |].
  unfold mapsToEnabled at 1.
  destruct (JsMap.get (KName r) (plugins w)) as [p |]; [| discriminate].
  destruct (truthy (Plugin.enabled p)); [exact IH | discriminate].
Qed.

(** The check throws the error of the manager exactly when the first
    required name that does not map to an enabled instance is
    registered; it never throws it when every name maps to an enabled
    instance. *)
Lemma requiredCheck_need_enabled (w : World) (name : string) (l : list string) (e : Err) :
  requiredCheck (plugins w) name l = Error e ->
  kind e = RequiredPluginNotEnabled ->
  exists r, In r l /\ mapsToEnabled w r = false.
Proof.
  induction l as [| r rest IH]; simpl; [discriminate |].
  intros H K.
  destruct (JsMap.get (KName r) (plugins w)) as [p |] eqn:G.
  - destruct (truthy (Plugin.enabled p)) eqn:T.
    + destruct (IH H K) as [r' [I M]]. exists r'. auto.
    + exists r. split; [now left |]. unfold mapsToEnabled. now rewrite G.
  - exists r. split; [now left |]. unfold mapsToEnabled. now rewrite G.
Qed.

Lemma run_load (p : Plugin.t) (w : World) :
  run (load E p) w =
  (outcomeOf (failure E (loadSteps p)), extend (performed E (loadSteps p)) w).
Proof.
  unfold load, loadSteps. destruct (truthy (Plugin.enabled p)); simpl.
  - destruct (emitThrows E (BeforeLoadPlugin p)); [reflexivity |].
    simpl. destruct (hookThrows E p HLoad); simpl.
    + unfold extend, record; simpl. now rewrite <- app_assoc.
    + destruct (emitThrows E (AfterLoadPlugin p)); simpl;
        unfold extend, record; simpl; now rewrite <- !app_assoc.
  - now rewrite extend_nil.
Qed.

Lemma failure_app (a b : list Step) :
  failure E (a ++ b) =
  match failure E a with Some e => Some e | None => failure E b end.
Proof.
  induction a as [| s a IH]; simpl; [reflexivity |].
  destruct (stepThrows E s); [reflexivity | exact IH].
Qed.

Lemma performed_app (a b : list Step) :
  performed E (a ++ b) =
  performed E a ++
    match failure E a with Some _ => [] | None => performed E b end.
Proof.
  induction a as [| s a IH]; simpl; [reflexivity |].
  destruct (stepThrows E s); [reflexivity | now rewrite IH].
Qed.

(** Updating [enabled] leaves every matching row enabled. *)
Lemma updateRows_enabled (f : Filter) (rows : list PluginData.t) (r : PluginData.t) :
  In r (updateRows f enableValues rows) -> matches f r = true ->
  PluginData.enabled r = Some true.
Proof.
  unfold updateRows. rewrite in_map_iff. intros [x [Hx _]] M.
  destruct (matches f x) eqn:Mx.
  - subst r. reflexivity.
  - subst r. congruence.
Qed.

(** Updating [enabled] changes nothing when the matching rows are
    enabled already. *)
Lemma updateRows_idempotent (f : Filter) (rows : list PluginData.t) :
  (forall r, In r rows -> matches f r = true -> PluginData.enabled r = Some true) ->
  updateRows f enableValues rows = rows.
Proof.
  induction rows as [| x rows IH]; intros H; simpl; [reflexivity |].
  rewrite IH by (intros r I; apply H; now right).
  destruct (matches f x) eqn:Mx; [| reflexivity].
  assert (Hx : PluginData.enabled x = Some true) by (apply H; [now left | exact Mx]).
  destruct x; simpl in *. unfold applyValues; simpl. now rewrite Hx.
Qed.

(** What [enable] does once the instance is found and the check has
    passed. *)
Lemma run_enable (w : World) (name : string) (p : Plugin.t) :
  JsMap.get (KName name) (plugins w) = Some p ->
  forallb (mapsToEnabled w) (requiredPlugins E p) = true ->
  run (enable E name) w =
  (outcomeOf (failure E (enableSteps name p)),
   extend (EvStore (Update (mkFilter name (appName E) None) enableValues)
             :: performed E (enableSteps name p))
     (setStore (updateRows (mkFilter name (appName E) None) enableValues
                  (store w)) w)).
Proof.
  intros G R. unfold enable.
  rewrite run_bind, run_getPluginInstance, G. lazy iota beta.
  rewrite run_bind, run_checkRequired, (requiredCheck_ok w name _ R).
  lazy iota beta.
  rewrite run_bind, run_await, run_repo_update. lazy iota beta.
  change (hook E p HInstall) with (perform E (SHook p HInstall)).
  change (hook E p HAfterEnable) with (perform E (SHook p HAfterEnable)).
  change (emitAsync E (AfterEnablePlugin name))
    with (perform E (SEmit (AfterEnablePlugin name))).
  unfold enableSteps. rewrite failure_app, performed_app.
  repeat (first [rewrite run_bind | rewrite run_await | rewrite run_perform]). simpl stepThrows. simpl failure. simpl performed.
  destruct (hookThrows E p HInstall); [same_world |].
  repeat (first [rewrite run_bind | rewrite run_await | rewrite run_perform]). simpl stepThrows.
  destruct (hookThrows E p HAfterEnable); [same_world |].
  repeat (first [rewrite run_bind | rewrite run_await | rewrite run_perform]). simpl stepThrows.
  destruct (emitThrows E (AfterEnablePlugin name)); [same_world |].
  rewrite run_load.
  destruct (failure E (loadSteps p)); same_world.
Qed.

(** A failed check leaves the world as it was: the record store is not
    touched and no hook runs. *)
Lemma enable_check_fails (w : World) (name : string) (p : Plugin.t) (e : Err) :
  JsMap.get (KName name) (plugins w) = Some p ->
  requiredCheck (plugins w) name (requiredPlugins E p) = Error e ->
  run (enable E name) w = (Error e, w).
Proof.
  intros G R. unfold enable.
  rewrite run_bind, run_getPluginInstance, G. lazy iota beta.
  now rewrite run_bind, run_checkRequired, R.
Qed.

(** When [enable] fails with the manager's own error about a required
    plugin, some required name does not map to an enabled instance, and
    nothing has been done. *)
Lemma enable_need_enabled_sound (w : World) (name : string) (p : Plugin.t) (e : Err) :
  JsMap.get (KName name) (plugins w) = Some p ->
  fst (run (enable E name) w) = Error e ->
  kind e = RequiredPluginNotEnabled ->
  (exists r, In r (requiredPlugins E p) /\ mapsToEnabled w r = false)
  /\ snd (run (enable E name) w) = w.
Proof.
  intros G F K.
  destruct (requiredCheck (plugins w) name (requiredPlugins E p)) as [[] | e'] eqn:R.
  - exfalso.
    assert (A : forallb (mapsToEnabled w) (requiredPlugins E p) = true).
    { clear F. revert R. induction (requiredPlugins E p) as [| r l IH]; simpl; [reflexivity |].
      unfold mapsToEnabled at 1.
      destruct (JsMap.get (KName r) (plugins w)) as [q |]; [| discriminate].
      destruct (truthy (Plugin.enabled q)); [exact IH | discriminate]. }
    rewrite (run_enable w name p G A) in F. simpl in F.
    revert F K. unfold enableSteps, loadSteps. simpl.
    destruct (hookThrows E p HInstall); [intros [= <-]; discriminate |].
    destruct (hookThrows E p HAfterEnable); [intros [= <-]; discriminate |].
    destruct (emitThrows E (AfterEnablePlugin name)); [intros [= <-]; discriminate |].
    destruct (truthy (Plugin.enabled p)); simpl; [| discriminate].
    destruct (emitThrows E (BeforeLoadPlugin p)); [intros [= <-]; discriminate |].
    destruct (hookThrows E p HLoad); [intros [= <-]; discriminate |].
    destruct (emitThrows E (AfterLoadPlugin p)); [intros [= <-]; discriminate |].
    discriminate.
  - rewrite (enable_check_fails w name p e' G R) in *. simpl in *.
    injection F as ->. split; [| reflexivity].
    eapply requiredCheck_need_enabled; eauto.
Qed.

(** When every required name is registered, the check fails with the
    manager's error as soon as one of them is not enabled. *)
Lemma requiredCheck_registered (w : World) (name : string) (l : list string) :
  (forall r, In r l -> JsMap.get (KName r) (plugins w) <> None) ->
  (exists r, In r l /\ mapsToEnabled w r = false) ->
  exists r, In r l /\ requiredCheck (plugins w) name l = Error (ErrNeedEnabled name r).
Proof.
  induction l as [| x l IH]; intros Hreg [r [Hin Hr]]; [destruct Hin |].
  simpl. destruct (JsMap.get (KName x) (plugins w)) as [q |] eqn:G.
  - destruct (truthy (Plugin.enabled q)) eqn:T.
    + destruct Hin as [-> | Hin].
      * unfold mapsToEnabled in Hr. rewrite G in Hr. congruence.
      * destruct IH as [r' [I' R']].
        { intros y Hy. apply Hreg. now right. }
        { exists r. now split. }
        exists r'. split; [now right | exact R'].
    + exists x. split; [now left | reflexivity].
  - exfalso. apply (Hreg x); [now left | exact G].
Qed.

(** With every required name registered, [enable] fails with the
    manager's error about a required plugin exactly when one of them is
    not enabled. *)
Lemma enable_need_enabled_iff (w : World) (name : string) (p : Plugin.t) :
  JsMap.get (KName name) (plugins w) = Some p ->
  (forall r, In r (requiredPlugins E p) ->
             JsMap.get (KName r) (plugins w) <> None) ->
  (exists e, fst (run (enable E name) w) = Error e
             /\ kind e = RequiredPluginNotEnabled)
  <-> (exists r, In r (requiredPlugins E p) /\ mapsToEnabled w r = false).
Proof.
  intros G Hreg. split.
  - intros [e [F K]]. exact (proj1 (enable_need_enabled_sound w name p e G F K)).
  - intros H.
    destruct (requiredCheck_registered w name _ Hreg H) as [r [_ R]].
    exists (ErrNeedEnabled name r).
    rewrite (enable_check_fails w name p _ G R). now split.
Qed.

End EnableProperties.

(** ** Claims about [enable] *)

(** C1, as the code has it. For a registered plugin whose required
    plugins all map to enabled instances, [enable] first writes
    [enabled = true] to the record store and then performs, in this
    order, [install], [afterEnable], the event [afterEnablePlugin] and the
    steps of [load]; these are [beforeLoadPlugin], the hook [load] and
    [afterLoadPlugin] when the [enabled] flag the instance was constructed
    with is truthy, and none otherwise. What is performed is an initial
    part of that sequence, ended by the first step that throws; the
    update is kept whatever happens after it, so that when [install]
    throws the rows of the plugin stay enabled. The registry is not
    changed. *)
Theorem enable_persists_then_runs_steps
  (E : Env) (w : World) (name : string) (p : Plugin.t) :
  JsMap.get (KName name) (plugins w) = Some p ->
  forallb (mapsToEnabled w) (requiredPlugins E p) = true ->
  let f := mkFilter name (appName E) None in
  let r := run (enable E name) w in
  fst r = outcomeOf (failure E (enableSteps name p))
  /\ trace (snd r) =
       trace w ++ EvStore (Update f enableValues)
         :: performed E (enableSteps name p)
  /\ (exists n, performed E (enableSteps name p)
                = map stepEvent (firstn n (enableSteps name p)))
  /\ (failure E (enableSteps name p) = None ->
      performed E (enableSteps name p) = map stepEvent (enableSteps name p))
  /\ store (snd r) = updateRows f enableValues (store w)
  /\ (forall x, In x (store (snd r)) -> matches f x = true ->
                PluginData.enabled x = Some true)
  /\ plugins (snd r) = plugins w
  /\ (hookThrows E p HInstall = true ->
      fst r = Error (ErrHook p HInstall)
      /\ trace (snd r) =
           trace w ++ [EvStore (Update f enableValues); EvHook p HInstall]).
Proof.
  intros G R f r. subst r f. rewrite (run_enable E w name p G R). simpl fst. simpl snd.
  repeat split.
  - apply performed_prefix.
  - apply performed_all.
  - intros x. apply updateRows_enabled.
  - unfold enableSteps. simpl. now rewrite H.
  - unfold enableSteps. simpl. now rewrite H.
Qed.

Lemma enable_persists_then_runs_steps_witness :
  let E := calm in
  let p := instanceOf "foo" true false in
  let w := mkWorld [(KName "foo", p)] [rowOf "foo" false false] true [] in
  let r := run (enable E "foo") w in
  fst r = Ok tt
  /\ trace (snd r) =
       [EvStore (Update (mkFilter "foo" "main" None) enableValues);
        EvHook p HInstall; EvHook p HAfterEnable;
        EvEmit (AfterEnablePlugin "foo"); EvEmit (BeforeLoadPlugin p);
        EvHook p HLoad; EvEmit (AfterLoadPlugin p)]
  /\ store (snd r) = [rowOf "foo" true false].
Proof.
  pose proof (enable_persists_then_runs_steps calm
    (mkWorld [(KName "foo", instanceOf "foo" true false)]
       [rowOf "foo" false false] true [])
    "foo" (instanceOf "foo" true false) eq_refl eq_refl) as H.
  cbv zeta in H. destruct H as [H1 [H2 [_ [_ [H3 _]]]]].
  cbv zeta. split; [exact H1 | split; [exact H2 | exact H3]].
Defined.

(** C1, refuted as stated: a plugin that was just added is registered
    with [enabled: false]; [enable] succeeds on it and writes the record,
    and no [load] hook runs. *)
Lemma enable_after_add_runs_no_load_hook :
  let E := calm in
  let w := snd (run (addByLocalPath E "/plugins/foo" noLocalData) emptyWorld) in
  let p := instanceOf "foo" false false in
  let r := run (enable E "foo") w in
  JsMap.get (KName "foo") (plugins w) = Some p
  /\ forallb (mapsToEnabled w) (requiredPlugins E p) = true
  /\ fst r = Ok tt
  /\ (forall q, ~ In (EvHook q HLoad) (trace (snd r))).
Proof.
  cbv zeta. repeat split; try reflexivity.
  intros q H. vm_compute in H.
  repeat (destruct H as [H | H]; [discriminate H |]). exact H.
Qed.

(** C10, as the code has it. [enable] does not look at the [enabled]
    flag. On a plugin whose rows are enabled already, whose required
    plugins are enabled and none of whose steps throws, it succeeds and
    performs its whole sequence again: the update, [install],
    [afterEnable], the event [afterEnablePlugin] and the steps of [load];
    the rows are left as they were. A further call does the same once
    more, so [install] runs once per call. The steps of [load] are
    [beforeLoadPlugin], the hook [load] and [afterLoadPlugin] when the
    [enabled] flag the instance was constructed with is truthy, and none
    otherwise, whatever the rows say. *)
Theorem enable_again_repeats_the_sequence
  (E : Env) (w : World) (name : string) (p : Plugin.t) :
  JsMap.get (KName name) (plugins w) = Some p ->
  (forall x, In x (store w) -> matches (mkFilter name (appName E) None) x = true ->
             PluginData.enabled x = Some true) ->
  forallb (mapsToEnabled w) (requiredPlugins E p) = true ->
  failure E (enableSteps name p) = None ->
  let update := EvStore (Update (mkFilter name (appName E) None) enableValues) in
  let sequence := update :: map stepEvent (enableSteps name p) in
  let r1 := run (enable E name) w in
  let r2 := run (enable E name) (snd r1) in
  fst r1 = Ok tt
  /\ trace (snd r1) = trace w ++ sequence
  /\ store (snd r1) = store w
  /\ plugins (snd r1) = plugins w
  /\ fst r2 = Ok tt
  /\ trace (snd r2) = (trace w ++ sequence) ++ sequence
  /\ store (snd r2) = store w
  /\ (truthy (Plugin.enabled p) = true ->
      sequence =
        [update; EvHook p HInstall; EvHook p HAfterEnable;
         EvEmit (AfterEnablePlugin name); EvEmit (BeforeLoadPlugin p);
         EvHook p HLoad; EvEmit (AfterLoadPlugin p)])
  /\ (truthy (Plugin.enabled p) = false ->
      sequence =
        [update; EvHook p HInstall; EvHook p HAfterEnable;
         EvEmit (AfterEnablePlugin name)]).
Proof.
  intros G S R F update sequence r1 r2.
  assert (P : performed E (enableSteps name p) = tl sequence).
  { now rewrite (performed_all E _ F). }
  assert (U : updateRows (mkFilter name (appName E) None) enableValues (store w)
              = store w) by now apply updateRows_idempotent.
  assert (E1 : r1 = (Ok tt, extend sequence w)).
  { subst r1. rewrite (run_enable E w name p G R), F, P, U.
    destruct w; reflexivity. }
  assert (E2 : r2 = (Ok tt, extend sequence (extend sequence w))).
  { subst r2. rewrite E1. cbn [snd].
    rewrite (run_enable E (extend sequence w) name p G R), F, P.
    simpl store. rewrite U. reflexivity. }
  rewrite E1, E2. cbn [fst snd].
  split; [reflexivity |]. split; [reflexivity |]. split; [reflexivity |].
  split; [reflexivity |]. split; [reflexivity |]. split; [reflexivity |].
  split; [reflexivity |].
  split; intros T; subst sequence; unfold enableSteps, loadSteps; now rewrite T.
Qed.

Lemma enable_again_repeats_the_sequence_witness :
  let E := calm in
  let p := instanceOf "foo" true false in
  let w := mkWorld [(KName "foo", p)] [rowOf "foo" true false] true [] in
  let r1 := run (enable E "foo") w in
  let r2 := run (enable E "foo") (snd r1) in
  fst r1 = Ok tt /\ fst r2 = Ok tt /\ store (snd r2) = store w
  /\ List.length (trace (snd r2)) = 14.
Proof.
  assert (S : forall x,
    In x [rowOf "foo" true false] ->
    matches (mkFilter "foo" (appName calm) None) x = true ->
    PluginData.enabled x = Some true).
  { intros x [<- | []] _. reflexivity. }
  pose proof (enable_again_repeats_the_sequence calm
    (mkWorld [(KName "foo", instanceOf "foo" true false)]
       [rowOf "foo" true false] true [])
    "foo" (instanceOf "foo" true false) eq_refl S eq_refl eq_refl) as H.
  cbv zeta in H. destruct H as [H1 [_ [_ [_ [H2 [H3 [H4 _]]]]]]].
  cbv zeta. split; [exact H1 | split; [exact H2 | split; [exact H4 | now rewrite H3]]].
Defined.

(** C10, refuted as stated: a plugin is added and enabled in the same
    process. Its row then has [enabled = true], but the instance was
    constructed with [enabled: false]. A second [enable] succeeds and
    runs the update, [install], [afterEnable] and the event
    [afterEnablePlugin] again, and nothing of the load: neither
    [beforeLoadPlugin], nor the [load] hook, nor [afterLoadPlugin]. *)
Lemma enable_again_after_add_runs_no_load :
  let E := calm in
  let p := instanceOf "foo" false false in
  let w0 := snd (run (addByLocalPath E "/plugins/foo" noLocalData) emptyWorld) in
  let w := snd (run (enable E "foo") w0) in
  let r := run (enable E "foo") w in
  JsMap.get (KName "foo") (plugins w) = Some p
  /\ map PluginData.enabled (store w) = [Some true]
  /\ forallb (mapsToEnabled w) (requiredPlugins E p) = true
  /\ fst r = Ok tt
  /\ trace (snd r) =
       trace w
       ++ [EvStore (Update (mkFilter "foo" "main" None) enableValues);
           EvHook p HInstall; EvHook p HAfterEnable;
           EvEmit (AfterEnablePlugin "foo")]
  /\ (forall q,
        ~ In (EvEmit (BeforeLoadPlugin q)) (trace (snd r))
        /\ ~ In (EvHook q HLoad) (trace (snd r))
        /\ ~ In (EvEmit (AfterLoadPlugin q)) (trace (snd r))).
Proof.
  cbv zeta. repeat split; try reflexivity;
    intros H; vm_compute in H;
    repeat (destruct H as [H | H]; [discriminate H |]); exact H.
Qed.

(** C2, at the failing input: the plugin ["a"] requires ["ghost"], which
    is not registered. The required name does not map to an enabled
    instance, and [enable] fails; but the failure is the [TypeError] of
    reading [enabled] on [undefined], not the manager's error about a
    required plugin. The world is left as it was. *)
Theorem enable_with_unregistered_requirement :
  let E := needsGhost in
  let a := instanceOf "a" false false in
  let w := mkWorld [(KName "a", a)] [rowOf "a" false false] true [] in
  requiredPlugins E a = ["ghost"]
  /\ mapsToEnabled w "ghost" = false
  /\ run (enable E "a") w = (Error (TypeErrorUndefined "enabled"), w)
  /\ kind (TypeErrorUndefined "enabled") <> RequiredPluginNotEnabled.
Proof.
  cbv zeta. repeat split; try reflexivity. discriminate.
Qed.

(** ** Claims about [disable] and [remove] *)

(** C3, as the code has it. The protection is read off the registered
    instance: when the name maps to an instance whose [builtIn] is
    truthy, [disable] and [remove] fail with the error for built-in
    plugins and leave the world as it was: no hook has run, the record
    store and the registry are unchanged. *)
Theorem builtIn_instance_is_protected
  (E : Env) (w : World) (name : string) (p : Plugin.t) :
  JsMap.get (KName name) (plugins w) = Some p ->
  truthy (Plugin.builtIn p) = true ->
  run (disable E name) w = (Error (ErrBuiltInDisable name), w)
  /\ run (remove E name) w = (Error (ErrBuiltInRemove name), w)
  /\ kind (ErrBuiltInDisable name) = BuiltInProtected
  /\ kind (ErrBuiltInRemove name) = BuiltInProtected.
Proof.
  intros G B. unfold disable, remove.
  rewrite !run_bind, run_getPluginInstance, G. lazy iota beta.
  rewrite B. repeat split.
Qed.

Lemma builtIn_instance_is_protected_witness :
  let p := instanceOf "core" true true in
  let w := mkWorld [(KName "core", p)] [rowOf "core" true true] true [] in
  run (disable calm "core") w = (Error (ErrBuiltInDisable "core"), w)
  /\ run (remove calm "core") w = (Error (ErrBuiltInRemove "core"), w).
Proof.
  pose proof (builtIn_instance_is_protected calm
    (mkWorld [(KName "core", instanceOf "core" true true)]
       [rowOf "core" true true] true [])
    "core" (instanceOf "core" true true) eq_refl eq_refl) as H.
  destruct H as [H1 [H2 _]]. cbv zeta. split; [exact H1 | exact H2].
Defined.

(** C3, refuted as stated: [addByNpm] of a built-in plugin whose download
    fails leaves its row, with [builtIn = true], and no instance. On that
    name [disable] and [remove] fail because the instance is missing, not
    because the plugin is built in. *)
Lemma builtIn_record_without_instance :
  let E := offline in
  let w := snd (run (addByNpm E (mkNpmData "x" None (Some true) None)) emptyWorld) in
  store w =
    [PluginData.mk (Some "x") None (Some "main") None None None
       (Some false) None (Some false) (Some true)]
  /\ plugins w = []
  /\ run (disable E "x") w = (Error (ErrDoesNotExist "x"), w)
  /\ run (remove E "x") w = (Error (ErrDoesNotExist "x"), w)
  /\ kind (ErrDoesNotExist "x") <> BuiltInProtected.
Proof.
  cbv zeta. repeat split; try reflexivity. discriminate.
Qed.

(** On a name that is not registered both methods fail in the same way,
    whatever the record store holds. *)
Lemma unregistered_name_is_not_found (E : Env) (w : World) (name : string) :
  JsMap.get (KName name) (plugins w) = None ->
  run (disable E name) w = (Error (ErrDoesNotExist name), w)
  /\ run (remove E name) w = (Error (ErrDoesNotExist name), w).
Proof.
  intros G. unfold disable, remove.
  rewrite !run_bind, run_getPluginInstance, G. split; reflexivity.
Qed.

(** ** Claims about [loadAll] *)

Lemma skipn_nth_error_some {X : Type} (l : list X) (i : nat) (x : X) :
  nth_error l i = Some x -> skipn i l = x :: skipn (S i) l.
Proof.
  revert i. induction l as [| y l IH]; intros [| i]; simpl; try discriminate.
  - now intros [= ->].
  - intros H. now rewrite (IH i H).
Qed.

Lemma skipn_nth_error_none {X : Type} (l : list X) (i : nat) :
  nth_error l i = None -> skipn i l = [].
Proof.
  intros H. apply skipn_all2. now apply nth_error_None.
Qed.

Section LoadAllProperties.

Variable E : Env.

(** The loop of [loadAll] from the [i]-th instance on, when the bound
    covers the instances that are left. *)
Lemma run_load_loop (bound i : nat) (w : World) :
  i <= List.length (plugins w) ->
  List.length (plugins w) < bound + i ->
  let steps := flat_map loadSteps (skipn i (JsMap.values (plugins w))) in
  run (forAwaitValues bound i (fun p => await (load E p))) w =
  (outcomeOf (failure E steps), extend (performed E steps) w).
Proof.
  revert i w. induction bound as [| b IH]; intros i w Hi Hb; [lia |].
  cbv zeta. cbn [forAwaitValues]. rewrite run_bind. simpl run at 1.
  lazy iota beta. cbn [run].
  destruct (nth_error (JsMap.values (plugins w)) i) as [p |] eqn:N.
  - rewrite (skipn_nth_error_some _ _ _ N). cbn [flat_map].
    rewrite failure_app, performed_app, run_bind, run_await, run_load.
    destruct (failure E (loadSteps p)) as [e |].
    + now rewrite app_nil_r.
    + assert (L : i < List.length (plugins w)).
      { unfold JsMap.values in N.
        rewrite <- (length_map snd). apply nth_error_Some. now rewrite N. }
      simpl outcomeOf. lazy iota beta.
      specialize (IH (S i) (extend (performed E (loadSteps p)) w)).
      cbv zeta in IH. simpl plugins in IH.
      rewrite IH by lia. now rewrite extend_extend.
  - rewrite (skipn_nth_error_none _ _ N). simpl. now rewrite extend_nil.
Qed.

(** [loadAll] goes through the instances in the order of the registry
    and performs the steps of [load] on each, up to the first step that
    throws; it never runs out of its bound. *)
Lemma run_loadAll (w : World) :
  let steps := flat_map loadSteps (JsMap.values (plugins w)) in
  run (loadAll E) w = (outcomeOf (failure E steps), extend (performed E steps) w).
Proof.
  cbv zeta. unfold loadAll. rewrite run_bind. simpl run at 1. lazy iota beta.
  apply (run_load_loop (S (List.length (plugins w))) 0 w); lia.
Qed.

End LoadAllProperties.

(** C5. [loadAll] calls [load] on the instances one after the other, in
    the order in which they were put into the registry: on any world it
    performs the steps of [load] over the values of the registry, up to
    the first step that throws. With three
    enabled instances put in as A, B, C, where the load of A goes through
    and the [load] hook of B throws, the pass fails with the error of B
    after the events of A and of B, and the [load] hook of C is not
    called. *)
Theorem loadAll_stops_at_first_failure
  (E : Env) (w : World) (ka kb kc : Key) (A B C : Plugin.t) :
  key_eqb kb ka = false -> key_eqb kc ka = false -> key_eqb kc kb = false ->
  plugins w = JsMap.set kc C (JsMap.set kb B (JsMap.set ka A [])) ->
  truthy (Plugin.enabled A) = true ->
  truthy (Plugin.enabled B) = true ->
  truthy (Plugin.enabled C) = true ->
  C <> A -> C <> B ->
  failure E (loadSteps A) = None ->
  emitThrows E (BeforeLoadPlugin B) = false ->
  hookThrows E B HLoad = true ->
  let r := run (loadAll E) w in
  let events :=
    [EvEmit (BeforeLoadPlugin A); EvHook A HLoad; EvEmit (AfterLoadPlugin A);
     EvEmit (BeforeLoadPlugin B); EvHook B HLoad] in
  (forall w0,
     run (loadAll E) w0
     = (outcomeOf (failure E (flat_map loadSteps (JsMap.values (plugins w0)))),
        extend (performed E (flat_map loadSteps (JsMap.values (plugins w0))))
          w0))
  /\ JsMap.values (plugins w) = [A; B; C]
  /\ fst r = Error (ErrHook B HLoad)
  /\ trace (snd r) = trace w ++ events
  /\ ~ In (EvHook C HLoad) events.
Proof.
  intros Kba Kca Kcb P TA TB TC NA NB FA EB HB r events.
  split; [intros w0; apply run_loadAll |].
  assert (V : JsMap.values (plugins w) = [A; B; C]).
  { rewrite P. simpl. rewrite Kba. simpl. rewrite Kca, Kcb. reflexivity. }
  split; [exact V |].
  subst r. rewrite run_loadAll. cbv zeta. rewrite V.
  cbn [flat_map]. rewrite failure_app, performed_app, FA.
  rewrite (performed_all E _ FA).
  unfold loadSteps. rewrite TA, TB. simpl. rewrite EB, HB. simpl.
  repeat split.
  intros [H | [H | [H | [H | [H | []]]]]]; try discriminate H.
  - injection H as ->. now apply NA.
  - injection H as ->. now apply NB.
Qed.

Lemma loadAll_stops_at_first_failure_witness :
  let E := scenario (fun _ => [])
             (fun p h => String.eqb (Plugin.cls p) "b") true in
  let A := instanceOf "a" true false in
  let B := instanceOf "b" true false in
  let C := instanceOf "c" true false in
  let w := mkWorld [(KName "a", A); (KName "b", B); (KName "c", C)] [] true [] in
  fst (run (loadAll E) w) = Error (ErrHook B HLoad)
  /\ ~ In (EvHook C HLoad)
       [EvEmit (BeforeLoadPlugin A); EvHook A HLoad; EvEmit (AfterLoadPlugin A);
        EvEmit (BeforeLoadPlugin B); EvHook B HLoad].
Proof.
  assert (NA : instanceOf "c" true false <> instanceOf "a" true false)
    by discriminate.
  assert (NB : instanceOf "c" true false <> instanceOf "b" true false)
    by discriminate.
  pose proof (loadAll_stops_at_first_failure
    (scenario (fun _ => []) (fun p h => String.eqb (Plugin.cls p) "b") true)
    (mkWorld [(KName "a", instanceOf "a" true false);
              (KName "b", instanceOf "b" true false);
              (KName "c", instanceOf "c" true false)] [] true [])
    (KName "a") (KName "b") (KName "c")
    (instanceOf "a" true false) (instanceOf "b" true false)
    (instanceOf "c" true false)
    eq_refl eq_refl eq_refl eq_refl eq_refl eq_refl eq_refl NA NB
    eq_refl eq_refl eq_refl) as H.
  cbv zeta in H. destruct H as [_ [_ [H1 [_ H2]]]].
  cbv zeta. split; [exact H1 | exact H2].
Defined.

(** ** The registry and the repository *)

Lemma key_eqb_refl (k : Key) : key_eqb k k = true.
Proof. destruct k; simpl; apply String.eqb_refl. Qed.

Lemma get_set_same (k : Key) (v : Plugin.t) (m : JsMap.t) :
  JsMap.get k (JsMap.set k v m) = Some v.
Proof.
  induction m as [| [k' v'] m IH]; simpl.
  - now rewrite key_eqb_refl.
  - destruct (key_eqb k k') eqn:K; simpl.
    + now rewrite key_eqb_refl.
    + now rewrite K.
Qed.

Lemma opt_eqb_eq (o : option string) (s : string) :
  opt_eqb o s = true <-> o = Some s.
Proof.
  destruct o as [x |]; simpl.
  - rewrite String.eqb_eq. split; [now intros -> | now intros [= ->]].
  - split; discriminate.
Qed.

Lemma matches_name (f : Filter) (r : PluginData.t) :
  matches f r = true ->
  PluginData.name r = Some (f_name f) /\ PluginData.appName r = Some (f_appName f).
Proof.
  unfold matches. rewrite !andb_true_iff, !opt_eqb_eq. tauto.
Qed.

Section AddProperties.

Variable E : Env.

Lemma run_repo_create (v : PluginData.t) (w : World) :
  run (repo_create v) w =
  if existsb (sameKey v) (store w)
  then (Error (ErrStore (Create v)), w)
  else (Ok v, record (EvStore (Create v)) (setStore (store w ++ [v]) w)).
Proof.
  unfold repo_create. simpl.
  destruct (existsb (sameKey v) (store w)); reflexivity.
Qed.

(** [setDatabasePlugin] on data that carries a name. *)
Lemma run_setDatabasePlugin (pd : PluginData.t) (name : string) (w : World) :
  PluginData.name pd = Some name ->
  run (setDatabasePlugin E pd) w =
  if String.eqb name "" then (Error (ErrRequire (Some name)), w)
  else
    match require_ E name with
    | None => (Error (ErrRequire (Some name)), w)
    | Some NotAFunction => (Error (ErrMustExportClass (Some name)), w)
    | Some (Class c) =>
        let instance :=
          Plugin.mk c (Some name) (PluginData.enabled pd)
            (PluginData.builtIn pd) in
        (Ok instance,
         setPlugins (JsMap.set (KName name) instance (plugins w)) w)
    end.
Proof.
  intros N. unfold setDatabasePlugin, require, setPluginInstance, registryKey.
  rewrite N. simpl.
  destruct (String.eqb name "") eqn:Z; [reflexivity |].
  destruct (require_ E name) as [[c |] |]; reflexivity.
Qed.

(** When [setDatabasePlugin] returns, the instance is in the registry
    under the name of the data. *)
Lemma setDatabasePlugin_registers
  (pd : PluginData.t) (name : string) (w w' : World) (p : Plugin.t) :
  PluginData.name pd = Some name ->
  run (setDatabasePlugin E pd) w = (Ok p, w') ->
  JsMap.get (KName name) (plugins w') = Some p
  /\ store w' = store w /\ trace w' = trace w.
Proof.
  intros N. rewrite (run_setDatabasePlugin pd name w N).
  destruct (String.eqb name ""); [discriminate |].
  destruct (require_ E name) as [[c |] |]; try discriminate.
  cbv zeta. intros [= <- <-]. simpl. now rewrite get_set_same.
Qed.

(** Whether it returns or throws, [setDatabasePlugin] leaves the record
    store and the trace alone. *)
Lemma setDatabasePlugin_keeps_store (pd : PluginData.t) (w : World) :
  store (snd (run (setDatabasePlugin E pd) w)) = store w
  /\ trace (snd (run (setDatabasePlugin E pd) w)) = trace w.
Proof.
  destruct (PluginData.name pd) as [name |] eqn:N.
  - rewrite (run_setDatabasePlugin pd name w N).
    destruct (String.eqb name ""); [now split |].
    destruct (require_ E name) as [[c |] |]; now split.
  - unfold setDatabasePlugin, require. rewrite N. now split.
Qed.

Lemma run_hook (p : Plugin.t) (h : Hook) (w : World) :
  run (hook E p h) w =
  (if hookThrows E p h then Error (ErrHook p h) else Ok tt, extend [EvHook p h] w).
Proof. exact (run_perform E (SHook p h) w). Qed.

End AddProperties.

(** ** Claims about [addByLocalPath] *)

(** C6. When a call of [addByLocalPath] has returned, a second call with
    a path that resolves to the same package name fails with the error
    for a plugin that already exists, and leaves the world as it was: the
    name is looked up in the registry before anything is created, so no
    second row is written, no instance is replaced and no hook runs. *)
Theorem addByLocalPath_twice_is_rejected
  (E : Env) (w w1 : World) (path1 path2 name : string)
  (version1 version2 : option string) (data1 data2 : LocalData)
  (res : PluginData.t) :
  getPackageJsonByLocalPath E path1 = Some (name, version1) ->
  getPackageJsonByLocalPath E path2 = Some (name, version2) ->
  run (addByLocalPath E path1 data1) w = (Ok res, w1) ->
  run (addByLocalPath E path2 data2) w1 = (Error (ErrAlreadyExists name), w1)
  /\ kind (ErrAlreadyExists name) = DuplicatePlugin.
Proof.
  intros P1 P2 R. split; [| reflexivity].
  assert (H : JsMap.has (KName name) (plugins w1) = true).
  { revert R. unfold addByLocalPath. rewrite P1.
    rewrite run_bind. simpl run at 1. lazy iota beta.
    destruct (JsMap.has (KName name) (plugins w)); [discriminate |].
    rewrite run_bind, run_await, run_repo_create.
    destruct (existsb _ (store w)); [discriminate |]. lazy iota beta.
    rewrite run_bind, run_await.
    destruct (run (setDatabasePlugin E _) _) as [[p | e] w'] eqn:S;
      [| discriminate].
    destruct (setDatabasePlugin_registers E
                (pick (Some name) (Some false) (orFalse (l_builtIn data1)))
                name _ _ _ eq_refl S) as [G _].
    rewrite run_bind, run_await, run_hook.
    destruct (hookThrows E p HAfterAdd); [discriminate |].
    simpl. intros [= _ <-]. unfold JsMap.has. simpl. now rewrite G. }
  unfold addByLocalPath. rewrite P2.
  rewrite run_bind. simpl run at 1. lazy iota beta. now rewrite H.
Qed.

Lemma addByLocalPath_twice_is_rejected_witness :
  let w1 := snd (run (addByLocalPath calm "/plugins/foo" noLocalData) emptyWorld) in
  run (addByLocalPath calm "/tmp/copy-of-foo" noLocalData) w1
  = (Error (ErrAlreadyExists "foo"), w1)
  /\ List.length (store w1) = 1.
Proof.
  cbv zeta. split; [| reflexivity].
  exact (proj1 (addByLocalPath_twice_is_rejected calm emptyWorld
    (snd (run (addByLocalPath calm "/plugins/foo" noLocalData) emptyWorld))
    "/plugins/foo" "/tmp/copy-of-foo" "foo" (Some "0.1.0") (Some "0.1.0")
    noLocalData noLocalData
    (PluginData.mk (Some "foo") (Some "0.1.0") (Some "main") None
       (Some "/static/plugins/foo") None (Some false) (Some false)
       (Some true) (Some false))
    eq_refl eq_refl eq_refl)).
Defined.

(** ** Claims about [upgradeByNpm] *)

Lemma run_repo_findOne (f : Filter) (w : World) :
  run (repo_findOne f) w = (Ok (find (matches f) (store w)), w).
Proof. reflexivity. Qed.

(** C7. Without a row for the name and the application, [upgradeByNpm]
    fails with the error for a plugin that does not exist and does
    nothing. With a row, and when the collaborators it calls do not fail,
    it downloads the package only if [getNewVersion] returned a version,
    writes that version to the row, constructs the instance anew from the
    row it had read and puts it into the registry, calls [afterAdd], and
    calls [load] exactly when the row it had read is enabled. *)
Theorem upgradeByNpm_sequence (E : Env) (w : World) (name : string) :
  let f := mkFilter name (appName E) None in
  (find (matches f) (store w) = None ->
   run (upgradeByNpm E name) w = (Error (ErrNotExists name), w)
   /\ kind (ErrNotExists name) = PluginNotFound)
  /\ (forall (pluginData : PluginData.t) (latestVersion : option string)
        (c : string),
      find (matches f) (store w) = Some pluginData ->
      getNewVersion E pluginData = Some latestVersion ->
      (truthy_str latestVersion = true ->
       addOrUpdatePluginByNpm E name (PluginData.registry pluginData)
         latestVersion <> None) ->
      name <> "" ->
      require_ E name = Some (Class c) ->
      let instance :=
        Plugin.mk c (Some name) (PluginData.enabled pluginData)
          (PluginData.builtIn pluginData) in
      let steps := upgradeSteps pluginData instance in
      let values := mkValues latestVersion None None None in
      let r := run (upgradeByNpm E name) w in
      fst r = outcomeOf (failure E steps)
      /\ trace (snd r) =
           trace w
           ++ (if truthy_str latestVersion
               then [EvNpm name (PluginData.registry pluginData) latestVersion]
               else [])
           ++ EvStore (Update f values) :: performed E steps
      /\ store (snd r) = updateRows f values (store w)
      /\ plugins (snd r) = JsMap.set (KName name) instance (plugins w)
      /\ (hookThrows E instance HAfterAdd = false ->
          (In (EvHook instance HLoad) (performed E steps)
           <-> truthy (PluginData.enabled pluginData) = true))).
Proof.
  cbv zeta. split.
  - intros F. unfold upgradeByNpm, getPluginData.
    rewrite run_bind, run_await, run_bind, run_await, run_repo_findOne, F.
    split; reflexivity.
  - intros pd latest c F V D Z Q.
    assert (N : PluginData.name pd = Some name).
    { apply find_some in F. destruct F as [_ M].
      apply matches_name in M. tauto. }
    assert (R : run (upgradeByNpm E name) w =
      (outcomeOf (failure E (upgradeSteps pd
         (Plugin.mk c (Some name) (PluginData.enabled pd) (PluginData.builtIn pd)))),
       extend
         ((if truthy_str latest
           then [EvNpm name (PluginData.registry pd) latest] else [])
          ++ EvStore (Update (mkFilter name (appName E) None)
                        (mkValues latest None None None))
          :: performed E (upgradeSteps pd
               (Plugin.mk c (Some name) (PluginData.enabled pd)
                  (PluginData.builtIn pd))))
         (setPlugins
            (JsMap.set (KName name)
               (Plugin.mk c (Some name) (PluginData.enabled pd)
                  (PluginData.builtIn pd)) (plugins w))
            (setStore
               (updateRows (mkFilter name (appName E) None)
                  (mkValues latest None None None) (store w)) w)))).
    { unfold upgradeByNpm, getPluginData.
      rewrite run_bind, run_await, run_bind, run_await, run_repo_findOne, F.
      rewrite run_ret. lazy iota beta. rewrite run_bind, run_await, V, run_ret.
      lazy iota beta. rewrite run_bind.
      assert (U : forall w0 : World,
        run (if truthy_str latest
             then await (npm E name (PluginData.registry pd) latest) ;; Ret tt
             else Ret tt) w0
        = (Ok tt,
           extend (if truthy_str latest
                   then [EvNpm name (PluginData.registry pd) latest]
                   else []) w0)).
      { intros w0. destruct (truthy_str latest) eqn:T.
        - specialize (D eq_refl). rewrite run_bind, run_await.
          unfold npm. simpl.
          destruct (addOrUpdatePluginByNpm E name (PluginData.registry pd) latest);
            [reflexivity | congruence].
        - simpl. now rewrite extend_nil. }
      rewrite U. lazy iota beta.
      rewrite run_bind, run_await, run_repo_update. lazy iota beta.
      rewrite run_bind, run_await, (run_setDatabasePlugin E pd name _ N).
      apply String.eqb_neq in Z. rewrite Z, Q. cbv zeta. lazy iota beta.
      rewrite run_bind, run_await, run_hook.
      unfold upgradeSteps. simpl.
      destruct (hookThrows E _ HAfterAdd); [same_world |].
      destruct (truthy (PluginData.enabled pd)).
      + rewrite run_await, run_hook. simpl.
        destruct (hookThrows E _ HLoad); same_world.
      + same_world. }
    rewrite R. simpl fst. simpl snd.
    split; [reflexivity |]. split; [reflexivity |].
    split; [reflexivity |]. split; [reflexivity |].
    intros H. unfold upgradeSteps. simpl. rewrite H.
    destruct (truthy (PluginData.enabled pd)); simpl.
    + split; auto.
    + split; [intros [H0 | []]; discriminate H0 | discriminate].
Qed.

Lemma upgradeByNpm_sequence_witness :
  let p := instanceOf "foo" true false in
  let w := mkWorld [(KName "foo", p)] [rowOf "foo" true false] true [] in
  let r := run (upgradeByNpm newerAvailable "foo") w in
  fst r = Ok tt
  /\ trace (snd r) =
       [EvNpm "foo" None (Some "2.0.0");
        EvStore (Update (mkFilter "foo" "main" None)
                   (mkValues (Some "2.0.0") None None None));
        EvHook p HAfterAdd; EvHook p HLoad]
  /\ run (upgradeByNpm newerAvailable "ghost") w = (Error (ErrNotExists "ghost"), w).
Proof.
  assert (D : truthy_str (Some "2.0.0") = true ->
              addOrUpdatePluginByNpm newerAvailable "foo"
                (PluginData.registry (rowOf "foo" true false)) (Some "2.0.0")
              <> None) by (intros _; discriminate).
  assert (Z : "foo" <> "") by discriminate.
  pose proof (proj2 (upgradeByNpm_sequence newerAvailable
    (mkWorld [(KName "foo", instanceOf "foo" true false)]
       [rowOf "foo" true false] true []) "foo")
    (rowOf "foo" true false) (Some "2.0.0") "foo"
    eq_refl eq_refl D Z eq_refl) as H.
  pose proof (proj1 (upgradeByNpm_sequence newerAvailable
    (mkWorld [(KName "foo", instanceOf "foo" true false)]
       [rowOf "foo" true false] true []) "ghost") eq_refl) as G.
  cbv zeta in H. destruct H as [H1 [H2 _]]. destruct G as [G _].
  cbv zeta. split; [exact H1 | split; [exact H2 | exact G]].
Defined.

(** ** Claims about [addByNpm] and [list] *)

Section ListProperties.

Variable E : Env.

(** [list] returns one item for each row, in the order of the rows. *)
Lemma withExtraInfo_items (l : list PluginData.t) (w w' : World)
  (items : list (PluginData.t * ExtraInfo)) :
  run (withExtraInfo E l) w = (Ok items, w') -> map fst items = l.
Proof.
  revert items w'. induction l as [| x l IH]; intros items w'; simpl.
  - now intros [= <- _].
  - destruct (getExtraPluginInfo E x) as [extra |]; [| discriminate].
    rewrite run_bind.
    destruct (run (withExtraInfo E l) w) as [[r | e] w1]; [| discriminate].
    rewrite run_ret. intros [= <- _]. simpl. now rewrite (IH r w1 eq_refl).
Qed.

(** What follows the update in [addByNpm] writes nothing to the record
    store. *)
Lemma addByNpm_tail (pd res : PluginData.t) (w : World) :
  let r := run (instance <- await (setDatabasePlugin E pd) ;;
                await (hook E instance HAfterAdd) ;;
                Ret res) w in
  store (snd r) = store w
  /\ exists rest, trace (snd r) = trace w ++ rest
                  /\ forall op, ~ In (EvStore op) rest.
Proof.
  cbv zeta. rewrite run_bind, run_await.
  pose proof (setDatabasePlugin_keeps_store E pd w) as K.
  destruct (run (setDatabasePlugin E pd) w) as [[p | e] w1]; simpl in K.
  - destruct K as [K1 K2]. rewrite run_bind, run_await, run_hook.
    assert (N : forall op, ~ In (EvStore op) [EvHook p HAfterAdd])
      by (intros op [H | []]; discriminate H).
    destruct (hookThrows E p HAfterAdd); simpl; rewrite K1, K2;
      (split; [reflexivity | exists [EvHook p HAfterAdd]; now split]).
  - destruct K as [K1 K2]. simpl. split; [exact K1 |].
    exists []. rewrite app_nil_r. split; [exact K2 | intros op []].
Qed.

End ListProperties.

(** C9. For a name that is not in the registry and has no row yet, and
    when the download succeeds, [addByNpm] creates the row with
    [enabled = false] and [installed = false], downloads the package,
    and then writes the version, the client URL and [installed = true];
    the update does not name [enabled], and nothing is written to the
    record store after it. Whatever happens after the update, a [list]
    that returns afterwards has an item with that name,
    [installed = true] and [enabled = false]. *)
Theorem addByNpm_then_list
  (E : Env) (w : World) (data : NpmData) (version : option string) :
  let name := n_name data in
  let f := mkFilter name (appName E) None in
  JsMap.has (KName name) (plugins w) = false ->
  existsb (sameKey (createdByNpm E data)) (store w) = false ->
  addOrUpdatePluginByNpm E name (n_registry data) None = Some version ->
  let w1 := snd (run (addByNpm E data) w) in
  PluginData.enabled (createdByNpm E data) = Some false
  /\ PluginData.installed (createdByNpm E data) = Some false
  /\ v_enabled (installedValues E name version) = None
  /\ (exists rest,
        trace w1 =
          trace w
          ++ [EvStore (Create (createdByNpm E data));
              EvNpm name (n_registry data) None;
              EvStore (Update f (installedValues E name version))]
          ++ rest
        /\ forall op, ~ In (EvStore op) rest)
  /\ store w1 =
       updateRows f (installedValues E name version)
         (store w ++ [createdByNpm E data])
  /\ (forall items w2,
        run (list_ E) w1 = (Ok items, w2) ->
        exists item extraInfo,
          In (item, extraInfo) items
          /\ PluginData.name item = Some name
          /\ PluginData.installed item = Some true
          /\ PluginData.enabled item = Some false).
Proof.
  intros name f H C D w1.
  split; [reflexivity |]. split; [reflexivity |]. split; [reflexivity |].
  assert (R : run (addByNpm E data) w =
    run (instance <- await (setDatabasePlugin E
                              (pick (Some name) (Some false) (n_builtIn data))) ;;
         await (hook E instance HAfterAdd) ;;
         Ret (createdByNpm E data))
      (extend [EvStore (Create (createdByNpm E data));
               EvNpm name (n_registry data) None;
               EvStore (Update f (installedValues E name version))]
         (setStore (updateRows f (installedValues E name version)
                      (store w ++ [createdByNpm E data])) w))).
  { unfold addByNpm. fold name. rewrite run_bind. simpl run at 1.
    lazy iota beta. rewrite H.
    rewrite run_bind, run_await.
    change (PluginData.mk (Some name) None (Some (appName E)) (n_registry data)
              None None (Some false) (n_isOfficial data) (Some false)
              (n_builtIn data)) with (createdByNpm E data).
    rewrite run_repo_create, C. lazy iota beta.
    rewrite run_bind, run_await. unfold npm at 1. simpl run at 1.
    rewrite D. rewrite run_ret. lazy iota beta.
    rewrite run_bind, run_await, run_repo_update. lazy iota beta.
    f_equal. same_world. }
  pose proof (addByNpm_tail E
    (pick (Some name) (Some false) (n_builtIn data)) (createdByNpm E data)
    (extend [EvStore (Create (createdByNpm E data));
             EvNpm name (n_registry data) None;
             EvStore (Update f (installedValues E name version))]
       (setStore (updateRows f (installedValues E name version)
                    (store w ++ [createdByNpm E data])) w))) as T.
  cbv zeta in T. rewrite <- R in T. fold w1 in T.
  destruct T as [S [rest [T N]]]. simpl in S, T.
  split; [exists rest; split; [now rewrite T, <- app_assoc | exact N] |].
  split; [exact S |].
  intros items w2 L. unfold list_ in L.
  rewrite run_bind, run_await in L. simpl run at 1 in L. lazy iota beta in L.
  rewrite run_await in L. apply withExtraInfo_items in L.
  set (item := applyValues (installedValues E name version) (createdByNpm E data)).
  assert (M : matches f (createdByNpm E data) = true).
  { unfold matches, f, createdByNpm. simpl. now rewrite !String.eqb_refl. }
  assert (I : In item (map fst items)).
  { rewrite L. apply filter_In. split.
    - rewrite S. unfold updateRows. apply in_map_iff.
      exists (createdByNpm E data). rewrite M. split; [reflexivity |].
      apply in_or_app. right. now left.
    - simpl. apply String.eqb_refl. }
  apply in_map_iff in I. destruct I as [[item' extra] [I1 I2]].
  simpl in I1. subst item'. exists item, extra. repeat split; assumption.
Qed.

Lemma addByNpm_then_list_witness :
  let w1 := snd (run (addByNpm calm (mkNpmData "x" (Some "r") None None))
                   emptyWorld) in
  exists item extraInfo,
    In (item, extraInfo)
      (match fst (run (list_ calm) w1) with Ok items => items | Error _ => [] end)
    /\ PluginData.name item = Some "x"
    /\ PluginData.installed item = Some true
    /\ PluginData.enabled item = Some false.
Proof.
  pose proof (addByNpm_then_list calm emptyWorld
    (mkNpmData "x" (Some "r") None None) (Some "1.0.0")
    eq_refl eq_refl eq_refl) as H.
  cbv zeta in H. destruct H as [_ [_ [_ [_ [_ H]]]]].
  cbv zeta.
  exact (H _ _ eq_refl).
Defined.

(** ** The scheduler *)

Lemma run_segment {A : Type} (t : Async A) (w : World) :
  run t w =
  match segment t w with
  | (Finished o, _, w') => (o, w')
  | (Suspended k, _, w') => run k w'
  end.
Proof.
  revert w.
  induction t as [A a | A e | A X op k IH | A k IH | A c _ k IH];
    intros w; simpl; try reflexivity.
  - destruct (op w) as [x w']. apply IH.
  - destruct (segment c w) as [[sc cs] w1]. rewrite IH.
    destruct (segment k w1) as [[[o | k'] ks] w2]; reflexivity.
Qed.

Lemma Silent_bind {A B : Type} (m : Async A) (f : A -> Async B) :
  Silent m -> (forall a, Silent (f a)) -> Silent (x <- m ;; f x).
Proof.
  revert B f.
  induction m as [A a | A e | A X op k IH | A k IH | A c _ k IH];
    intros B f Hm Hf; simpl in *.
  - apply Hf.
  - exact I.
  - destruct Hm as [H1 H2]. split; [exact H1 |]. intros x. now apply IH.
  - now apply IH.
  - destruct Hm as [H1 H2]. split; [exact H1 |]. now apply IH.
Qed.

Lemma Silent_await {A : Type} (m : Async A) : Silent m -> Silent (await m).
Proof. intros H. unfold await. apply Silent_bind; [exact H | now intros a]. Qed.

Lemma Silent_gets {X : Type} (f : World -> X) : Silent (gets f).
Proof. simpl. split; [now intros w H | now intros x]. Qed.

(** A segment of a silent call is silent and leaves silent calls. *)
Lemma segment_Silent {A : Type} (t : Async A) (w : World) :
  Silent t -> silent (trace w) ->
  silent (trace (snd (segment t w)))
  /\ Forall (fun c => Silent c) (snd (fst (segment t w)))
  /\ match fst (fst (segment t w)) with
     | Suspended k => Silent k
     | Finished _ => True
     end.
Proof.
  revert w.
  induction t as [A a | A e | A X op k IH | A k IH | A c IHc k IHk];
    intros w Ht Hw; simpl in *.
  - auto.
  - auto.
  - destruct Ht as [H1 H2]. specialize (H1 w Hw).
    destruct (op w) as [x w']. now apply IH.
  - auto.
  - destruct Ht as [Hc Hk].
    specialize (IHc w Hc Hw).
    destruct (segment c w) as [[sc cs] w1]. simpl in IHc.
    destruct IHc as [T1 [F1 S1]].
    specialize (IHk w1 Hk T1).
    destruct (segment k w1) as [[sk ks] w2]. simpl in *.
    destruct IHk as [T2 [F2 S2]].
    split; [exact T2 |]. split; [| exact S2].
    apply Forall_app. split.
    + destruct sc; simpl; auto.
    + apply Forall_app. now split.
Qed.

Lemma Silent_residual (s : Susp unit) :
  match s with Suspended k => Silent k | Finished _ => True end ->
  Silent (residual s).
Proof. destruct s; simpl; auto. Qed.

Lemma Forall_replace (Q : Task -> Prop) (i : nat) (t : Task) (l : list Task) :
  Q t -> Forall Q l -> Forall Q (replace i t l).
Proof.
  intros Ht Hl. revert i. induction Hl as [| x l Hx Hl IH]; intros i.
  - destruct i; constructor.
  - destruct i; constructor; auto.
Qed.

Lemma resume_Silent (i : nat) (P : Pool) :
  SilentPool P -> SilentPool (resume i P).
Proof.
  intros [HT HF]. unfold resume.
  destruct (nth_error (tasks P) i) as [t |] eqn:N; [| now split].
  assert (Ht : Silent t).
  { rewrite Forall_forall in HF. apply HF. eapply nth_error_In; eauto. }
  pose proof (segment_Silent t (world P) Ht HT) as H.
  destruct (segment t (world P)) as [[s new] w']. simpl in H.
  destruct H as [T [F S]]. split; simpl; [exact T |].
  apply Forall_app. split; [| exact F].
  apply Forall_replace; [now apply Silent_residual | exact HF].
Qed.

Lemma exec_Silent (schedule : list nat) (P : Pool) :
  SilentPool P -> SilentPool (exec schedule P).
Proof.
  revert P. induction schedule as [| i l IH]; intros P H; simpl; [exact H |].
  apply IH. now apply resume_Silent.
Qed.

(** ** The [beforeLoad] handler *)

Section BootstrapProperties.

Variable E : Env.

Lemma Silent_setDatabasePlugin (pd : PluginData.t) :
  Silent (setDatabasePlugin E pd).
Proof.
  unfold setDatabasePlugin. apply Silent_bind.
  - unfold require. destruct (PluginData.name pd) as [s |]; simpl; [| exact I].
    destruct (String.eqb s ""); simpl; [exact I |].
    destruct (require_ E s); exact I.
  - intros [c |]; simpl; [| exact I].
    split; [now intros w H | now intros x].
Qed.

Lemma Silent_forAwaitOf {X : Type} (l : list X) (body : X -> Async unit) :
  (forall x, Silent (body x)) -> Silent (forAwaitOf l body).
Proof.
  intros H. induction l as [| x l IH]; simpl; [exact I |].
  apply Silent_bind; [apply H | now intros _].
Qed.

(** [initDatabasePlugins] calls no hook at all. *)
Lemma Silent_initDatabasePlugins : Silent (initDatabasePlugins E).
Proof.
  unfold initDatabasePlugins. apply Silent_bind.
  - apply Silent_await. apply Silent_gets.
  - intros l. apply Silent_forAwaitOf. intros pd. simpl. split.
    + apply Silent_bind; [apply Silent_setDatabasePlugin | now intros p].
    + apply Silent_await. unfold checkPackage.
      destruct (checkPluginPackage E pd); exact I.
Qed.

(** When the handler goes on, [initDatabasePlugins] is started and left
    pending at its query, and the loop over the instances has already
    found the registry empty: the handler is done. *)
Lemma handler_is_done_before_registration (w : World) :
  plugins w = [] -> tableExists w = true ->
  resume 0 (booting E w) =
  mkPool w [Ret tt; residual (fst (fst (segment (initDatabasePlugins E) w)))].
Proof.
  intros HP HT. unfold booting, spawn, resume, beforeLoadHandler, startOptions.
  simpl. rewrite HT. simpl. rewrite HP. reflexivity.
Qed.

(** With an empty registry at the [beforeLoad] event, no schedule makes
    the handler call [beforeLoad] on any instance. *)
Lemma no_beforeLoad_on_database_plugins (w : World) (schedule : list nat) :
  plugins w = [] -> tableExists w = true -> silent (trace w) ->
  silent (trace (world (exec schedule (booting E w)))).
Proof.
  intros HP HT HS.
  assert (Inv : forall l P,
    P = booting E w \/ SilentPool P ->
    silent (trace (world (exec l P)))).
  { induction l as [| i l IH]; intros P [-> | H].
    - unfold booting, spawn. simpl. exact HS.
    - apply H.
    - simpl. apply IH. destruct i as [| i].
      + right. rewrite (handler_is_done_before_registration w HP HT).
        split; [exact HS |]. cbn [tasks].
        constructor; [exact I |]. constructor; [| constructor].
        apply Silent_residual.
        apply (segment_Silent (initDatabasePlugins E) w
                 Silent_initDatabasePlugins HS).
      + left. unfold booting, spawn, resume. simpl. now destruct i.
    - simpl. apply IH. right. now apply resume_Silent. }
  apply Inv. now left.
Qed.

End BootstrapProperties.

(** C4, at the failing input: the application starts (neither install nor
    upgrade) with the table in place, one enabled row ["p"] and no
    statically registered plugin. The handler starts
    [initDatabasePlugins] without awaiting it and goes to the loop over
    the instances at once, while the registry is still empty. Under every
    schedule no [beforeLoad] hook is ever called; when all calls have
    finished, the instance of ["p"] is registered and has not had its
    [beforeLoad]. *)
Theorem beforeLoad_pass_misses_database_plugins :
  let w := mkWorld [] [rowOf "p" true false] true [] in
  let boot := booting calm w in
  (forall schedule p,
     ~ In (EvHook p HBeforeLoad) (trace (world (exec schedule boot))))
  /\ (let P := exec [0; 1; 1; 1; 1] boot in
      quiescent P = true
      /\ plugins (world P) = [(KName "p", instanceOf "p" true false)]
      /\ trace (world P) = []).
Proof.
  cbv zeta. split.
  - intros schedule.
    apply (no_beforeLoad_on_database_plugins calm
             (mkWorld [] [rowOf "p" true false] true []) schedule
             eq_refl eq_refl).
    intros p [].
  - vm_compute. repeat split.
Qed.

(** ** One call on its own *)

(** Induction on a pending call: the calls it forks and the calls it
    goes on with are pending calls again. *)
Lemma Task_induction (Q : Task -> Prop) :
  (forall a, Q (Ret a)) ->
  (forall e, Q (Throw e)) ->
  (forall (X : Type) (op : World -> X * World) (k : X -> Task),
     (forall x, Q (k x)) -> Q (Do op k)) ->
  (forall k, Q k -> Q (Await k)) ->
  (forall c k, Q c -> Q k -> Q (Fork c k)) ->
  forall t, Q t.
Proof.
  intros HR HT HD HA HF. fix IH 1. intros [a | e | X op k | k | c k].
  - apply HR.
  - apply HT.
  - apply HD. intros x. apply IH.
  - apply HA. apply IH.
  - apply HF; apply IH.
Qed.

Lemma exec_repeat_S (m : nat) (P : Pool) :
  exec (repeat 0 (S m)) P = exec (repeat 0 m) (resume 0 P).
Proof. reflexivity. Qed.

Lemma exec_finished (m : nat) (w : World) (rest : list Task) :
  world (exec (repeat 0 m) (mkPool w (Ret tt :: rest))) = w.
Proof.
  revert rest. induction m as [| m IH]; intros rest; [reflexivity |].
  rewrite exec_repeat_S. unfold resume. simpl. apply IH.
Qed.

(** Resumed again and again while nothing else is scheduled, a pending
    call reaches the world of [run]. *)
Lemma exec_alone (t : Task) :
  forall (w : World) (rest : list Task),
  exists n, forall m, n <= m ->
    world (exec (repeat 0 m) (mkPool w (t :: rest))) = snd (run t w).
Proof.
  induction t as [a | e | X op k IH | k IH | c k _ IH] using Task_induction;
    intros w rest.
  - exists 0. intros m _. destruct a. apply exec_finished.
  - exists 0. intros [| m] _; [reflexivity |].
    rewrite exec_repeat_S. unfold resume. simpl. apply exec_finished.
  - simpl run. destruct (op w) as [x w'] eqn:O.
    destruct (IH x w' rest) as [n Hn]. exists (S n).
    intros [| m] Hm; [lia |].
    rewrite <- (Hn (S m)) by lia. rewrite !exec_repeat_S.
    f_equal. f_equal. unfold resume. simpl. now rewrite O.
  - destruct (IH w (rest ++ [])) as [n Hn]. exists (S n).
    intros [| m] Hm; [lia |].
    rewrite exec_repeat_S. unfold resume. simpl. apply Hn. lia.
  - simpl run. destruct (segment c w) as [[sc cs] w1] eqn:Sc.
    destruct (IH w1 (rest ++ pending sc ++ cs)) as [n Hn]. exists (S n).
    intros [| m] Hm; [lia |].
    rewrite <- (Hn (S m)) by lia. rewrite !exec_repeat_S.
    f_equal. f_equal. unfold resume. simpl. rewrite Sc.
    destruct (segment k w1) as [[sk ks] w2]. now rewrite <- !app_assoc.
Qed.

(** A call started in an idle process and left alone does what [run]
    says. *)
Lemma exec_spawn_alone (t : Task) (w : World) :
  exists n, forall m, n <= m ->
    world (exec (repeat 0 m) (spawn t (idle w))) = snd (run t w).
Proof.
  unfold spawn, idle. cbn [world tasks app].
  rewrite (run_segment t w).
  destruct (segment t w) as [[[o | k] new] w'].
  - exists 0. intros m _. apply exec_finished.
  - apply exec_alone.
Qed.

(** ** The control channel *)

(** What is written to the socket is read back as the message. *)
Lemma strings_map_JString (l : list string) :
  strings (map JString l) = Some l.
Proof. induction l as [| x l IH]; simpl; [reflexivity | now rewrite IH]. Qed.

Lemma parse_stringify (data : Message) : parse (stringify data) = Some data.
Proof.
  destruct data as [m [n | l]]; simpl; [reflexivity |].
  now rewrite strings_map_JString.
Qed.

Lemma run_then_ret {A : Type} (m : Async A) (w : World) :
  snd (run (m ;; Ret tt) w) = snd (run m w).
Proof.
  rewrite run_bind. now destruct (run m w) as [[a | e] w'].
Qed.

(** A command with one of the five methods starts that method on each
    name. *)
Lemma doCliCommand_started (E : Env) (m : string) (f : string -> Task)
  (names : Names) (P : Pool) :
  byCli E m = Some f -> snd (doCliCommand E m names P) = started f names P.
Proof.
  intros B. unfold doCliCommand, started. rewrite B.
  now destruct (pluginNames names).
Qed.

Lemma onData_started (E : Env) (m : string) (f : string -> Task)
  (names : Names) (P : Pool) :
  byCli E m = Some f ->
  onData E (stringify (mkMessage m names)) P = started f names P.
Proof.
  intros B. unfold onData. rewrite parse_stringify.
  now apply doCliCommand_started.
Qed.

Lemma served_alone (E : Env) (m : string) (f : string -> Task)
  (name : string) (w : World) :
  byCli E m = Some f ->
  exists n, forall k, n <= k -> served E m name w k = snd (run (f name) w).
Proof.
  intros B. unfold served. rewrite (onData_started E m f (One name) _ B).
  apply (exec_spawn_alone (f name) w).
Qed.

(** C8. A [create] command is carried out in the calling process and
    nothing is written to the socket, whatever the socket does. For any
    other method the message is written exactly when the connection is
    made, and the command is carried out in the calling process exactly
    when the socket reports an error. The server reads back the message
    that was written and starts the method once on each of its plugin
    names, in order: [createByCli] for [create], [addByCli] for [add],
    [remove], [enable] and [disable] for the methods of these names; the
    fallback does to the pool of the calling process what the server
    does to its own. For a message with one plugin name and any of these
    methods the server, left alone, ends in the world of one call of the
    method on that name. *)
Theorem control_channel_dispatch
  (E : Env) (data : Message) (sock : Socket) (P : Pool) :
  (method data = "create" ->
   clientWrite E data sock P
   = (snd (doCliCommand E "create" (plugins_ data) P), [])
   /\ fst (clientWrite E data sock P)
      = started (createByCli E) (plugins_ data) P)
  /\ (method data <> "create" ->
      snd (clientWrite E data sock P)
      = (if connects sock then [stringify data] else [])
      /\ fst (clientWrite E data sock P)
         = (if errors sock then onData E (stringify data) P else P))
  /\ onData E (stringify data) P
     = snd (doCliCommand E (method data) (plugins_ data) P)
  /\ (forall f,
        byCli E (method data) = Some f ->
        onData E (stringify data) P
        = fold_left (fun P n => spawn (f n) P) (pluginNames (plugins_ data)) P)
  /\ (forall names,
        onData E (stringify (mkMessage "create" names)) P
        = started (createByCli E) names P
        /\ onData E (stringify (mkMessage "add" names)) P
           = started (fun n => addByCli E n ;; Ret tt) names P
        /\ onData E (stringify (mkMessage "remove" names)) P
           = started (remove E) names P
        /\ onData E (stringify (mkMessage "enable" names)) P
           = started (enable E) names P
        /\ onData E (stringify (mkMessage "disable" names)) P
           = started (disable E) names P)
  /\ (forall (name : string) (w : World),
        (exists n, forall k, n <= k ->
           served E "create" name w k = snd (run (createByCli E name) w))
        /\ (exists n, forall k, n <= k ->
              served E "add" name w k = snd (run (addByCli E name) w))
        /\ (exists n, forall k, n <= k ->
              served E "remove" name w k = snd (run (remove E name) w))
        /\ (exists n, forall k, n <= k ->
              served E "enable" name w k = snd (run (enable E name) w))
        /\ (exists n, forall k, n <= k ->
              served E "disable" name w k = snd (run (disable E name) w))).
Proof.
  assert (O : onData E (stringify data) P
              = snd (doCliCommand E (method data) (plugins_ data) P)).
  { unfold onData. now rewrite parse_stringify. }
  split; [| split; [| split; [exact O | split; [| split]]]].
  - intros M. unfold clientWrite. rewrite M. cbn [String.eqb Ascii.eqb Bool.eqb].
    split; [reflexivity |]. cbn [fst].
    now apply doCliCommand_started.
  - intros M. apply String.eqb_neq in M. unfold clientWrite. rewrite M.
    simpl. rewrite O. split; reflexivity.
  - intros f B. rewrite O. unfold doCliCommand. rewrite B.
    destruct (pluginNames (plugins_ data)); reflexivity.
  - intros names.
    repeat split; now apply onData_started.
  - intros name w.
    split; [now apply (served_alone E "create" (createByCli E)) |].
    split.
    { destruct (served_alone E "add" (fun n => addByCli E n ;; Ret tt) name w
                  eq_refl) as [n H].
      exists n. intros k L. rewrite (H k L). apply run_then_ret. }
    split; [now apply (served_alone E "remove" (remove E)) |].
    split; [now apply (served_alone E "enable" (enable E)) |].
    now apply (served_alone E "disable" (disable E)).
Qed.

Lemma control_channel_dispatch_witness :
  let data := mkMessage "enable" (One "foo") in
  let P := idle (mkWorld [(KName "foo", instanceOf "foo" true false)]
                   [rowOf "foo" false false] true []) in
  snd (clientWrite calm data (mkSocket true false) P) = [stringify data]
  /\ fst (clientWrite calm data (mkSocket false true) P)
     = onData calm (stringify data) P
  /\ fst (clientWrite calm data (mkSocket true false) P) = P.
Proof.
  assert (M : "enable" <> "create") by discriminate.
  pose proof (proj1 (proj2 (control_channel_dispatch calm
    (mkMessage "enable" (One "foo")) (mkSocket true false)
    (idle (mkWorld [(KName "foo", instanceOf "foo" true false)]
             [rowOf "foo" false false] true [])))) M) as H1.
  pose proof (proj1 (proj2 (control_channel_dispatch calm
    (mkMessage "enable" (One "foo")) (mkSocket false true)
    (idle (mkWorld [(KName "foo", instanceOf "foo" true false)]
             [rowOf "foo" false false] true [])))) M) as H2.
  cbv zeta. split; [exact (proj1 H1) | split; [exact (proj2 H2) | exact (proj2 H1)]].
Defined.

(* ================================================================== *)
(** * Further properties *)

(** ** [disable] and [remove] *)

Section DisableRemoveProperties.

Variable E : Env.

Lemma run_repo_destroy (f : Filter) (w : World) :
  run (repo_destroy f) w =
  (Ok tt, record (EvStore (Destroy f)) (setStore (destroyRows f (store w)) w)).
Proof. reflexivity. Qed.

(** What [disable] does on an instance that is not built in. *)
Lemma run_disable (w : World) (name : string) (p : Plugin.t) :
  JsMap.get (KName name) (plugins w) = Some p ->
  truthy (Plugin.builtIn p) = false ->
  run (disable E name) w =
  (outcomeOf (failure E (disableSteps name p)),
   extend (EvStore (Update (notBuiltIn E name) disableValues)
             :: performed E (disableSteps name p))
     (setStore (updateRows (notBuiltIn E name) disableValues (store w)) w)).
Proof.
  intros G B. unfold disable.
  rewrite run_bind, run_getPluginInstance, G. lazy iota beta. rewrite B.
  rewrite run_bind, run_await, run_repo_update. lazy iota beta.
  rewrite run_bind, run_await, run_hook. unfold disableSteps.
  cbn [failure performed stepThrows stepEvent stepError].
  destruct (hookThrows E p HAfterDisable); [same_world |].
  lazy iota beta. rewrite run_await.
  change (emitAsync E (AfterDisablePlugin name))
    with (perform E (SEmit (AfterDisablePlugin name))).
  rewrite run_perform. cbn [stepThrows stepEvent stepError].
  destruct (emitThrows E (AfterDisablePlugin name)); same_world.
Qed.

(** What [remove] does on an instance that is not built in. *)
Lemma run_remove (w : World) (name : string) (p : Plugin.t) :
  JsMap.get (KName name) (plugins w) = Some p ->
  truthy (Plugin.builtIn p) = false ->
  run (remove E name) w =
  if hookThrows E p HRemove
  then (Error (ErrHook p HRemove), extend [EvHook p HRemove] w)
  else
    (if removePluginPackage E name then Ok tt else Error (ErrResolver name),
     extend [EvHook p HRemove; EvStore (Destroy (notBuiltIn E name));
             EvRemovePackage name]
       (setPlugins (JsMap.delete (KName name) (plugins w))
          (setStore (destroyRows (notBuiltIn E name) (store w)) w))).
Proof.
  intros G B. unfold remove.
  rewrite run_bind, run_getPluginInstance, G. lazy iota beta. rewrite B.
  rewrite run_bind, run_await, run_hook.
  destruct (hookThrows E p HRemove); [reflexivity |]. lazy iota beta.
  rewrite run_bind, run_await, run_repo_destroy. lazy iota beta.
  rewrite run_bind. simpl run at 1. lazy iota beta.
  rewrite run_await. unfold removePackage. simpl.
  destruct (removePluginPackage E name); same_world.
Qed.

(** A row that is built in does not meet the filter of [disable] and
    [remove]. *)
Lemma builtIn_row_not_matched (name : string) (x : PluginData.t) :
  truthy (PluginData.builtIn x) = true -> matches (notBuiltIn E name) x = false.
Proof.
  intros B. unfold matches, notBuiltIn. simpl. rewrite B.
  now rewrite andb_false_r.
Qed.

Lemma updateRows_keeps (f : Filter) (v : Values) (rows : list PluginData.t)
  (x : PluginData.t) :
  matches f x = false -> In x rows -> In x (updateRows f v rows).
Proof.
  intros M I. unfold updateRows. apply in_map_iff. exists x.
  now rewrite M.
Qed.

Lemma destroyRows_keeps (f : Filter) (rows : list PluginData.t)
  (x : PluginData.t) :
  matches f x = false -> In x rows -> In x (destroyRows f rows).
Proof.
  intros M I. unfold destroyRows. apply filter_In. now rewrite M.
Qed.

End DisableRemoveProperties.

(** *** The registry as a [Map] *)

Lemma key_eqb_eq (a b : Key) : key_eqb a b = true <-> a = b.
Proof.
  destruct a as [x | x], b as [y | y]; simpl;
    try (split; [discriminate | discriminate]).
  - rewrite String.eqb_eq. split; [now intros -> | now intros [= ->]].
  - rewrite String.eqb_eq. split; [now intros -> | now intros [= ->]].
Qed.

Lemma get_absent (k : Key) (m : JsMap.t) :
  ~ In k (map fst m) -> JsMap.get k m = None.
Proof.
  induction m as [| [k' v] m IH]; simpl; [reflexivity |].
  intros N. destruct (key_eqb k k') eqn:K.
  - apply key_eqb_eq in K. subst k'. exfalso. apply N. now left.
  - apply IH. intros I. apply N. now right.
Qed.

Lemma get_delete_same (k : Key) (m : JsMap.t) :
  uniqueKeys m -> JsMap.get k (JsMap.delete k m) = None.
Proof.
  unfold uniqueKeys. induction m as [| [k' v] m IH]; simpl; [reflexivity |].
  intros U. inversion U as [| x l N U' Eq]; subst.
  destruct (key_eqb k k') eqn:K.
  - apply key_eqb_eq in K. subst k'. now apply get_absent.
  - simpl. rewrite K. now apply IH.
Qed.

(** X1. On a registered instance that is not built in, [disable] first
    writes [enabled = false] to the rows of the plugin that are not built
    in, then calls [afterDisable] and emits [afterDisablePlugin], in this
    order; the first of the two that throws ends the sequence and the
    update is kept. The registry is not changed, so the instance keeps the
    [enabled] flag it was constructed with. *)
Theorem disable_updates_then_runs_steps
  (E : Env) (w : World) (name : string) (p : Plugin.t) :
  JsMap.get (KName name) (plugins w) = Some p ->
  truthy (Plugin.builtIn p) = false ->
  let r := run (disable E name) w in
  fst r = outcomeOf (failure E (disableSteps name p))
  /\ trace (snd r) =
       trace w ++ EvStore (Update (notBuiltIn E name) disableValues)
         :: performed E (disableSteps name p)
  /\ (exists n, performed E (disableSteps name p)
                = map stepEvent (firstn n (disableSteps name p)))
  /\ store (snd r) = updateRows (notBuiltIn E name) disableValues (store w)
  /\ (forall x, In x (store (snd r)) -> matches (notBuiltIn E name) x = true ->
                PluginData.enabled x = Some false)
  /\ plugins (snd r) = plugins w
  /\ JsMap.get (KName name) (plugins (snd r)) = Some p.
Proof.
  intros G B r. subst r. rewrite (run_disable E w name p G B).
  simpl fst. simpl snd.
  split; [reflexivity |]. split; [reflexivity |].
  split; [apply performed_prefix |]. split; [reflexivity |].
  split; [| split; [reflexivity | exact G]].
  intros x. simpl store. unfold updateRows. rewrite in_map_iff.
  intros [y [Hy _]] M. destruct (matches (notBuiltIn E name) y) eqn:My.
  - subst x. reflexivity.
  - subst x. congruence.
Qed.

Lemma disable_updates_then_runs_steps_witness :
  let p := instanceOf "foo" true false in
  let w := mkWorld [(KName "foo", p)] [rowOf "foo" true false] true [] in
  let r := run (disable calm "foo") w in
  fst r = Ok tt
  /\ trace (snd r) =
       [EvStore (Update (notBuiltIn calm "foo") disableValues);
        EvHook p HAfterDisable; EvEmit (AfterDisablePlugin "foo")]
  /\ store (snd r) = [rowOf "foo" false false]
  /\ JsMap.get (KName "foo") (plugins (snd r)) = Some p.
Proof.
  pose proof (disable_updates_then_runs_steps calm
    (mkWorld [(KName "foo", instanceOf "foo" true false)]
       [rowOf "foo" true false] true [])
    "foo" (instanceOf "foo" true false) eq_refl eq_refl) as H.
  cbv zeta in H. destruct H as [H1 [H2 [_ [H3 [_ [_ H4]]]]]].
  cbv zeta. split; [exact H1 | split; [exact H2 | split; [exact H3 | exact H4]]].
Defined.

(** X2. On a registered instance that is not built in, [remove] calls the
    [remove] hook first. When the hook throws, nothing has been deleted:
    the record store and the registry are as before. Otherwise the rows of
    the plugin that are not built in are destroyed, the instance is taken
    out of the registry (the name is then not registered any more) and
    the package files are removed last; when that last step fails, the
    rows and the instance are gone all the same. *)
Theorem remove_deletes_after_the_hook
  (E : Env) (w : World) (name : string) (p : Plugin.t) :
  JsMap.get (KName name) (plugins w) = Some p ->
  truthy (Plugin.builtIn p) = false ->
  let r := run (remove E name) w in
  (hookThrows E p HRemove = true ->
   fst r = Error (ErrHook p HRemove)
   /\ store (snd r) = store w
   /\ plugins (snd r) = plugins w
   /\ trace (snd r) = trace w ++ [EvHook p HRemove])
  /\ (hookThrows E p HRemove = false ->
      fst r = (if removePluginPackage E name then Ok tt
               else Error (ErrResolver name))
      /\ store (snd r) = destroyRows (notBuiltIn E name) (store w)
      /\ plugins (snd r) = JsMap.delete (KName name) (plugins w)
      /\ (uniqueKeys (plugins w) ->
          JsMap.get (KName name) (plugins (snd r)) = None)
      /\ trace (snd r) =
           trace w ++ [EvHook p HRemove;
                       EvStore (Destroy (notBuiltIn E name));
                       EvRemovePackage name]).
Proof.
  intros G B r. subst r. rewrite (run_remove E w name p G B).
  split; intros H; rewrite H; simpl; repeat split.
  apply get_delete_same.
Qed.

Lemma remove_deletes_after_the_hook_witness :
  let p := instanceOf "foo" true false in
  let w := mkWorld [(KName "foo", p)] [rowOf "foo" true false] true [] in
  let r := run (remove calm "foo") w in
  fst r = Ok tt /\ store (snd r) = [] /\ plugins (snd r) = [].
Proof.
  pose proof (remove_deletes_after_the_hook calm
    (mkWorld [(KName "foo", instanceOf "foo" true false)]
       [rowOf "foo" true false] true [])
    "foo" (instanceOf "foo" true false) eq_refl eq_refl) as H.
  cbv zeta in H. destruct H as [_ H]. destruct (H eq_refl) as [H1 [H2 [H3 _]]].
  cbv zeta. split; [exact H1 | split; [exact H2 | exact H3]].
Defined.

Section FrameProperties.

Variable E : Env.

Lemma requiredCheck_ok_inv (w : World) (name : string) (l : list string) :
  requiredCheck (plugins w) name l = Ok tt ->
  forallb (mapsToEnabled w) l = true.
Proof.
  induction l as [| r l IH]; simpl; [reflexivity |].
  unfold mapsToEnabled at 1.
  destruct (JsMap.get (KName r) (plugins w)) as [q |]; [| discriminate].
  destruct (truthy (Plugin.enabled q)); [exact IH | discriminate].
Qed.

(** [enable] changes the registry in no outcome. *)
Lemma enable_keeps_registry (w : World) (name : string) :
  plugins (snd (run (enable E name) w)) = plugins w.
Proof.
  destruct (JsMap.get (KName name) (plugins w)) as [p |] eqn:G.
  - destruct (requiredCheck (plugins w) name (requiredPlugins E p))
      as [[] | e] eqn:R.
    + now rewrite (run_enable E w name p G (requiredCheck_ok_inv w name _ R)).
    + now rewrite (enable_check_fails E w name p e G R).
  - unfold enable. now rewrite run_bind, run_getPluginInstance, G.
Qed.

(** [disable] changes the registry in no outcome. *)
Lemma disable_keeps_registry (w : World) (name : string) :
  plugins (snd (run (disable E name) w)) = plugins w.
Proof.
  destruct (JsMap.get (KName name) (plugins w)) as [p |] eqn:G.
  - destruct (truthy (Plugin.builtIn p)) eqn:B.
    + unfold disable. rewrite run_bind, run_getPluginInstance, G.
      lazy iota beta. now rewrite B.
    + now rewrite (run_disable E w name p G B).
  - unfold disable. now rewrite run_bind, run_getPluginInstance, G.
Qed.

(** The rows that [disable] leaves behind. *)
Lemma disable_store (w : World) (name : string) :
  store (snd (run (disable E name) w)) = store w
  \/ store (snd (run (disable E name) w))
     = updateRows (notBuiltIn E name) disableValues (store w).
Proof.
  destruct (JsMap.get (KName name) (plugins w)) as [p |] eqn:G.
  - destruct (truthy (Plugin.builtIn p)) eqn:B.
    + left. unfold disable. rewrite run_bind, run_getPluginInstance, G.
      lazy iota beta. now rewrite B.
    + right. now rewrite (run_disable E w name p G B).
  - left. unfold disable. now rewrite run_bind, run_getPluginInstance, G.
Qed.

(** The rows that [remove] leaves behind. *)
Lemma remove_store (w : World) (name : string) :
  store (snd (run (remove E name) w)) = store w
  \/ store (snd (run (remove E name) w))
     = destroyRows (notBuiltIn E name) (store w).
Proof.
  destruct (JsMap.get (KName name) (plugins w)) as [p |] eqn:G.
  - destruct (truthy (Plugin.builtIn p)) eqn:B.
    + left. unfold remove. rewrite run_bind, run_getPluginInstance, G.
      lazy iota beta. now rewrite B.
    + rewrite (run_remove E w name p G B).
      destruct (hookThrows E p HRemove); [now left | now right].
  - left. unfold remove. now rewrite run_bind, run_getPluginInstance, G.
Qed.

End FrameProperties.

(** X3. Whatever the registry holds, [disable] and [remove] neither
    change nor delete a row whose [builtIn] is true: the filter they pass
    to the repository carries [builtIn: false]. This holds also when the
    registered instance does not say that the plugin is built in. *)
Theorem builtIn_rows_survive_disable_and_remove
  (E : Env) (w : World) (name : string) (x : PluginData.t) :
  In x (store w) ->
  truthy (PluginData.builtIn x) = true ->
  In x (store (snd (run (disable E name) w)))
  /\ In x (store (snd (run (remove E name) w))).
Proof.
  intros I B. split.
  - destruct (disable_store E w name) as [-> | ->]; [exact I |].
    apply updateRows_keeps; [now apply builtIn_row_not_matched | exact I].
  - destruct (remove_store E w name) as [-> | ->]; [exact I |].
    apply destroyRows_keeps; [now apply builtIn_row_not_matched | exact I].
Qed.

Lemma builtIn_rows_survive_disable_and_remove_witness :
  let p := instanceOf "core" true false in
  let w := mkWorld [(KName "core", p)] [rowOf "core" true true] true [] in
  In (rowOf "core" true true) (store (snd (run (disable calm "core") w)))
  /\ In (rowOf "core" true true) (store (snd (run (remove calm "core") w)))
  /\ JsMap.get (KName "core") (plugins (snd (run (remove calm "core") w))) = None.
Proof.
  assert (I : In (rowOf "core" true true) [rowOf "core" true true])
    by (now left).
  pose proof (builtIn_rows_survive_disable_and_remove calm
    (mkWorld [(KName "core", instanceOf "core" true false)]
       [rowOf "core" true true] true [])
    "core" (rowOf "core" true true) I eq_refl) as H.
  cbv zeta. split; [exact (proj1 H) | split; [exact (proj2 H) | reflexivity]].
Defined.

(** X4. [enable] and [disable] leave the registry as it is in every
    outcome, and [load] decides on the [enabled] flag of the instance:
    after either of them [loadAll] has the same outcome and performs the
    same events as before. In particular a plugin that was just disabled
    is still loaded by the next [loadAll] of the same process, and one
    that was just enabled for the first time is still skipped. *)
Theorem loadAll_ignores_enable_and_disable
  (E : Env) (w : World) (name : string) :
  plugins (snd (run (enable E name) w)) = plugins w
  /\ plugins (snd (run (disable E name) w)) = plugins w
  /\ (forall w',
        w' = snd (run (enable E name) w) \/ w' = snd (run (disable E name) w) ->
        exists o evs,
          run (loadAll E) w = (o, extend evs w)
          /\ run (loadAll E) w' = (o, extend evs w')).
Proof.
  split; [apply enable_keeps_registry |].
  split; [apply disable_keeps_registry |].
  intros w' H.
  assert (P : plugins w' = plugins w).
  { destruct H as [-> | ->];
      [apply enable_keeps_registry | apply disable_keeps_registry]. }
  exists (outcomeOf (failure E (flat_map loadSteps (JsMap.values (plugins w))))),
    (performed E (flat_map loadSteps (JsMap.values (plugins w)))).
  split; [apply run_loadAll |].
  rewrite (run_loadAll E w'). cbv zeta. now rewrite P.
Qed.

(** X5. [enable], [disable] and [remove] work on the registered instance:
    on a name that is not in the registry each of them fails with the
    error for a plugin that does not exist and does nothing, whatever the
    record store holds for that name. *)
Theorem lifecycle_needs_a_registered_instance
  (E : Env) (w : World) (name : string) :
  JsMap.get (KName name) (plugins w) = None ->
  run (enable E name) w = (Error (ErrDoesNotExist name), w)
  /\ run (disable E name) w = (Error (ErrDoesNotExist name), w)
  /\ run (remove E name) w = (Error (ErrDoesNotExist name), w)
  /\ kind (ErrDoesNotExist name) = PluginNotFound.
Proof.
  intros G. unfold enable, disable, remove.
  rewrite !run_bind, run_getPluginInstance, G. repeat split.
Qed.

Lemma lifecycle_needs_a_registered_instance_witness :
  let w := mkWorld [] [rowOf "foo" true false] true [] in
  run (enable calm "foo") w = (Error (ErrDoesNotExist "foo"), w)
  /\ run (remove calm "foo") w = (Error (ErrDoesNotExist "foo"), w).
Proof.
  pose proof (lifecycle_needs_a_registered_instance calm
    (mkWorld [] [rowOf "foo" true false] true []) "foo" eq_refl) as H.
  cbv zeta. split; [exact (proj1 H) | exact (proj1 (proj2 (proj2 H)))].
Defined.

(** ** Adding a plugin *)

Lemma has_false_get (k : Key) (m : JsMap.t) :
  JsMap.has k m = false -> JsMap.get k m = None.
Proof. unfold JsMap.has. now destruct (JsMap.get k m). Qed.

(** On a fresh key [set] appends, and [delete] takes the entry away
    again. *)
Lemma delete_set_fresh (k : Key) (v : Plugin.t) (m : JsMap.t) :
  JsMap.get k m = None -> JsMap.delete k (JsMap.set k v m) = m.
Proof.
  induction m as [| [k' v'] m IH]; simpl.
  - now rewrite key_eqb_refl.
  - destruct (key_eqb k k') eqn:K; [discriminate |].
    intros G. simpl. rewrite K. now rewrite IH.
Qed.

Lemma set_fresh_keeps_has (k : Key) (v : Plugin.t) (m : JsMap.t) :
  JsMap.has k (JsMap.set k v m) = true.
Proof. unfold JsMap.has. now rewrite get_set_same. Qed.

Lemma destroyRows_none (f : Filter) (rows : list PluginData.t) :
  (forall r, In r rows -> matches f r = false) -> destroyRows f rows = rows.
Proof.
  induction rows as [| x rows IH]; simpl; [reflexivity |].
  intros H. rewrite (H x (or_introl eq_refl)). simpl.
  rewrite IH; [reflexivity |]. intros r I. apply H. now right.
Qed.

(** A store without a row for [(name, appName)] has no row that meets a
    filter on that name and application. *)
Lemma no_row_no_match (created : PluginData.t) (f : Filter)
  (rows : list PluginData.t) :
  PluginData.name created = Some (f_name f) ->
  PluginData.appName created = Some (f_appName f) ->
  existsb (sameKey created) rows = false ->
  forall r, In r rows -> matches f r = false.
Proof.
  intros N A X r I.
  destruct (matches f r) eqn:M; [| reflexivity].
  apply matches_name in M. destruct M as [M1 M2].
  assert (T : existsb (sameKey created) rows = true).
  { apply existsb_exists. exists r. split; [exact I |].
    unfold sameKey. rewrite N, A, M1, M2. simpl.
    now rewrite !String.eqb_refl. }
  congruence.
Qed.

Section AddFurtherProperties.

Variable E : Env.

(** [addByLocalPath] on a name that is neither registered nor in the
    store, up to the registration of the instance. *)
Lemma run_addByLocalPath (w : World) (path name : string)
  (version : option string) (data : LocalData) :
  getPackageJsonByLocalPath E path = Some (name, version) ->
  JsMap.has (KName name) (plugins w) = false ->
  existsb (sameKey (createdByLocalPath E name version data)) (store w) = false ->
  run (addByLocalPath E path data) w =
  match run (setDatabasePlugin E
               (pick (Some name) (Some false) (orFalse (l_builtIn data))))
          (record (EvStore (Create (createdByLocalPath E name version data)))
             (setStore (store w ++ [createdByLocalPath E name version data]) w))
  with
  | (Error e, w2) => (Error e, w2)
  | (Ok instance, w2) =>
      (if hookThrows E instance HAfterAdd
       then Error (ErrHook instance HAfterAdd)
       else Ok (createdByLocalPath E name version data),
       extend [EvHook instance HAfterAdd] w2)
  end.
Proof.
  intros P H C. unfold addByLocalPath. rewrite P.
  rewrite run_bind. simpl run at 1. lazy iota beta. rewrite H.
  rewrite run_bind, run_await.
  change (PluginData.mk (Some name) version (Some (appName E)) None
            (Some (getClientStaticUrl E name)) (l_zipUrl data) (Some false)
            (orFalse (l_isOfficial data)) (Some true) (orFalse (l_builtIn data)))
    with (createdByLocalPath E name version data).
  rewrite run_repo_create, C. lazy iota beta.
  rewrite run_bind, run_await.
  destruct (run (setDatabasePlugin E _) _) as [[p | e] w2]; [| reflexivity].
  rewrite run_bind, run_await, run_hook.
  destruct (hookThrows E p HAfterAdd); reflexivity.
Qed.

(** [addByNpm] on a name that is neither registered nor in the store,
    when the download fails. *)
Lemma run_addByNpm_offline (w : World) (data : NpmData) :
  JsMap.has (KName (n_name data)) (plugins w) = false ->
  existsb (sameKey (createdByNpm E data)) (store w) = false ->
  addOrUpdatePluginByNpm E (n_name data) (n_registry data) None = None ->
  run (addByNpm E data) w =
  (Error (ErrResolver (n_name data)),
   extend [EvStore (Create (createdByNpm E data));
           EvNpm (n_name data) (n_registry data) None]
     (setStore (store w ++ [createdByNpm E data]) w)).
Proof.
  intros H C D. unfold addByNpm.
  rewrite run_bind. simpl run at 1. lazy iota beta. rewrite H.
  rewrite run_bind, run_await.
  change (PluginData.mk (Some (n_name data)) None (Some (appName E))
            (n_registry data) None None (Some false) (n_isOfficial data)
            (Some false) (n_builtIn data)) with (createdByNpm E data).
  rewrite run_repo_create, C. lazy iota beta.
  rewrite run_bind, run_await. unfold npm at 1. simpl run at 1.
  rewrite D. same_world.
Qed.

(** With a row for the name in the store, [addByNpm] gets as far as the
    repository and no further. *)
Lemma run_addByNpm_duplicate (w : World) (data : NpmData) :
  JsMap.has (KName (n_name data)) (plugins w) = false ->
  existsb (sameKey (createdByNpm E data)) (store w) = true ->
  run (addByNpm E data) w = (Error (ErrStore (Create (createdByNpm E data))), w).
Proof.
  intros H C. unfold addByNpm.
  rewrite run_bind. simpl run at 1. lazy iota beta. rewrite H.
  rewrite run_bind, run_await.
  change (PluginData.mk (Some (n_name data)) None (Some (appName E))
            (n_registry data) None None (Some false) (n_isOfficial data)
            (Some false) (n_builtIn data)) with (createdByNpm E data).
  now rewrite run_repo_create, C.
Qed.

End AddFurtherProperties.

(** X6. Adding a plugin from a local path and removing it again. The
    name is neither registered nor in the store at the start, its
    package exports a class and the plugin is not added as built in.
    When the [remove] hook does not throw, the two calls leave the
    registry and the record store as they were before. When the [remove]
    hook throws, the removal fails and the row and the instance of the
    plugin stay. A throwing [afterAdd] hook makes the add fail, but only
    after the row and the instance are in place, so the removal goes the
    same way. *)
Theorem addByLocalPath_then_remove_restores
  (E : Env) (w : World) (path name c : string) (version : option string)
  (data : LocalData) :
  getPackageJsonByLocalPath E path = Some (name, version) ->
  JsMap.has (KName name) (plugins w) = false ->
  existsb (sameKey (createdByLocalPath E name version data)) (store w) = false ->
  name <> "" ->
  require_ E name = Some (Class c) ->
  l_builtIn data <> Some true ->
  let created := createdByLocalPath E name version data in
  let instance := Plugin.mk c (Some name) (Some false) (Some false) in
  let a := run (addByLocalPath E path data) w in
  let r := run (remove E name) (snd a) in
  fst a = (if hookThrows E instance HAfterAdd
           then Error (ErrHook instance HAfterAdd) else Ok created)
  /\ JsMap.get (KName name) (plugins (snd a)) = Some instance
  /\ store (snd a) = store w ++ [created]
  /\ (hookThrows E instance HRemove = false ->
      plugins (snd r) = plugins w
      /\ store (snd r) = store w
      /\ trace (snd r) =
           trace w ++ [EvStore (Create created); EvHook instance HAfterAdd;
                       EvHook instance HRemove;
                       EvStore (Destroy (notBuiltIn E name));
                       EvRemovePackage name])
  /\ (hookThrows E instance HRemove = true ->
      fst r = Error (ErrHook instance HRemove)
      /\ JsMap.get (KName name) (plugins (snd r)) = Some instance
      /\ plugins (snd r) = plugins (snd a)
      /\ store (snd r) = store w ++ [created]).
Proof.
  intros P H C Z Q B created instance a r.
  assert (OB : orFalse (l_builtIn data) = Some false).
  { destruct (l_builtIn data) as [[|] |]; [congruence | reflexivity..]. }
  assert (A : a =
    (if hookThrows E instance HAfterAdd
     then Error (ErrHook instance HAfterAdd) else Ok created,
     extend [EvHook instance HAfterAdd]
       (setPlugins (JsMap.set (KName name) instance (plugins w))
          (record (EvStore (Create created))
             (setStore (store w ++ [created]) w))))).
  { subst a. rewrite (run_addByLocalPath E w path name version data P H C).
    rewrite (run_setDatabasePlugin E
             (pick (Some name) (Some false) (orFalse (l_builtIn data))) name _
             eq_refl).
    apply String.eqb_neq in Z. rewrite Z, Q. cbv zeta. simpl PluginData.enabled.
    simpl PluginData.builtIn. rewrite OB. reflexivity. }
  assert (G : JsMap.get (KName name) (plugins (snd a)) = Some instance).
  { rewrite A. simpl. apply get_set_same. }
  split; [now rewrite A |]. split; [exact G |]. split; [now rewrite A |].
  subst r. rewrite (run_remove E (snd a) name instance G eq_refl).
  split; intros HR; rewrite HR.
  - rewrite A. simpl.
    split; [apply delete_set_fresh; now apply has_false_get |].
    split.
    + unfold destroyRows. rewrite filter_app. simpl.
      assert (M : matches (notBuiltIn E name) created = true).
      { unfold matches, notBuiltIn, created, createdByLocalPath. simpl.
        rewrite OB. simpl. now rewrite !String.eqb_refl. }
      rewrite M. simpl. rewrite app_nil_r.
      apply (destroyRows_none (notBuiltIn E name)).
      now apply (no_row_no_match created).
    + now rewrite <- !app_assoc.
  - cbn [fst snd]. split; [reflexivity |].
    split; [exact G |]. split; [reflexivity |].
    rewrite A. reflexivity.
Qed.

Lemma addByLocalPath_then_remove_restores_witness :
  let a := run (addByLocalPath calm "/plugins/foo" noLocalData) emptyWorld in
  let r := run (remove calm "foo") (snd a) in
  JsMap.get (KName "foo") (plugins (snd a))
  = Some (Plugin.mk "foo" (Some "foo") (Some false) (Some false))
  /\ plugins (snd r) = [] /\ store (snd r) = [].
Proof.
  assert (Z : "foo" <> "") by discriminate.
  assert (B : l_builtIn noLocalData <> Some true) by discriminate.
  pose proof (addByLocalPath_then_remove_restores calm emptyWorld
    "/plugins/foo" "foo" "foo" (Some "0.1.0") noLocalData
    eq_refl eq_refl eq_refl Z eq_refl B) as H.
  cbv zeta in H. destruct H as [_ [H1 [_ [H2 _]]]].
  destruct (H2 eq_refl) as [H3 [H4 _]].
  cbv zeta. split; [exact H1 | split; [exact H3 | exact H4]].
Defined.

(** X7. [addByNpm] creates the row before it downloads the package and
    does not take it back: when the download fails, the call fails with
    the row left in the store ([installed = false]) and no instance
    registered. With the unique constraint on [(name, appName)], every
    later [addByNpm] for that name is then rejected by the repository
    before it downloads anything, and [remove] does not find the name:
    the manager cannot get rid of the row. *)
Theorem addByNpm_failed_download_leaves_the_row
  (E : Env) (w : World) (data : NpmData) :
  let name := n_name data in
  JsMap.has (KName name) (plugins w) = false ->
  existsb (sameKey (createdByNpm E data)) (store w) = false ->
  addOrUpdatePluginByNpm E name (n_registry data) None = None ->
  let r := run (addByNpm E data) w in
  fst r = Error (ErrResolver name)
  /\ store (snd r) = store w ++ [createdByNpm E data]
  /\ PluginData.installed (createdByNpm E data) = Some false
  /\ plugins (snd r) = plugins w
  /\ trace (snd r) =
       trace w ++ [EvStore (Create (createdByNpm E data));
                   EvNpm name (n_registry data) None]
  /\ (forall data',
        n_name data' = name ->
        run (addByNpm E data') (snd r)
        = (Error (ErrStore (Create (createdByNpm E data'))), snd r))
  /\ run (remove E name) (snd r) = (Error (ErrDoesNotExist name), snd r).
Proof.
  intros name H C D r. subst r.
  rewrite (run_addByNpm_offline E w data H C D). simpl fst. simpl snd.
  repeat (split; [reflexivity |]). split.
  - intros data' N. apply run_addByNpm_duplicate.
    + simpl. now rewrite N.
    + simpl. rewrite existsb_app. simpl. unfold sameKey at 2. simpl.
      rewrite N. fold name. rewrite !String.eqb_refl. simpl.
      now rewrite orb_true_r.
  - unfold remove. rewrite run_bind, run_getPluginInstance. simpl.
    now rewrite (has_false_get _ _ H).
Qed.

Lemma addByNpm_failed_download_leaves_the_row_witness :
  let data := mkNpmData "x" (Some "r") None None in
  let r := run (addByNpm offline data) emptyWorld in
  fst r = Error (ErrResolver "x")
  /\ store (snd r) = [createdByNpm offline data]
  /\ run (addByNpm offline data) (snd r)
     = (Error (ErrStore (Create (createdByNpm offline data))), snd r).
Proof.
  pose proof (addByNpm_failed_download_leaves_the_row offline emptyWorld
    (mkNpmData "x" (Some "r") None None) eq_refl eq_refl eq_refl) as H.
  cbv zeta in H. destruct H as [H1 [H2 [_ [_ [_ [H3 _]]]]]].
  cbv zeta. split; [exact H1 | split; [exact H2 |]].
  exact (H3 (mkNpmData "x" (Some "r") None None) eq_refl).
Defined.

(** X8. [addByLocalPath] writes the row before it resolves the package:
    when the package cannot be required, or exports something that is not
    a class, the call fails with the row left in the store, nothing
    registered and no hook called. In the second case the error is the
    one of [setPluginInstance] for a plugin that must export a class. *)
Theorem addByLocalPath_without_a_class_leaves_the_row
  (E : Env) (w : World) (path name : string) (version : option string)
  (data : LocalData) :
  getPackageJsonByLocalPath E path = Some (name, version) ->
  JsMap.has (KName name) (plugins w) = false ->
  existsb (sameKey (createdByLocalPath E name version data)) (store w) = false ->
  (forall c, require_ E name <> Some (Class c)) ->
  let created := createdByLocalPath E name version data in
  let r := run (addByLocalPath E path data) w in
  (exists e, fst r = Error e
             /\ (kind e = PackageResolutionFailure
                 \/ kind e = InvalidPluginExport)
             /\ (name <> "" -> require_ E name = Some NotAFunction ->
                 e = ErrMustExportClass (Some name)))
  /\ store (snd r) = store w ++ [created]
  /\ plugins (snd r) = plugins w
  /\ trace (snd r) = trace w ++ [EvStore (Create created)].
Proof.
  intros P H C Q created r. subst r.
  rewrite (run_addByLocalPath E w path name version data P H C).
  rewrite (run_setDatabasePlugin E
             (pick (Some name) (Some false) (orFalse (l_builtIn data))) name _
             eq_refl).
  destruct (String.eqb name "") eqn:Z.
  - simpl. split; [| repeat split].
    exists (ErrRequire (Some name)). split; [reflexivity |].
    split; [now left |]. apply String.eqb_eq in Z. congruence.
  - destruct (require_ E name) as [[c |] |] eqn:R.
    + now destruct (Q c).
    + simpl. split; [| repeat split].
      exists (ErrMustExportClass (Some name)). split; [reflexivity |].
      split; [now right | reflexivity].
    + simpl. split; [| repeat split].
      exists (ErrRequire (Some name)). split; [reflexivity |].
      split; [now left | discriminate].
Qed.

Lemma addByLocalPath_without_a_class_leaves_the_row_witness :
  let r := run (addByLocalPath noClass "/plugins/foo" noLocalData) emptyWorld in
  fst r = Error (ErrMustExportClass (Some "foo"))
  /\ List.length (store (snd r)) = 1
  /\ plugins (snd r) = [].
Proof.
  assert (Q : forall c, require_ noClass "foo" <> Some (Class c))
    by (intros c; discriminate).
  pose proof (addByLocalPath_without_a_class_leaves_the_row noClass emptyWorld
    "/plugins/foo" "foo" (Some "0.1.0") noLocalData
    eq_refl eq_refl eq_refl Q) as H.
  cbv zeta in H. destruct H as [_ [H2 [H3 _]]].
  cbv zeta. split; [reflexivity |].
  split; [now rewrite H2 | exact H3].
Defined.

(** ** Invariants under every interleaving *)

Section Invariants.

Variable Inv : World -> Prop.

Lemma Keeps_bind {A B : Type} (m : Async A) (f : A -> Async B) :
  Keeps Inv m -> (forall a, Keeps Inv (f a)) -> Keeps Inv (x <- m ;; f x).
Proof.
  revert B f.
  induction m as [A a | A e | A X op k IH | A k IH | A c _ k IH];
    intros B f Hm Hf; simpl in *.
  - apply Hf.
  - exact I.
  - intros w Hw. destruct (Hm w Hw) as [H1 H2]. split; [exact H1 |].
    now apply IH.
  - now apply IH.
  - destruct Hm as [H1 H2]. split; [exact H1 |]. now apply IH.
Qed.

Lemma Keeps_await {A : Type} (m : Async A) :
  Keeps Inv m -> Keeps Inv (await m).
Proof. intros H. unfold await. apply Keeps_bind; [exact H | now intros a]. Qed.

Lemma Keeps_gets {X : Type} (f : World -> X) : Keeps Inv (gets f).
Proof. simpl. intros w H. now split. Qed.

Lemma Keeps_modify (f : World -> World) :
  (forall w, Inv w -> Inv (f w)) -> Keeps Inv (modify f).
Proof. intros H. simpl. intros w Hw. split; [now apply H | exact I]. Qed.

(** A segment of a call that keeps [Inv] ends in a world with [Inv] and
    leaves calls that keep it. *)
Lemma segment_Keeps {A : Type} (t : Async A) (w : World) :
  Keeps Inv t -> Inv w ->
  Inv (snd (segment t w))
  /\ Forall (fun c => Keeps Inv c) (snd (fst (segment t w)))
  /\ match fst (fst (segment t w)) with
     | Suspended k => Keeps Inv k
     | Finished _ => True
     end.
Proof.
  revert w.
  induction t as [A a | A e | A X op k IH | A k IH | A c IHc k IHk];
    intros w Ht Hw; simpl in *.
  - auto.
  - auto.
  - destruct (Ht w Hw) as [H1 H2].
    destruct (op w) as [x w']. simpl in H1, H2. now apply IH.
  - auto.
  - destruct Ht as [Hc Hk].
    specialize (IHc w Hc Hw).
    destruct (segment c w) as [[sc cs] w1]. simpl in IHc.
    destruct IHc as [T1 [F1 S1]].
    specialize (IHk w1 Hk T1).
    destruct (segment k w1) as [[sk ks] w2]. simpl in *.
    destruct IHk as [T2 [F2 S2]].
    split; [exact T2 |]. split; [| exact S2].
    apply Forall_app. split.
    + destruct sc; simpl; auto.
    + apply Forall_app. now split.
Qed.

Lemma Keeps_residual (s : Susp unit) :
  match s with Suspended k => Keeps Inv k | Finished _ => True end ->
  Keeps Inv (residual s).
Proof. destruct s; simpl; auto. Qed.

Lemma spawn_Keeps (t : Task) (P : Pool) :
  Keeps Inv t -> KeepsPool Inv P -> KeepsPool Inv (spawn t P).
Proof.
  intros Ht [HW HF]. unfold spawn.
  pose proof (segment_Keeps t (world P) Ht HW) as H.
  destruct (segment t (world P)) as [[s new] w']. simpl in H.
  destruct H as [T [F S]]. split; simpl; [exact T |].
  apply Forall_app. split; [exact HF |].
  constructor; [now apply Keeps_residual | exact F].
Qed.

Lemma resume_Keeps (i : nat) (P : Pool) :
  KeepsPool Inv P -> KeepsPool Inv (resume i P).
Proof.
  intros [HW HF]. unfold resume.
  destruct (nth_error (tasks P) i) as [t |] eqn:N; [| now split].
  assert (Ht : Keeps Inv t).
  { rewrite Forall_forall in HF. apply HF. eapply nth_error_In; eauto. }
  pose proof (segment_Keeps t (world P) Ht HW) as H.
  destruct (segment t (world P)) as [[s new] w']. simpl in H.
  destruct H as [T [F S]]. split; simpl; [exact T |].
  apply Forall_app. split; [| exact F].
  apply Forall_replace; [now apply Keeps_residual | exact HF].
Qed.

Lemma exec_Keeps (schedule : list nat) (P : Pool) :
  KeepsPool Inv P -> KeepsPool Inv (exec schedule P).
Proof.
  revert P. induction schedule as [| i l IH]; intros P H; simpl; [exact H |].
  apply IH. now apply resume_Keeps.
Qed.

(** *** The commands of the control channel *)

Variable E : Env.

(** What the invariant has to withstand: the writes of the repository
    that the manager asks for, and the registrations and deletions in the
    registry. *)
Hypothesis Inv_record : forall e w, Inv w -> Inv (record e w).
Hypothesis Inv_create :
  forall v w, Inv w -> Inv (setStore (store w ++ [v]) w).
Hypothesis Inv_update :
  forall f v w, Inv w -> Inv (setStore (updateRows f v (store w)) w).
Hypothesis Inv_destroy :
  forall n w, Inv w ->
    Inv (setStore (destroyRows (notBuiltIn E n) (store w)) w).
Hypothesis Inv_set :
  forall c pd w, Inv w ->
    Inv (setPlugins
           (JsMap.set (registryKey (PluginData.name pd) c)
              (Plugin.mk c (PluginData.name pd) (PluginData.enabled pd)
                 (PluginData.builtIn pd)) (plugins w)) w).
Hypothesis Inv_delete :
  forall k w, Inv w -> Inv (setPlugins (JsMap.delete k (plugins w)) w).

Lemma Keeps_emit (e : Event) : Keeps Inv (emit e).
Proof. apply Keeps_modify. intros w. apply Inv_record. Qed.

Lemma Keeps_hook (p : Plugin.t) (h : Hook) : Keeps Inv (hook E p h).
Proof.
  unfold hook. apply Keeps_bind; [apply Keeps_emit |].
  intros _. now destruct (hookThrows E p h).
Qed.

Lemma Keeps_emitAsync (ev : AppEvent) : Keeps Inv (emitAsync E ev).
Proof.
  unfold emitAsync. apply Keeps_bind; [apply Keeps_emit |].
  intros _. now destruct (emitThrows E ev).
Qed.

Lemma Keeps_repo_update (f : Filter) (v : Values) :
  Keeps Inv (repo_update f v).
Proof.
  apply Keeps_modify. intros w H. now apply Inv_record, Inv_update.
Qed.

Lemma Keeps_repo_destroy (n : string) :
  Keeps Inv (repo_destroy (mkFilter n (appName E) (Some false))).
Proof.
  apply Keeps_modify. intros w H. apply Inv_record.
  now apply (Inv_destroy n).
Qed.

Lemma Keeps_repo_create (v : PluginData.t) : Keeps Inv (repo_create v).
Proof.
  unfold repo_create. apply Keeps_bind; [apply Keeps_gets |].
  intros [|]; [exact I |].
  apply Keeps_bind; [| now intros _].
  apply Keeps_modify. intros w H. now apply Inv_record, Inv_create.
Qed.

Lemma Keeps_getPluginInstance (name : string) :
  Keeps Inv (getPluginInstance name).
Proof.
  unfold getPluginInstance. apply Keeps_bind; [apply Keeps_gets |].
  now intros [p |].
Qed.

Lemma Keeps_checkRequired (name : string) (l : list string) :
  Keeps Inv (checkRequired name l).
Proof.
  induction l as [| r l IH]; [exact I |].
  cbn [checkRequired]. apply Keeps_bind; [apply Keeps_gets |].
  intros [p |]; [| exact I].
  now destruct (negb (truthy (Plugin.enabled p))).
Qed.

Lemma Keeps_load (p : Plugin.t) : Keeps Inv (load E p).
Proof.
  unfold load. destruct (negb (truthy (Plugin.enabled p))); [exact I |].
  apply Keeps_bind; [apply Keeps_await, Keeps_emitAsync | intros _].
  apply Keeps_bind; [apply Keeps_await, Keeps_hook | intros _].
  apply Keeps_await, Keeps_emitAsync.
Qed.

Lemma Keeps_setPluginInstance (x : Export) (pd : PluginData.t) :
  Keeps Inv (setPluginInstance x pd).
Proof.
  destruct x as [c |]; [| exact I].
  unfold setPluginInstance. apply Keeps_bind; [| now intros _].
  apply Keeps_modify. intros w. apply Inv_set.
Qed.

Lemma Keeps_setDatabasePlugin (pd : PluginData.t) :
  Keeps Inv (setDatabasePlugin E pd).
Proof.
  unfold setDatabasePlugin. apply Keeps_bind.
  - unfold require. destruct (PluginData.name pd) as [s |]; [| exact I].
    destruct (String.eqb s ""); [exact I |].
    now destruct (require_ E s).
  - intros x. apply Keeps_bind; [apply Keeps_setPluginInstance | now intros p].
Qed.

Lemma Keeps_enable (name : string) : Keeps Inv (enable E name).
Proof.
  unfold enable.
  apply Keeps_bind; [apply Keeps_getPluginInstance | intros p].
  apply Keeps_bind; [apply Keeps_checkRequired | intros _].
  apply Keeps_bind; [apply Keeps_await, Keeps_repo_update | intros _].
  apply Keeps_bind; [apply Keeps_await, Keeps_hook | intros _].
  apply Keeps_bind; [apply Keeps_await, Keeps_hook | intros _].
  apply Keeps_bind; [apply Keeps_await, Keeps_emitAsync | intros _].
  apply Keeps_await, Keeps_load.
Qed.

Lemma Keeps_disable (name : string) : Keeps Inv (disable E name).
Proof.
  unfold disable.
  apply Keeps_bind; [apply Keeps_getPluginInstance | intros p].
  destruct (truthy (Plugin.builtIn p)); [exact I |].
  apply Keeps_bind; [apply Keeps_await, Keeps_repo_update | intros _].
  apply Keeps_bind; [apply Keeps_await, Keeps_hook | intros _].
  apply Keeps_await, Keeps_emitAsync.
Qed.

Lemma Keeps_remove (name : string) : Keeps Inv (remove E name).
Proof.
  unfold remove.
  apply Keeps_bind; [apply Keeps_getPluginInstance | intros p].
  destruct (truthy (Plugin.builtIn p)); [exact I |].
  apply Keeps_bind; [apply Keeps_await, Keeps_hook | intros _].
  apply Keeps_bind; [apply Keeps_await, Keeps_repo_destroy | intros _].
  apply Keeps_bind;
    [apply Keeps_modify; intros w; apply Inv_delete | intros _].
  apply Keeps_await. unfold removePackage.
  apply Keeps_bind; [apply Keeps_emit | intros _].
  now destruct (removePluginPackage E name).
Qed.

Lemma Keeps_addByLocalPath (path : string) (data : LocalData) :
  Keeps Inv (addByLocalPath E path data).
Proof.
  unfold addByLocalPath.
  destruct (getPackageJsonByLocalPath E path) as [[name version] |];
    [| exact I].
  apply Keeps_bind; [apply Keeps_gets | intros [|]; [exact I |]].
  apply Keeps_bind; [apply Keeps_await, Keeps_repo_create | intros res].
  apply Keeps_bind; [apply Keeps_await, Keeps_setDatabasePlugin | intros p].
  apply Keeps_bind; [apply Keeps_await, Keeps_hook | now intros _].
Qed.

Lemma Keeps_addByCli (name : string) : Keeps Inv (addByCli E name).
Proof.
  unfold addByCli. destruct (negb (existsSync E _)); [exact I |].
  apply Keeps_bind; [| intros _; apply Keeps_addByLocalPath].
  apply Keeps_await. apply Keeps_bind; [apply Keeps_emit | intros _].
  now destruct (addByLocalPackage E _).
Qed.

Lemma Keeps_createByCli (name : string) : Keeps Inv (createByCli E name).
Proof.
  unfold createByCli. apply Keeps_bind; [apply Keeps_emit | intros _].
  now destruct (generate E name).
Qed.

Lemma Keeps_byCli (m : string) (f : string -> Task) (n : string) :
  byCli E m = Some f -> Keeps Inv (f n).
Proof.
  unfold byCli.
  destruct (String.eqb m "create"); [intros [= <-]; apply Keeps_createByCli |].
  destruct (String.eqb m "add").
  { intros [= <-]. apply Keeps_bind; [apply Keeps_addByCli | now intros _]. }
  destruct (String.eqb m "remove"); [intros [= <-]; apply Keeps_remove |].
  destruct (String.eqb m "enable"); [intros [= <-]; apply Keeps_enable |].
  destruct (String.eqb m "disable"); [intros [= <-]; apply Keeps_disable |].
  discriminate.
Qed.

Lemma doCliCommand_Keeps (m : string) (names : Names) (P : Pool) :
  KeepsPool Inv P -> KeepsPool Inv (snd (doCliCommand E m names P)).
Proof.
  intros H. unfold doCliCommand.
  destruct (pluginNames names) as [| n l] eqn:N; [exact H |].
  destruct (byCli E m) as [f |] eqn:B; [| exact H].
  cbn [snd]. clear N. revert P H. generalize (n :: l) as ns. clear n l.
  induction ns as [| x ns IH]; intros P H; simpl; [exact H |].
  apply IH. apply spawn_Keeps; [now apply (Keeps_byCli m) | exact H].
Qed.

(** Whatever arrives on the control socket and whenever the pending
    calls go on, [Inv] holds. *)
Lemma serve_Keeps (turns : list Turn) (P : Pool) :
  KeepsPool Inv P -> KeepsPool Inv (serve E turns P).
Proof.
  revert P. induction turns as [| t l IH]; intros P H; simpl; [exact H |].
  apply IH. destruct t as [data | i]; simpl.
  - unfold onData. destruct (parse data) as [m |]; [| exact H].
    now apply doCliCommand_Keeps.
  - now apply resume_Keeps.
Qed.

End Invariants.

(** *** The shape of the registry *)

Lemma set_keys (k : Key) (v : Plugin.t) (m : JsMap.t) :
  map fst (JsMap.set k v m) = map fst m
  \/ (~ In k (map fst m) /\ map fst (JsMap.set k v m) = map fst m ++ [k]).
Proof.
  induction m as [| [k' v'] m IH]; simpl.
  - right. split; [tauto | reflexivity].
  - destruct (key_eqb k k') eqn:K.
    + apply key_eqb_eq in K. subst k'. now left.
    + simpl. destruct IH as [-> | [N ->]]; [now left |].
      right. split; [| reflexivity].
      intros [H | H]; [| now apply N].
      subst k'. now rewrite key_eqb_refl in K.
Qed.

Lemma set_uniqueKeys (k : Key) (v : Plugin.t) (m : JsMap.t) :
  uniqueKeys m -> uniqueKeys (JsMap.set k v m).
Proof.
  unfold uniqueKeys. intros U.
  destruct (set_keys k v m) as [-> | [N ->]]; [exact U |].
  apply NoDup_app; [exact U | repeat constructor; intros [] | ].
  intros x Hx [<- | []]. now apply N.
Qed.

Lemma In_set (k k' : Key) (v v' : Plugin.t) (m : JsMap.t) :
  In (k', v') (JsMap.set k v m) -> (k', v') = (k, v) \/ In (k', v') m.
Proof.
  induction m as [| [k0 v0] m IH]; simpl.
  - intros [H | []]. now left.
  - destruct (key_eqb k k0); simpl.
    + intros [H | H]; [now left | right; now right].
    + intros [H | H]; [right; now left |].
      destruct (IH H) as [H' | H']; [now left | right; now right].
Qed.

Lemma In_delete (k k' : Key) (v' : Plugin.t) (m : JsMap.t) :
  In (k', v') (JsMap.delete k m) -> In (k', v') m.
Proof.
  induction m as [| [k0 v0] m IH]; simpl; [tauto |].
  destruct (key_eqb k k0); simpl; [now right |].
  intros [H | H]; [now left | right; now apply IH].
Qed.

Lemma delete_uniqueKeys (k : Key) (m : JsMap.t) :
  uniqueKeys m -> uniqueKeys (JsMap.delete k m).
Proof.
  unfold uniqueKeys. induction m as [| [k0 v0] m IH]; simpl; [auto |].
  intros U. inversion U as [| x l N U' Eq]; subst.
  destruct (key_eqb k k0); [exact U' |].
  simpl. constructor; [| now apply IH].
  intros H. apply N. apply in_map_iff in H. destruct H as [[k1 v1] [H1 H2]].
  simpl in H1. subst k1. apply In_delete in H2.
  apply in_map_iff. now exists (k0, v1).
Qed.

Lemma get_In (k : Key) (p : Plugin.t) (m : JsMap.t) :
  JsMap.get k m = Some p -> In (k, p) m.
Proof.
  induction m as [| [k0 v0] m IH]; simpl; [discriminate |].
  destruct (key_eqb k k0) eqn:K.
  - apply key_eqb_eq in K. subst k0. intros [= ->]. now left.
  - intros H. right. now apply IH.
Qed.

(** An instance found under a name carries that name. *)
Lemma keyed_name (m : JsMap.t) (name : string) (p : Plugin.t) :
  keyed m -> JsMap.get (KName name) m = Some p ->
  Plugin.name p = Some name /\ name <> "".
Proof.
  intros K G. apply get_In in G. apply K in G. unfold registryKey in G.
  destruct (Plugin.name p) as [s |]; [| discriminate].
  destruct (truthy_str (Some s)) eqn:T; [| discriminate].
  injection G as ->. split; [reflexivity |].
  simpl in T. intros ->. discriminate.
Qed.

Lemma wellKeyed_stable (E : Env) (turns : list Turn) (P : Pool) :
  KeepsPool wellKeyed P -> KeepsPool wellKeyed (serve E turns P).
Proof.
  apply serve_Keeps.
  - now intros e w.
  - now intros v w.
  - now intros f v w.
  - now intros n w.
  - intros c pd w [U K]. split; simpl.
    + now apply set_uniqueKeys.
    + intros k p H. apply In_set in H. destruct H as [[= -> ->] | H].
      * reflexivity.
      * now apply K.
  - intros k w [U K]. split; simpl.
    + now apply delete_uniqueKeys.
    + intros k' p H. apply K. now apply In_delete in H.
Qed.

Lemma applyValues_keeps (v : Values) (x : PluginData.t) :
  PluginData.name (applyValues v x) = PluginData.name x
  /\ PluginData.builtIn (applyValues v x) = PluginData.builtIn x.
Proof. now split. Qed.

Lemma hasBuiltInRow_stable (E : Env) (name : string) (turns : list Turn)
  (P : Pool) :
  KeepsPool (hasBuiltInRow name) P ->
  KeepsPool (hasBuiltInRow name) (serve E turns P).
Proof.
  apply serve_Keeps.
  - now intros e w.
  - intros v w [x [I [N B]]]. exists x. simpl.
    split; [apply in_or_app; now left | now split].
  - intros f v w [x [I [N B]]]. simpl.
    exists (if matches f x then applyValues v x else x). split.
    + unfold updateRows. apply in_map_iff. now exists x.
    + now destruct (matches f x).
  - intros n w [x [I [N B]]]. exists x. simpl. split; [| now split].
    apply destroyRows_keeps; [now apply builtIn_row_not_matched | exact I].
  - now intros c pd w.
  - now intros k w.
Qed.

(** X9. The registry stays well keyed in the process that serves the
    control socket: whatever payloads arrive, in whatever order the
    pending [create], [add], [remove], [enable] and [disable] calls are
    resumed and wherever they fail, no key occurs twice and every
    instance sits under the key [name || PluginClass] of its own name and
    class. So an instance that [getPluginInstance] finds under a name
    was constructed with that name. *)
Theorem registry_stays_well_keyed
  (E : Env) (w : World) (turns : list Turn) :
  wellKeyed w ->
  let w' := world (serve E turns (idle w)) in
  wellKeyed w'
  /\ forall name p,
       run (getPluginInstance name) w' = (Ok p, w') ->
       Plugin.name p = Some name /\ name <> "".
Proof.
  intros H w'.
  assert (K : wellKeyed w').
  { apply (wellKeyed_stable E turns (idle w)). split; [exact H | constructor]. }
  split; [exact K |].
  intros name p. rewrite run_getPluginInstance.
  destruct (JsMap.get (KName name) (plugins w')) as [q |] eqn:G;
    [| discriminate].
  intros [= ->]. now apply (keyed_name (plugins w')); [apply K |].
Qed.

Lemma registry_stays_well_keyed_witness :
  let turns :=
    [Arrive (stringify (mkMessage "add" (Many ["foo"; "foo"])));
     Resume 1; Resume 0; Resume 0; Resume 1; Resume 0; Resume 1] in
  wellKeyed (world (serve calm turns (idle emptyWorld))).
Proof.
  assert (H : wellKeyed emptyWorld).
  { split; [constructor | intros k p []]. }
  exact (proj1 (registry_stays_well_keyed calm emptyWorld
    [Arrive (stringify (mkMessage "add" (Many ["foo"; "foo"])));
     Resume 1; Resume 0; Resume 0; Resume 1; Resume 0; Resume 1] H)).
Defined.

(** X10. A built-in row is never lost through the control socket:
    whatever payloads arrive and however the pending calls are
    interleaved, a plugin that has a row with [builtIn = true] keeps such
    a row. [remove] and [disable] pass [builtIn: false] in their filter,
    [enable] and the add commands only update or append. *)
Theorem builtIn_row_outlives_every_command
  (E : Env) (w : World) (name : string) (turns : list Turn) :
  hasBuiltInRow name w ->
  hasBuiltInRow name (world (serve E turns (idle w))).
Proof.
  intros H.
  apply (hasBuiltInRow_stable E name turns (idle w)).
  split; [exact H | constructor].
Qed.

Lemma builtIn_row_outlives_every_command_witness :
  let w := mkWorld [(KName "core", instanceOf "core" true false)]
             [rowOf "core" true true] true [] in
  let turns :=
    [Arrive (stringify (mkMessage "remove" (One "core")));
     Arrive (stringify (mkMessage "disable" (One "core")));
     Resume 1; Resume 0; Resume 0; Resume 1; Resume 0] in
  hasBuiltInRow "core" (world (serve calm turns (idle w))).
Proof.
  assert (H : hasBuiltInRow "core"
                (mkWorld [(KName "core", instanceOf "core" true false)]
                   [rowOf "core" true true] true [])).
  { exists (rowOf "core" true true). split; [now left | now split]. }
  exact (builtIn_row_outlives_every_command calm
    (mkWorld [(KName "core", instanceOf "core" true false)]
       [rowOf "core" true true] true [])
    "core"
    [Arrive (stringify (mkMessage "remove" (One "core")));
     Arrive (stringify (mkMessage "disable" (One "core")));
     Resume 1; Resume 0; Resume 0; Resume 1; Resume 0] H).
Defined.

(** ** The guards of the [beforeLoad] handler *)

(** X11. The two guards of the [beforeLoad] handler, under every
    schedule. On a first installation without [reload] the handler
    synchronises the table and does nothing else: no row is read, no
    instance registered and no hook called. When the method is neither
    [install] nor [upgrade] and the table is missing, the handler returns
    at the check and the world is left as it was. *)
Theorem beforeLoad_guards (E : Env) (w : World) (schedule : list nat) :
  world (exec schedule (spawn (beforeLoadHandler E installOptions) (idle w)))
  = record EvSync (setTableExists true w)
  /\ (forall options,
        includes ["install"; "upgrade"]
          (match options with Some o => o_method o | None => None end) = false ->
        tableExists w = false ->
        world (exec schedule (spawn (beforeLoadHandler E options) (idle w))) = w).
Proof.
  split.
  - set (Inv := fun w' : World => w' = record EvSync (setTableExists true w)).
    assert (K : KeepsPool Inv
                  (spawn (beforeLoadHandler E installOptions) (idle w))).
    { split; [reflexivity |]. simpl. constructor; [| constructor].
      intros w' ->. split; [reflexivity | exact I]. }
    apply (exec_Keeps Inv schedule _ K).
  - intros options M T.
    set (Inv := fun w' : World => w' = w).
    assert (K : KeepsPool Inv (spawn (beforeLoadHandler E options) (idle w))).
    { unfold beforeLoadHandler. rewrite M, andb_false_r.
      split; [reflexivity |]. simpl. constructor; [| constructor].
      now rewrite T. }
    apply (exec_Keeps Inv schedule _ K).
Qed.

Lemma beforeLoad_guards_witness :
  let w := mkWorld [] [rowOf "p" true false] false [] in
  world (exec [0; 0; 1; 0] (spawn (beforeLoadHandler calm startOptions) (idle w)))
  = w.
Proof.
  exact (proj2 (beforeLoad_guards calm
    (mkWorld [] [rowOf "p" true false] false []) [0; 0; 1; 0])
    startOptions eq_refl eq_refl).
Defined.

(** ** Registering the rows of the store *)

Lemma get_set_other (k k' : Key) (v : Plugin.t) (m : JsMap.t) :
  key_eqb k k' = false -> JsMap.get k (JsMap.set k' v m) = JsMap.get k m.
Proof.
  intros N. induction m as [| [k0 v0] m IH]; simpl.
  - now rewrite N.
  - destruct (key_eqb k' k0) eqn:K; simpl.
    + apply key_eqb_eq in K. subst k0. now rewrite N.
    + now rewrite IH.
Qed.

Lemma setPlugins_same (w : World) : setPlugins (plugins w) w = w.
Proof. now destruct w. Qed.

Section InitProperties.

Variable E : Env.

(** The call of [setDatabasePlugin] that is not awaited has run to its
    end when the caller goes on. *)
Lemma segment_setDatabasePlugin (pd : PluginData.t) (w : World) :
  snd (segment (setDatabasePlugin E pd ;; Ret tt) w)
  = setPlugins (register E (plugins w) pd) w.
Proof.
  unfold setDatabasePlugin, require, register, setPluginInstance.
  destruct (PluginData.name pd) as [n |] eqn:N; simpl;
    [| now rewrite setPlugins_same].
  destruct (String.eqb n "") eqn:Z; simpl; [now rewrite setPlugins_same |].
  destruct (require_ E n) as [[c |] |]; simpl;
    try now rewrite setPlugins_same.
  reflexivity.
Qed.

Lemma run_init_loop (l : list PluginData.t) (w : World) :
  run (forAwaitOf l (fun pluginData =>
         Fork (setDatabasePlugin E pluginData ;; Ret tt)
           (await (checkPackage E pluginData)))) w
  = (match find (fun pd => negb (checkPluginPackage E pd)) l with
     | None => Ok tt
     | Some pd => Error (ErrCheckPackage (PluginData.name pd))
     end,
     setPlugins (fold_left (register E) (reached E l) (plugins w)) w).
Proof.
  revert w. induction l as [| pd l IH]; intros w.
  - simpl. now rewrite setPlugins_same.
  - cbn [forAwaitOf run bind find reached].
    pose proof (segment_setDatabasePlugin pd w) as S.
    destruct (segment (setDatabasePlugin E pd;; Ret tt) w) as [[sc cs] w1].
    simpl in S. subst w1.
    unfold checkPackage.
    destruct (checkPluginPackage E pd); simpl.
    + rewrite IH. reflexivity.
    + reflexivity.
Qed.

Lemma run_initDatabasePlugins (w : World) :
  run (initDatabasePlugins E) w
  = (match find (fun pd => negb (checkPluginPackage E pd)) (rowsOf E w) with
     | None => Ok tt
     | Some pd => Error (ErrCheckPackage (PluginData.name pd))
     end,
     setPlugins
       (fold_left (register E) (reached E (rowsOf E w)) (plugins w)) w).
Proof.
  unfold initDatabasePlugins. rewrite run_bind, run_await.
  simpl run at 1. lazy iota beta. apply run_init_loop.
Qed.

Lemma reached_all (l : list PluginData.t) :
  forallb (checkPluginPackage E) l = true -> reached E l = l.
Proof.
  induction l as [| pd l IH]; simpl; [reflexivity |].
  destruct (checkPluginPackage E pd); [| discriminate].
  simpl. intros H. now rewrite IH.
Qed.

Lemma find_none_all (l : list PluginData.t) :
  forallb (checkPluginPackage E) l = true ->
  find (fun pd => negb (checkPluginPackage E pd)) l = None.
Proof.
  induction l as [| pd l IH]; simpl; [reflexivity |].
  destruct (checkPluginPackage E pd); [| discriminate]. exact IH.
Qed.

(** Once an instance of the class of a package sits under the name of
    the package, registering further rows leaves one there. *)
Lemma register_keeps_class (l : list PluginData.t) (m : JsMap.t)
  (n c : string) :
  require_ E n = Some (Class c) ->
  (exists p, JsMap.get (KName n) m = Some p
             /\ Plugin.cls p = c /\ Plugin.name p = Some n) ->
  exists p, JsMap.get (KName n) (fold_left (register E) l m) = Some p
            /\ Plugin.cls p = c /\ Plugin.name p = Some n.
Proof.
  intros Q. revert m. induction l as [| pd l IH]; intros m H; [exact H |].
  simpl. apply IH. unfold register.
  destruct (PluginData.name pd) as [n' |]; [| exact H].
  destruct (String.eqb n' ""); [exact H |].
  destruct (require_ E n') as [[c' |] |] eqn:Q'; try exact H.
  destruct (String.eqb n n') eqn:K.
  - apply String.eqb_eq in K. subst n'.
    rewrite get_set_same. eexists. split; [reflexivity |].
    simpl. split; [congruence | reflexivity].
  - now rewrite get_set_other.
Qed.

Lemma register_all (l : list PluginData.t) (m : JsMap.t)
  (pd : PluginData.t) (n c : string) :
  In pd l -> PluginData.name pd = Some n -> n <> "" ->
  require_ E n = Some (Class c) ->
  exists p, JsMap.get (KName n) (fold_left (register E) l m) = Some p
            /\ Plugin.cls p = c /\ Plugin.name p = Some n.
Proof.
  intros I N Z Q. revert m. induction l as [| x l IH]; intros m; [easy |].
  destruct I as [-> | I]; [| now apply IH].
  simpl. apply (register_keeps_class l _ n c Q).
  unfold register. rewrite N. apply String.eqb_neq in Z. rewrite Z, Q.
  rewrite get_set_same. eexists. now split.
Qed.

End InitProperties.

(** X12. [initDatabasePlugins] goes through the rows of the application
    in the order of the table; for each it calls [setDatabasePlugin]
    without awaiting it and then awaits [checkPluginPackage]. It stops at
    the first row whose package check fails, after the instance of that
    row has been registered. A row whose package cannot be required, or
    does not export a class, registers nothing and does not stop the
    loop. When every package check passes, the call returns and every
    row with a name whose package exports a class has an instance of
    that class under its name. The record store is only read. *)
Theorem initDatabasePlugins_registers_the_rows (E : Env) (w : World) :
  let r := run (initDatabasePlugins E) w in
  plugins (snd r)
  = fold_left (register E) (reached E (rowsOf E w)) (plugins w)
  /\ store (snd r) = store w
  /\ trace (snd r) = trace w
  /\ (forall pd,
        find (fun pd => negb (checkPluginPackage E pd)) (rowsOf E w) = Some pd ->
        fst r = Error (ErrCheckPackage (PluginData.name pd)))
  /\ (forallb (checkPluginPackage E) (rowsOf E w) = true ->
      fst r = Ok tt
      /\ forall pd n c,
           In pd (rowsOf E w) -> PluginData.name pd = Some n -> n <> "" ->
           require_ E n = Some (Class c) ->
           exists p, JsMap.get (KName n) (plugins (snd r)) = Some p
                     /\ Plugin.cls p = c /\ Plugin.name p = Some n).
Proof.
  cbv zeta. rewrite run_initDatabasePlugins. simpl fst. simpl snd.
  split; [reflexivity |]. split; [reflexivity |]. split; [reflexivity |].
  split.
  - intros pd F. now rewrite F.
  - intros A. rewrite (find_none_all E _ A). split; [reflexivity |].
    intros pd n c I N Z Q. simpl plugins. rewrite (reached_all E _ A).
    now apply (register_all E _ _ pd).
Qed.

(** ** Plugins from the configuration *)

Lemma run_initStaticPlugins_bare (classes : list string) (w : World) :
  run (initStaticPlugins (bare classes)) w
  = (Ok tt,
     setPlugins
       (fold_left (fun m c => JsMap.set (KClass c) (Plugin.mk c None None None) m)
          classes (plugins w)) w).
Proof.
  revert w. induction classes as [| c l IH]; intros w.
  - simpl. now rewrite setPlugins_same.
  - simpl. rewrite IH. reflexivity.
Qed.

Lemma bare_fold_get_name (classes : list string) (m : JsMap.t) (name : string) :
  JsMap.get (KName name)
    (fold_left (fun m c => JsMap.set (KClass c) (Plugin.mk c None None None) m)
       classes m)
  = JsMap.get (KName name) m.
Proof.
  revert m. induction classes as [| c l IH]; intros m; [reflexivity |].
  simpl. rewrite IH. now apply get_set_other.
Qed.

Lemma bare_fold_get_class (classes : list string) (m : JsMap.t) (c : string) :
  In c classes \/ JsMap.get (KClass c) m = Some (Plugin.mk c None None None) ->
  JsMap.get (KClass c)
    (fold_left (fun m c => JsMap.set (KClass c) (Plugin.mk c None None None) m)
       classes m)
  = Some (Plugin.mk c None None None).
Proof.
  revert m. induction classes as [| x l IH]; intros m.
  - intros [[] | H]. exact H.
  - intros H. simpl. apply IH.
    destruct (String.eqb c x) eqn:K.
    + apply String.eqb_eq in K. subst x. right. apply get_set_same.
    + destruct H as [[-> | H] | H].
      * now rewrite String.eqb_refl in K.
      * now left.
      * right. now rewrite get_set_other.
Qed.

Lemma bare_fold_disabled (classes : list string) (m : JsMap.t) :
  Forall (fun p => truthy (Plugin.enabled p) = false) (JsMap.values m) ->
  Forall (fun p => truthy (Plugin.enabled p) = false)
    (JsMap.values
       (fold_left (fun m c => JsMap.set (KClass c) (Plugin.mk c None None None) m)
          classes m)).
Proof.
  revert m. induction classes as [| c l IH]; intros m H; [exact H |].
  simpl. apply IH. clear IH. unfold JsMap.values in *.
  induction m as [| [k v] m IHm].
  - constructor; [reflexivity | constructor].
  - inversion H as [| x y Hx Hy]; subst. cbn [JsMap.set].
    destruct (key_eqb (KClass c) k); simpl.
    + constructor; [reflexivity | exact Hy].
    + constructor; [exact Hx | now apply IHm].
Qed.

Lemma loadSteps_disabled (l : list Plugin.t) :
  Forall (fun p => truthy (Plugin.enabled p) = false) l ->
  flat_map loadSteps l = [].
Proof.
  induction 1 as [| p l Hp _ IH]; [reflexivity |].
  simpl. rewrite IH. unfold loadSteps. now rewrite Hp.
Qed.

(** X13. A plugin that the configuration gives as a bare class is
    constructed with no name and no flags: [initStaticPlugins] registers
    it under its class, so no name leads to it and [enable], [disable]
    and [remove] cannot be called on it; and since its [enabled] is
    [undefined], [loadAll] passes over it. A manager that holds only such
    plugins loads nothing. *)
Theorem bare_static_plugins_are_never_loaded
  (E : Env) (classes : list string) (w : World) :
  let r := run (initStaticPlugins (bare classes)) w in
  fst r = Ok tt
  /\ (forall c, In c classes ->
        JsMap.get (KClass c) (plugins (snd r))
        = Some (Plugin.mk c None None None))
  /\ (forall name,
        JsMap.get (KName name) (plugins (snd r))
        = JsMap.get (KName name) (plugins w))
  /\ (plugins w = [] ->
      run (loadAll E) (snd r) = (Ok tt, snd r)
      /\ forall name,
           run (enable E name) (snd r) = (Error (ErrDoesNotExist name), snd r)).
Proof.
  cbv zeta. rewrite run_initStaticPlugins_bare. simpl fst. simpl snd.
  split; [reflexivity |]. split; [| split].
  - intros c I. simpl. apply bare_fold_get_class. now left.
  - intros name. simpl. apply bare_fold_get_name.
  - intros P. split.
    + rewrite run_loadAll. cbv zeta. simpl plugins.
      rewrite loadSteps_disabled.
      * simpl. now rewrite extend_nil.
      * apply bare_fold_disabled. rewrite P. constructor.
    + intros name. unfold enable.
      rewrite run_bind, run_getPluginInstance. simpl plugins.
      now rewrite bare_fold_get_name, P.
Qed.

(** ** The order of [loadAll] *)

Lemma loadedBy_app (a b : list Event) :
  loadedBy (a ++ b) = loadedBy a ++ loadedBy b.
Proof. unfold loadedBy. apply flat_map_app. Qed.

Lemma loadedBy_performed (E : Env) (l : list Plugin.t) :
  exists n,
    loadedBy (performed E (flat_map loadSteps l))
    = firstn n (filter (fun p => truthy (Plugin.enabled p)) l)
    /\ (failure E (flat_map loadSteps l) = None ->
        loadedBy (performed E (flat_map loadSteps l))
        = filter (fun p => truthy (Plugin.enabled p)) l).
Proof.
  induction l as [| p l [n [IH1 IH2]]].
  - exists 0. now split.
  - cbn [flat_map filter].
    destruct (truthy (Plugin.enabled p)) eqn:T.
    + assert (LS : loadSteps p =
        [SEmit (BeforeLoadPlugin p); SHook p HLoad; SEmit (AfterLoadPlugin p)])
        by (unfold loadSteps; now rewrite T).
      rewrite LS.
      cbn [app performed failure stepThrows stepEvent stepError].
      destruct (emitThrows E (BeforeLoadPlugin p)).
      { exists 0. split; [reflexivity | discriminate]. }
      destruct (hookThrows E p HLoad).
      { exists 1. split; [reflexivity | discriminate]. }
      destruct (emitThrows E (AfterLoadPlugin p)).
      { exists 1. split; [reflexivity | discriminate]. }
      exists (S n). cbn [loadedBy flat_map app firstn].
      fold (loadedBy (performed E (flat_map loadSteps l))).
      split; [now rewrite IH1 | intros F; now rewrite IH2].
    + assert (LS : loadSteps p = []) by (unfold loadSteps; now rewrite T).
      rewrite LS. exists n. now split.
Qed.

(** X14. [loadAll] calls the [load] hook on the instances whose
    [enabled] is truthy, in the order of the registry, each at most
    once, and on no other instance: the hooks it has called are an
    initial part of that list, and all of it when the pass returns. *)
Theorem loadAll_loads_enabled_instances_in_order (E : Env) (w : World) :
  let r := run (loadAll E) w in
  exists evs n,
    trace (snd r) = trace w ++ evs
    /\ loadedBy evs = firstn n (enabledInstances (plugins w))
    /\ (fst r = Ok tt -> loadedBy evs = enabledInstances (plugins w)).
Proof.
  cbv zeta. rewrite run_loadAll. cbv zeta.
  destruct (loadedBy_performed E (JsMap.values (plugins w))) as [n [H1 H2]].
  exists (performed E (flat_map loadSteps (JsMap.values (plugins w)))), n.
  split; [reflexivity |]. split; [exact H1 |].
  simpl fst. intros F. apply H2.
  now destruct (failure E (flat_map loadSteps (JsMap.values (plugins w)))).
Qed.

(** ** Commands that name no method *)

Lemma byCli_None (E : Env) (m : string) :
  byCli E m = None <-> ~ In m cliMethods.
Proof.
  unfold byCli, cliMethods. split.
  - intros H I.
    destruct I as [<- | [<- | [<- | [<- | [<- | []]]]]]; discriminate H.
  - intros N.
    destruct (String.eqb m "create") eqn:K1;
      [apply String.eqb_eq in K1; subst; exfalso; apply N; simpl; tauto |].
    destruct (String.eqb m "add") eqn:K2;
      [apply String.eqb_eq in K2; subst; exfalso; apply N; simpl; tauto |].
    destruct (String.eqb m "remove") eqn:K3;
      [apply String.eqb_eq in K3; subst; exfalso; apply N; simpl; tauto |].
    destruct (String.eqb m "enable") eqn:K4;
      [apply String.eqb_eq in K4; subst; exfalso; apply N; simpl; tauto |].
    destruct (String.eqb m "disable") eqn:K5;
      [apply String.eqb_eq in K5; subst; exfalso; apply N; simpl; tauto |].
    reflexivity.
Qed.

(** X15. The manager has a [...ByCli] member for [create], [add],
    [remove], [enable] and [disable] and for no other method. With any
    other method, [doCliCommand] throws a [TypeError] at the first name
    and starts nothing; with an empty array of names it returns whatever
    the method is. The client does not look at the method: it writes the
    message to the socket all the same, and the server, which only logs
    the error, is left as it was. *)
Theorem doCliCommand_without_member
  (E : Env) (m : string) (name : Names) (P : Pool) (sock : Socket) :
  (byCli E m = None <-> ~ In m cliMethods)
  /\ (pluginNames name = [] -> doCliCommand E m name P = (Ok tt, P))
  /\ (~ In m cliMethods ->
      (pluginNames name <> [] ->
       doCliCommand E m name P
       = (Error (TypeErrorNotAFunction (m ++ "ByCli")%string), P))
      /\ onData E (stringify (mkMessage m name)) P = P
      /\ clientWrite E (mkMessage m name) sock P
         = (P, if connects sock then [stringify (mkMessage m name)] else [])).
Proof.
  split; [apply byCli_None |]. split.
  - intros N. unfold doCliCommand. now rewrite N.
  - intros N. pose proof (proj2 (byCli_None E m) N) as B.
    assert (D : snd (doCliCommand E m name P) = P).
    { unfold doCliCommand. rewrite B. now destruct (pluginNames name). }
    split; [| split].
    + intros L. unfold doCliCommand. rewrite B.
      now destruct (pluginNames name).
    + unfold onData. rewrite parse_stringify. exact D.
    + unfold clientWrite. simpl method. simpl plugins_.
      destruct (String.eqb m "create") eqn:K.
      * apply String.eqb_eq in K. subst m. exfalso. apply N. now left.
      * rewrite D. now destruct (errors sock).
Qed.

Lemma doCliCommand_without_member_witness :
  let P := idle (mkWorld [(KName "foo", instanceOf "foo" true false)]
                   [rowOf "foo" true false] true []) in
  onData calm (stringify (mkMessage "upgrade" (One "foo"))) P = P
  /\ doCliCommand calm "upgrade" (Many []) P = (Ok tt, P).
Proof.
  assert (N : ~ In "upgrade" cliMethods).
  { intros [H | [H | [H | [H | [H | []]]]]]; discriminate H. }
  pose proof (doCliCommand_without_member calm "upgrade" (One "foo")
    (idle (mkWorld [(KName "foo", instanceOf "foo" true false)]
             [rowOf "foo" true false] true []))
    (mkSocket true false)) as H.
  pose proof (doCliCommand_without_member calm "upgrade" (Many [])
    (idle (mkWorld [(KName "foo", instanceOf "foo" true false)]
             [rowOf "foo" true false] true []))
    (mkSocket true false)) as H0.
  destruct H as [_ [_ H]]. destruct (H N) as [_ [H1 _]].
  destruct H0 as [_ [H2 _]].
  cbv zeta. split; [exact H1 | exact (H2 eq_refl)].
Defined.

(** ** The plugin generator *)

Module PluginGeneratorProperties.

Import Ascii PluginGenerator.

Ltac each_char c :=
  destruct c as [[] [] [] [] [] [] [] []]; vm_compute; try reflexivity;
  try discriminate; auto.

Lemma toUpperCase_separator (c : ascii) :
  isSeparator (toUpperCase c) = isSeparator c.
Proof. each_char c. Qed.

Lemma toUpperCase_ascii (c : ascii) :
  asciiChar (toUpperCase c) = asciiChar c.
Proof. each_char c. Qed.

Lemma toUpperCase_idempotent (c : ascii) :
  toUpperCase (toUpperCase c) = toUpperCase c.
Proof. each_char c. Qed.

Lemma toUpperCase_not_lower (c : ascii) (r : string) :
  startsLower (String (toUpperCase c) r) = false.
Proof. each_char c. Qed.

Lemma space_is_separator (c : ascii) :
  isSeparator c = false -> isSpace c = false.
Proof.
  unfold isSeparator. destruct (isSpace c); [| reflexivity].
  now rewrite orb_true_r.
Qed.

Lemma all_trimStart (P : ascii -> bool) (s : string) :
  all P s = true -> all P (trimStart s) = true.
Proof.
  induction s as [| c r IH]; simpl; [reflexivity |].
  destruct (isSpace c); [| now simpl].
  intros H. apply andb_true_iff in H. now apply IH.
Qed.

Lemma all_trimEnd (P : ascii -> bool) (s : string) :
  all P s = true -> all P (trimEnd s) = true.
Proof.
  induction s as [| c r IH]; simpl; [reflexivity |].
  intros H. apply andb_true_iff in H. destruct H as [Hc Hr].
  specialize (IH Hr). destruct (trimEnd r) as [| c' r'].
  - destruct (isSpace c); simpl; [reflexivity | now rewrite Hc].
  - simpl in *. now rewrite Hc.
Qed.

Lemma trimStart_noSeparator (s : string) :
  noSeparator s = true -> trimStart s = s.
Proof.
  destruct s as [| c r]; simpl; [reflexivity |].
  intros H. apply andb_true_iff in H. destruct H as [Hc _].
  apply negb_true_iff in Hc. now rewrite (space_is_separator c Hc).
Qed.

Lemma trimEnd_noSeparator (s : string) :
  noSeparator s = true -> trimEnd s = s.
Proof.
  induction s as [| c r IH]; simpl; [reflexivity |].
  intros H. apply andb_true_iff in H. destruct H as [Hc Hr].
  rewrite (IH Hr). apply negb_true_iff in Hc.
  destruct r; [now rewrite (space_is_separator c Hc) | reflexivity].
Qed.

Lemma replaceRuns_noSeparator (s : string) :
  noSeparator s = true -> replaceRuns false s = Some s.
Proof.
  induction s as [| c r IH]; simpl; [reflexivity |].
  intros H. apply andb_true_iff in H. destruct H as [Hc Hr].
  apply negb_true_iff in Hc. now rewrite Hc, (IH Hr).
Qed.

Lemma replaceRuns_result (s : string) :
  forall (b : bool) (r : string),
  asciiOnly s = true -> replaceRuns b s = Some r ->
  asciiOnly r = true /\ noSeparator r = true.
Proof.
  induction s as [| c s IH]; intros b r A; simpl.
  - destruct b; [discriminate |]. now intros [= <-].
  - simpl in A. apply andb_true_iff in A. destruct A as [Ac As].
    destruct (isSeparator c) eqn:S; [now apply IH |].
    destruct (replaceRuns false s) as [r' |] eqn:R; [| discriminate].
    intros [= <-]. destruct (IH false r' As R) as [H1 H2].
    unfold asciiOnly, noSeparator in *. simpl.
    rewrite H1, H2, !andb_true_r.
    destruct b; [| now rewrite Ac, S].
    now rewrite toUpperCase_ascii, toUpperCase_separator, Ac, S.
Qed.

(** The callback throws exactly when a run of separators ends the
    string. *)
Lemma replaceRuns_throws (s : string) :
  forall b : bool,
  replaceRuns b s = None <->
  match s with
  | EmptyString => b = true
  | _ => endsWithSeparator s = true
  end.
Proof.
  induction s as [| c s IH]; intros b.
  - simpl. destruct b; split; congruence.
  - cbn [replaceRuns endsWithSeparator].
    destruct (isSeparator c) eqn:S.
    + rewrite IH. destruct s; [tauto | reflexivity].
    + specialize (IH false).
      destruct (replaceRuns false s) as [r' |].
      * split; [discriminate |]. intros H.
        assert (X : Some r' = None)
          by (apply IH; destruct s; [discriminate | exact H]).
        discriminate X.
      * destruct IH as [IH _]. specialize (IH eq_refl).
        destruct s; [discriminate | tauto].
Qed.

Lemma camelize_noSeparator (s : string) :
  noSeparator s = true -> camelize s = Some s.
Proof.
  intros H. unfold camelize, trim.
  rewrite (trimStart_noSeparator s H), (trimEnd_noSeparator s H).
  now apply replaceRuns_noSeparator.
Qed.

Lemma camelize_result (str r : string) :
  asciiOnly str = true -> camelize str = Some r ->
  asciiOnly r = true /\ noSeparator r = true.
Proof.
  intros A. unfold camelize. apply replaceRuns_result.
  unfold trim. now apply all_trimEnd, all_trimStart.
Qed.

Lemma endsWithSeparator_lastChar (s : string) :
  endsWithSeparator s = true <->
  exists c, lastChar s = Some c /\ isSeparator c = true.
Proof.
  induction s as [| c r IH]; simpl.
  - split; [discriminate | intros [c [H _]]; discriminate].
  - destruct r as [| c' r'].
    + split.
      * intros H. now exists c.
      * intros [x [[= <-] H]]. exact H.
    + exact IH.
Qed.

(** What [trimEnd] leaves does not end with white space. *)
Lemma trimEnd_lastChar (s : string) (c : ascii) :
  lastChar (trimEnd s) = Some c -> isSpace c = false.
Proof.
  induction s as [| x r IH]; simpl; [discriminate |].
  destruct (trimEnd r) as [| c' r'] eqn:T.
  - destruct (isSpace x) eqn:X; simpl; [discriminate |].
    now intros [= <-].
  - exact IH.
Qed.

Lemma separator_not_space (c : ascii) :
  isSeparator c = true -> isSpace c = false ->
  c = "-"%char \/ c = "_"%char.
Proof.
  unfold isSeparator. intros H N. rewrite N, orb_false_r in H.
  apply orb_true_iff in H. destruct H as [H | H];
    apply Ascii.eqb_eq in H; auto.
Qed.

(** After [trim], ending with a separator is ending with [-] or [_]. *)
Lemma trim_endsWithSeparator (s : string) :
  endsWithSeparator (trim s) = true <->
  lastChar (trim s) = Some "-"%char \/ lastChar (trim s) = Some "_"%char.
Proof.
  rewrite endsWithSeparator_lastChar. split.
  - intros [c [L S]].
    destruct (separator_not_space c S (trimEnd_lastChar _ c L)) as [-> | ->];
      [now left | now right].
  - intros [L | L]; eexists; (split; [exact L | reflexivity]).
Qed.

End PluginGeneratorProperties.

(** X17. [camelize] of the plugin generator, on a name of ASCII
    characters. The callback of its [replace] throws a [TypeError]
    exactly when the trimmed name ends with a [-] or a [_]: the run of
    separators then ends the string and the optional group has matched
    nothing. Otherwise the result has no [-], [_] or white space left,
    is again made of ASCII characters, and [camelize] leaves it as it
    is. *)
Theorem camelize_throws_or_removes_separators (str : string) :
  PluginGenerator.asciiOnly str = true ->
  (PluginGenerator.camelize str = None
   <-> PluginGenerator.lastChar (PluginGenerator.trim str)
       = Some PluginGenerator.dash
       \/ PluginGenerator.lastChar (PluginGenerator.trim str)
          = Some PluginGenerator.underscore)
  /\ (forall r,
        PluginGenerator.camelize str = Some r ->
        PluginGenerator.asciiOnly r = true
        /\ PluginGenerator.noSeparator r = true
        /\ PluginGenerator.camelize r = Some r).
Proof.
  intros A. split.
  - unfold PluginGenerator.dash, PluginGenerator.underscore.
    rewrite <- PluginGeneratorProperties.trim_endsWithSeparator.
    unfold PluginGenerator.camelize.
    rewrite PluginGeneratorProperties.replaceRuns_throws.
    destruct (PluginGenerator.trim str); [| reflexivity].
    split; discriminate.
  - intros r H.
    destruct (PluginGeneratorProperties.camelize_result str r A H) as [H1 H2].
    split; [exact H1 |]. split; [exact H2 |].
    now apply PluginGeneratorProperties.camelize_noSeparator.
Qed.

Lemma camelize_throws_or_removes_separators_witness :
  PluginGenerator.camelize "  my-hello_world plugin " = Some "myHelloWorldPlugin"
  /\ PluginGenerator.camelize "my-plugin- " = None.
Proof.
  split; [reflexivity |].
  exact (proj2 (proj1 (camelize_throws_or_removes_separators "my-plugin- "
                         eq_refl)) (or_introl eq_refl)).
Defined.

(** X18. The [pascalCaseName] that the generator hands to its templates,
    for a name of ASCII characters on which [camelize] does not throw:
    it has no [-], [_] or white space, it does not start with a
    lower-case letter, it is as long as the camelized name, and
    capitalizing it again changes nothing. *)
Theorem pascalCaseName_shape (name r : string) :
  PluginGenerator.asciiOnly name = true ->
  PluginGenerator.pascalCaseName name = Some r ->
  PluginGenerator.noSeparator r = true
  /\ PluginGenerator.startsLower r = false
  /\ PluginGenerator.capitalize r = r
  /\ exists s, PluginGenerator.camelize name = Some s
               /\ String.length r = String.length s.
Proof.
  intros A. unfold PluginGenerator.pascalCaseName.
  destruct (PluginGenerator.camelize name) as [s |] eqn:C; [| discriminate].
  intros [= <-].
  destruct (PluginGeneratorProperties.camelize_result name s A C) as [_ N].
  destruct s as [| c s]; simpl.
  - repeat split. now exists EmptyString.
  - unfold PluginGenerator.noSeparator in *. simpl in *.
    rewrite PluginGeneratorProperties.toUpperCase_separator.
    split; [exact N |].
    split; [apply (PluginGeneratorProperties.toUpperCase_not_lower c s) |].
    split; [now rewrite PluginGeneratorProperties.toUpperCase_idempotent |].
    exists (String c s). now split.
Qed.

Lemma pascalCaseName_shape_witness :
  PluginGenerator.pascalCaseName "my-plugin" = Some "MyPlugin"
  /\ PluginGenerator.startsLower "MyPlugin" = false.
Proof.
  split; [reflexivity |].
  exact (proj1 (proj2 (pascalCaseName_shape "my-plugin" "MyPlugin"
                         eq_refl eq_refl))).
Defined.

(** ** Adding from the command line *)

Lemma run_addByCli_prefix (E : Env) (w : World) (dir : string) :
  existsSync E (pathJoin E (getPluginPackagesPath E) dir) = true ->
  run (addByCli E dir) w =
  if addByLocalPackage E (pathJoin E (getPluginPackagesPath E) dir)
  then run (addByLocalPath E (pathJoin E (getPluginPackagesPath E) dir)
              noLocalData)
         (extend [EvLocalPackage (pathJoin E (getPluginPackagesPath E) dir)] w)
  else (Error (ErrResolver (pathJoin E (getPluginPackagesPath E) dir)),
        extend [EvLocalPackage (pathJoin E (getPluginPackagesPath E) dir)] w).
Proof.
  intros X. unfold addByCli. rewrite X. cbn [negb].
  rewrite run_bind, run_await, run_bind. simpl run at 1.
  destruct (addByLocalPackage E _); reflexivity.
Qed.

(** X16. [addByCli] looks for the directory of the plugin at
    [path.join(getPluginPackagesPath(), dir)], the joined and normalised
    path. Without the directory it fails with the error for a
    plugin that does not exist and does nothing. With it, the local
    package is installed first; when that fails nothing is written.
    Otherwise the plugin is added as by [addByLocalPath] with no data, so
    neither built in nor official, and under the name that the
    [package.json] of the directory gives: a directory whose name differs
    from the package name leaves the directory name unregistered. *)
Theorem addByCli_registers_the_package_name
  (E : Env) (w : World) (dir : string) :
  let localPackage := pathJoin E (getPluginPackagesPath E) dir in
  (existsSync E localPackage = false ->
   run (addByCli E dir) w = (Error (ErrCliNotExists dir), w)
   /\ kind (ErrCliNotExists dir) = PluginNotFound)
  /\ (existsSync E localPackage = true ->
      addByLocalPackage E localPackage = false ->
      run (addByCli E dir) w
      = (Error (ErrResolver localPackage),
         extend [EvLocalPackage localPackage] w))
  /\ (forall (name c : string) (version : option string),
      existsSync E localPackage = true ->
      addByLocalPackage E localPackage = true ->
      getPackageJsonByLocalPath E localPackage = Some (name, version) ->
      JsMap.has (KName name) (plugins w) = false ->
      existsb (sameKey (createdByLocalPath E name version noLocalData))
        (store w) = false ->
      name <> "" ->
      require_ E name = Some (Class c) ->
      let created := createdByLocalPath E name version noLocalData in
      let instance := Plugin.mk c (Some name) (Some false) (Some false) in
      let r := run (addByCli E dir) w in
      fst r = (if hookThrows E instance HAfterAdd
               then Error (ErrHook instance HAfterAdd) else Ok created)
      /\ PluginData.builtIn created = Some false
      /\ PluginData.isOfficial created = Some false
      /\ plugins (snd r) = JsMap.set (KName name) instance (plugins w)
      /\ store (snd r) = store w ++ [created]
      /\ trace (snd r) =
           trace w ++ [EvLocalPackage localPackage; EvStore (Create created);
                       EvHook instance HAfterAdd]
      /\ (dir <> name ->
          JsMap.get (KName dir) (plugins (snd r))
          = JsMap.get (KName dir) (plugins w))).
Proof.
  cbv zeta. split; [| split].
  - intros X. unfold addByCli. rewrite X. now split.
  - intros X L. now rewrite (run_addByCli_prefix E w dir X), L.
  - intros name c version X L P H C Z Q.
    rewrite (run_addByCli_prefix E w dir X), L.
    rewrite (run_addByLocalPath E
               (extend [EvLocalPackage (pathJoin E (getPluginPackagesPath E) dir)] w)
               _ name version noLocalData P H C).
    rewrite (run_setDatabasePlugin E
               (pick (Some name) (Some false) (orFalse (l_builtIn noLocalData)))
               name _ eq_refl).
    apply String.eqb_neq in Z. rewrite Z, Q. cbv zeta. simpl.
    repeat (split; [reflexivity |]).
    split; [now rewrite <- !app_assoc |].
    intros D. apply get_set_other. simpl. now apply String.eqb_neq.
Qed.

Lemma addByCli_registers_the_package_name_witness :
  let r := run (addByCli calm "./bar") emptyWorld in
  let created := createdByLocalPath calm "foo" (Some "0.1.0") noLocalData in
  let instance := Plugin.mk "foo" (Some "foo") (Some false) (Some false) in
  fst r = Ok created
  /\ trace (snd r) =
       [EvLocalPackage "/plugins/bar"; EvStore (Create created);
        EvHook instance HAfterAdd]
  /\ JsMap.get (KName "./bar") (plugins (snd r)) = None.
Proof.
  assert (Z : "foo" <> "") by discriminate.
  assert (D : "./bar" <> "foo") by discriminate.
  pose proof (proj2 (proj2 (addByCli_registers_the_package_name calm
    emptyWorld "./bar")) "foo" "foo" (Some "0.1.0")
    eq_refl eq_refl eq_refl eq_refl eq_refl Z eq_refl) as H.
  cbv zeta in H. destruct H as [H1 [_ [_ [_ [_ [H2 H3]]]]]].
  cbv zeta. split; [exact H1 | split; [exact H2 | exact (H3 D)]].
Defined.

(** ** Enabling and disabling again *)

Lemma updateRows_round_trip (E : Env) (name : string)
  (rows : list PluginData.t) :
  (forall x, In x rows ->
     matches (mkFilter name (appName E) None) x = true ->
     PluginData.enabled x = Some false
     /\ truthy (PluginData.builtIn x) = false) ->
  updateRows (notBuiltIn E name) disableValues
    (updateRows (mkFilter name (appName E) None) enableValues rows)
  = rows.
Proof.
  induction rows as [| x rows IH]; intros H; [reflexivity |].
  cbn [updateRows map]. fold (updateRows (mkFilter name (appName E) None)
                               enableValues rows).
  fold (updateRows (notBuiltIn E name) disableValues
          (updateRows (mkFilter name (appName E) None) enableValues rows)).
  rewrite IH by (intros y I; apply H; now right). f_equal.
  destruct (matches (mkFilter name (appName E) None) x) eqn:M.
  - destruct (H x (or_introl eq_refl) M) as [He Hb].
    destruct x as [n v a rg cu zu en io ins bi]. simpl in He, Hb. subst en.
    unfold matches, notBuiltIn in *. simpl in *.
    rewrite andb_true_r in M. rewrite M, Hb. reflexivity.
  - unfold matches, notBuiltIn in *. simpl in *.
    rewrite andb_true_r in M. now rewrite M.
Qed.

(** X19. Enabling a plugin and disabling it again restores the record
    store, when the instance is not built in and the rows of the plugin
    were disabled and not built in: [enable] writes [enabled = true] to
    the rows of the name and application, [disable] writes
    [enabled = false] to those of them that are not built in. This does
    not depend on whether a hook of [enable] has thrown after the
    update. The registry is the same throughout. *)
Theorem enable_then_disable_restores_the_store
  (E : Env) (w : World) (name : string) (p : Plugin.t) :
  JsMap.get (KName name) (plugins w) = Some p ->
  truthy (Plugin.builtIn p) = false ->
  forallb (mapsToEnabled w) (requiredPlugins E p) = true ->
  (forall x, In x (store w) ->
     matches (mkFilter name (appName E) None) x = true ->
     PluginData.enabled x = Some false
     /\ truthy (PluginData.builtIn x) = false) ->
  let e := run (enable E name) w in
  let d := run (disable E name) (snd e) in
  store (snd e)
  = updateRows (mkFilter name (appName E) None) enableValues (store w)
  /\ fst d = outcomeOf (failure E (disableSteps name p))
  /\ store (snd d) = store w
  /\ plugins (snd d) = plugins w.
Proof.
  intros G B R H e d. subst d e.
  rewrite (run_enable E w name p G R). cbn [snd].
  split; [reflexivity |].
  rewrite (run_disable E
             (extend (EvStore (Update (mkFilter name (appName E) None)
                                 enableValues)
                        :: performed E (enableSteps name p))
                (setStore (updateRows (mkFilter name (appName E) None)
                             enableValues (store w)) w))
             name p G B).
  simpl fst. simpl snd.
  split; [reflexivity |]. split; [| reflexivity].
  simpl store. now apply updateRows_round_trip.
Qed.

Lemma enable_then_disable_restores_the_store_witness :
  let p := instanceOf "foo" false false in
  let w := mkWorld [(KName "foo", p)] [rowOf "foo" false false] true [] in
  store (snd (run (enable calm "foo") w)) = [rowOf "foo" true false]
  /\ store (snd (run (disable calm "foo") (snd (run (enable calm "foo") w))))
     = [rowOf "foo" false false].
Proof.
  assert (H : forall x,
    In x [rowOf "foo" false false] ->
    matches (mkFilter "foo" (appName calm) None) x = true ->
    PluginData.enabled x = Some false
    /\ truthy (PluginData.builtIn x) = false).
  { intros x [<- | []] _. now split. }
  pose proof (enable_then_disable_restores_the_store calm
    (mkWorld [(KName "foo", instanceOf "foo" false false)]
       [rowOf "foo" false false] true [])
    "foo" (instanceOf "foo" false false) eq_refl eq_refl eq_refl H) as K.
  cbv zeta in K. destruct K as [K1 [_ [K2 _]]].
  cbv zeta. split; [exact K1 | exact K2].
Defined.

(** ** The [beforeLoad] pass over the registered instances *)

Lemma run_beforeLoad_loop (E : Env) (bound i : nat) (w : World) :
  i <= List.length (plugins w) ->
  List.length (plugins w) < bound + i ->
  let steps :=
    map (fun p => SHook p HBeforeLoad) (skipn i (JsMap.values (plugins w))) in
  run (forAwaitValues bound i (fun plugin => await (hook E plugin HBeforeLoad))) w
  = (outcomeOf (failure E steps), extend (performed E steps) w).
Proof.
  revert i w. induction bound as [| b IH]; intros i w Hi Hb; [lia |].
  cbv zeta. cbn [forAwaitValues]. rewrite run_bind. simpl run at 1.
  lazy iota beta. cbn [run].
  destruct (nth_error (JsMap.values (plugins w)) i) as [p |] eqn:N.
  - rewrite (skipn_nth_error_some _ _ _ N).
    cbn [map failure performed stepThrows stepEvent stepError].
    rewrite run_bind, run_await, run_hook.
    destruct (hookThrows E p HBeforeLoad); [reflexivity |].
    assert (L : i < List.length (plugins w)).
    { unfold JsMap.values in N.
      rewrite <- (length_map snd). apply nth_error_Some. now rewrite N. }
    lazy iota beta.
    specialize (IH (S i) (extend [EvHook p HBeforeLoad] w)).
    cbv zeta in IH. simpl plugins in IH.
    rewrite IH by lia. now rewrite extend_extend.
  - rewrite (skipn_nth_error_none _ _ N). simpl. now rewrite extend_nil.
Qed.

(** X20. When the application is neither installed nor upgraded and the
    table exists, the [beforeLoad] handler starts [initDatabasePlugins]
    and, while the query of that call is pending, calls [beforeLoad] on
    the instances that are registered, in the order of the registry; the
    first hook that throws ends the pass and fails the handler. It writes
    nothing to the record store and registers nothing itself. *)
Theorem beforeLoad_pass_over_registered_instances
  (E : Env) (w : World) (options : option LoadOptions) :
  includes ["install"; "upgrade"]
    (match options with Some o => o_method o | None => None end) = false ->
  tableExists w = true ->
  let steps := beforeLoadSteps (plugins w) in
  let r := run (beforeLoadHandler E options) w in
  fst r = outcomeOf (failure E steps)
  /\ trace (snd r) = trace w ++ performed E steps
  /\ (exists n, performed E steps = map stepEvent (firstn n steps))
  /\ plugins (snd r) = plugins w
  /\ store (snd r) = store w.
Proof.
  intros M T steps r.
  assert (R : r = (outcomeOf (failure E steps), extend (performed E steps) w)).
  { subst r. unfold beforeLoadHandler. rewrite M, andb_false_r.
    assert (N : opt_eqb (match options with Some o => o_method o | None => None end)
                  "install" = false).
    { unfold includes in M. simpl in M. apply orb_false_iff in M. tauto. }
    rewrite N. cbn [negb orb].
    rewrite run_bind, run_ret. lazy iota beta.
    rewrite run_bind, run_await. simpl run at 1. lazy iota beta.
    rewrite T. cbn [negb]. cbn [run]. 
    change (segment (initDatabasePlugins E) w)
      with (Suspended
              (forAwaitOf (rowsOf E w) (fun pluginData =>
                 Fork (setDatabasePlugin E pluginData ;; Ret tt)
                   (await (checkPackage E pluginData)))),
            @nil Task, w).
    lazy iota beta. rewrite run_bind. simpl run at 1. lazy iota beta.
    apply (run_beforeLoad_loop E
             (S (List.length (plugins w) + List.length (store w))) 0 w); lia. }
  rewrite R. simpl fst. simpl snd.
  split; [reflexivity |]. split; [reflexivity |].
  split; [apply performed_prefix |]. now split.
Qed.

Lemma beforeLoad_pass_over_registered_instances_witness :
  let a := instanceOf "a" true false in
  let b := instanceOf "b" false false in
  let w := mkWorld [(KName "a", a); (KName "b", b)] [] true [] in
  let r := run (beforeLoadHandler calm startOptions) w in
  fst r = Ok tt /\ trace (snd r) = [EvHook a HBeforeLoad; EvHook b HBeforeLoad].
Proof.
  pose proof (beforeLoad_pass_over_registered_instances calm
    (mkWorld [(KName "a", instanceOf "a" true false);
              (KName "b", instanceOf "b" false false)] [] true [])
    startOptions eq_refl eq_refl) as H.
  cbv zeta in H. destruct H as [H1 [H2 _]].
  cbv zeta. split; [exact H1 | exact H2].
Defined.
